(** * Payment-schedule accounting core of the YNAB debt tracker

    A shallow embedding of the pure calculations of [src/lib/ynab.ts]
    (currency conversion, the deadline counter, the calendar-day
    difference) and of [src/app/page.tsx] (the history reconciler, the
    status classifier, the finish-date projector), together with the
    properties the specification states about them.

    Modelling conventions.
    - A [dayjs] object wraps a point in time.  It is embedded as the number
      of milliseconds of local wall-clock time since 1970-01-01T00:00 local,
      every local day lasting 86 400 000 ms (no daylight-saving jumps).
    - A date string in the ledger's ['YYYY-MM-DD'] format is embedded as its
      day number (days since 1970-01-01, which was a Thursday); two such
      strings are equal exactly when the day numbers are.
    - Each clock read, [dayjs()] or [new Date()], is a parameter of the
      function that performs it; a function that reads the clock twice has
      two.
    - A JavaScript [number] is an IEEE 754 binary64 value.  One that holds an
      amount of money is embedded as the rational number it is equal to, and
      every arithmetic operation of the source on such numbers ([/], [*],
      [-], [+]) is the exact operation followed by [Double.round], rounding to
      the nearest binary64 value, ties to even, subnormal numbers included.
      Comparisons, [Math.abs], negation, [Math.round] and [Math.ceil] are
      exact on binary64 values.  [NaN] and the two infinities have no
      embedding: a product or a quotient of 2^1024 or more in magnitude is
      outside the model, and a statement about amounts says which range it
      covers.
    - A number that holds a count, a day number or an amount in minor units
      is embedded as an integer. *)

From Stdlib Require Import Ascii String ZArith QArith Qround Qabs Qpower.
From Stdlib Require Import List Bool Lia Lqa Permutation Sorted Floats.
From Equations Require Import Equations.
From Equations.Prop Require Import Logic.
Import ListNotations.

Local Open Scope Z_scope.

(** ** The part of the [dayjs] interface the code uses *)

Module Dayjs.

Definition MILLISECONDS_A_DAY : Z := 86400000.

(** Local wall-clock milliseconds. *)
Definition t : Type := Z.

(** [dayjs('YYYY-MM-DD')]: local midnight at the start of that date. *)
Definition parse (date : Z) : t := date * MILLISECONDS_A_DAY.

(** The calendar date an instant falls on ([format('YYYY-MM-DD')]). *)
Definition date (d : t) : Z := d / MILLISECONDS_A_DAY.

(** [.day()]: 0 = Sunday, 1 = Monday, ... 6 = Saturday. *)
Definition day (d : t) : Z := (date d + 4) mod 7.

(** [.add(n, 'day')] and [.subtract(n, 'day')]. *)
Definition add (n : Z) (d : t) : t := d + n * MILLISECONDS_A_DAY.
Definition subtract (n : Z) (d : t) : t := d - n * MILLISECONDS_A_DAY.

(** [.startOf('day')] and [.endOf('day')]. *)
Definition startOf_day (d : t) : t := date d * MILLISECONDS_A_DAY.
Definition endOf_day (d : t) : t := startOf_day d + MILLISECONDS_A_DAY - 1.

(** [a.isBefore(b)] and [a.isAfter(b)] compare the two instants. *)
Definition isBefore (a b : t) : bool := a <? b.
Definition isAfter (a b : t) : bool := b <? a.

(** [a.isSame(b, 'day')]: [b] lies between the start and the end of the
    day of [a]. *)
Definition isSame_day (a b : t) : bool :=
  (startOf_day a <=? b) && (b <=? endOf_day a).

(** [a.diff(b, 'day')]: the difference in milliseconds divided by the
    length of a day and truncated towards zero. *)
Definition diff_day (a b : t) : Z := Z.quot (a - b) MILLISECONDS_A_DAY.

End Dayjs.

(** ** JavaScript numbers: IEEE 754 binary64 *)

Module Double.

(** The exponent of the power of two at or just below a positive rational:
    [2 ^ ilog2 a <= a < 2 ^ (ilog2 a + 1)]. *)
Definition ilog2 (a : Q) : Z :=
  let L := Z.log2 (Qnum a) - Z.log2 (Zpos (Qden a)) in
  if Qle_bool (2 ^ L) a then L else L - 1.

(** The nearest integer, a tie going to the even one. *)
Definition roundHalfEven (q : Q) : Z :=
  let f := Qfloor q in
  match (q - inject_Z f ?= 1 # 2)%Q with
  | Lt => f
  | Gt => f + 1
  | Eq => if Z.even f then f else f + 1
  end.

(** The exponent of the unit in the last place of the binary64 values next
    to [x]: 53 significant bits, and no exponent below that of the
    subnormal numbers. *)
Definition exponent (x : Q) : Z := Z.max (ilog2 (Qabs x) - 52) (-1074).

Definition sign (x : Q) : Q := if Qle_bool 0 x then 1%Q else (-1)%Q.

(** The binary64 value nearest to [x], in lowest terms. *)
Definition round (x : Q) : Q :=
  if Qeq_bool x 0 then 0%Q
  else
    let e := exponent x in
    Qred (sign x * inject_Z (roundHalfEven (Qabs x / 2 ^ e)) * 2 ^ e)%Q.

(** The four operations of the source on numbers. *)
Definition add (x y : Q) : Q := round (x + y).
Definition sub (x y : Q) : Q := round (x - y).
Definition mul (x y : Q) : Q := round (x * y).
Definition div (x y : Q) : Q := round (x / y).

(** The binary64 values, as rationals, the upper limit of the exponent
    apart: a significand of at most 53 bits and an exponent of at least
    -1074. *)
Definition representable (y : Q) : Prop :=
  exists m e : Z,
    Z.abs m <= 2 ^ 53 /\ -1074 <= e /\ (y == inject_Z m * 2 ^ e)%Q.

(** The operation whose exact result is [x] does not overflow: the rounded
    result is below 2^1024 in magnitude, hence a finite binary64 value. *)
Definition finite (x : Q) : Prop := (Qabs (round x) < 2 ^ 1024)%Q.

(** The unit roundoff, 2^-53: the relative error of one rounding of a number
    in the normal range is at most this. *)
Definition unitRoundoff : Q := 1 # 9007199254740992.

(** The value of one of Rocq's primitive binary64 floats, when it is finite;
    used to compare [round] with the hardware operations on examples. *)
Definition ofFloat (f : float) : option Q :=
  match Prim2SF f with
  | S754_zero _ => Some 0%Q
  | S754_finite s m e =>
      Some (Qred ((if s then -1 else 1) * inject_Z (Zpos m) * 2 ^ e))%Q
  | _ => None
  end.

End Double.

(** [Array.prototype.includes] on an array of weekday ordinals. *)
Definition includes (xs : list Z) (x : Z) : bool := existsb (Z.eqb x) xs.

(** ** [src/lib/ynab.ts] *)

Record PaymentHistoryItem : Type := mkPaymentHistoryItem {
  date : Z;
  amount : Q;
  balance : Q;
  cleared : option string;
  memo : option string
}.

(** [milliunitsToCurrency]: [milliunits / 1000]. *)
Definition milliunitsToCurrency (milliunits : Z) : Q :=
  Double.div (inject_Z milliunits) 1000.

(** [Math.round]: the nearest integer, a tie going up. *)
Definition Math_round (x : Q) : Z := Qfloor (x + (1 # 2)).

(** [currencyToMilliunits]: [Math.round(amount * 1000)]. *)
Definition currencyToMilliunits (amount : Q) : Z :=
  Math_round (Double.mul amount 1000).

(** The [while] loop of [calculatePaymentDaysRemaining]: [currentDate] and
    [paymentDaysCount] are the two variables it updates. *)
Equations? countPaymentDays (deadline : Dayjs.t) (paymentDays : list Z)
    (currentDate : Dayjs.t) (paymentDaysCount : Z) : Z
    by wf (Z.to_nat (Dayjs.date deadline - Dayjs.date currentDate + 1)) lt :=
  countPaymentDays deadline paymentDays currentDate paymentDaysCount
    with inspect (Dayjs.isBefore currentDate deadline
                  || Dayjs.isSame_day currentDate deadline) => {
    | exist _ true _ =>
        countPaymentDays deadline paymentDays (Dayjs.add 1 currentDate)
          (if includes paymentDays (Dayjs.day currentDate)
           then paymentDaysCount + 1 else paymentDaysCount)
    | exist _ false _ => paymentDaysCount }.
Proof.
  unfold Dayjs.isBefore, Dayjs.isSame_day, Dayjs.endOf_day, Dayjs.startOf_day,
    Dayjs.add, Dayjs.date, Dayjs.MILLISECONDS_A_DAY in *.
  apply orb_true_iff in e.
  rewrite andb_true_iff, !Z.leb_le, Z.ltb_lt in e.
  apply Z2Nat.inj_lt; Z.div_mod_to_equations; lia.
Qed.

(** The predicate of the [filter] that selects the payments already made. *)
Definition isPaidDay (today deadline : Dayjs.t) (paymentDays : list Z)
    (payment : PaymentHistoryItem) : bool :=
  let paymentDate := Dayjs.parse (date payment) in
  let dayOfWeek := Dayjs.day paymentDate in
  Dayjs.isAfter paymentDate (Dayjs.subtract 1 today)
  && Dayjs.isBefore paymentDate (Dayjs.add 1 deadline)
  && includes paymentDays dayOfWeek
  && Qle_bool 0 (amount payment).

Definition paidDays (now : Dayjs.t) (endDate : Z) (paymentDays : list Z)
    (paymentHistory : list PaymentHistoryItem) : Z :=
  let today := now in
  let deadline := Dayjs.parse endDate in
  Z.of_nat (length (filter (isPaidDay today deadline paymentDays) paymentHistory)).

Definition calculatePaymentDaysRemaining (now : Dayjs.t) (endDate : Z)
    (paymentDays : list Z) (paymentHistory : list PaymentHistoryItem) : Z :=
  let today := now in
  let deadline := Dayjs.parse endDate in
  let paymentDaysCount := countPaymentDays deadline paymentDays today 0 in
  Z.max 0 (paymentDaysCount - paidDays now endDate paymentDays paymentHistory).

(** [getDaysUntilDeadline]. *)
Definition getDaysUntilDeadline (now : Dayjs.t) (endDate : Z) : Z :=
  let today := now in
  let deadline := Dayjs.parse endDate in
  let diffDays := Dayjs.diff_day deadline today in
  Z.max 0 diffDays.

(** ** [src/app/page.tsx] *)

(** A transaction as the ledger returns it: the fields the page reads. *)
Record Transaction : Type := mkTransaction {
  t_date : Z;
  t_amount : Z;
  t_cleared : string;
  t_memo : option string
}.

(** [Array.prototype.sort(compareFn)]: a stable sort; [compareFn a b <= 0]
    keeps [a] in front of [b]. *)
Section ArraySort.
Context {A : Type} (compareFn : A -> A -> Z).

Fixpoint sort_insert (x : A) (l : list A) : list A :=
  match l with
  | [] => [x]
  | y :: l' => if compareFn x y <=? 0 then x :: l else y :: sort_insert x l'
  end.

Fixpoint Array_sort (l : list A) : list A :=
  match l with
  | [] => []
  | x :: l' => sort_insert x (Array_sort l')
  end.
End ArraySort.

(** [new Date('YYYY-MM-DD').getTime()]: a date-only string is read as
    midnight UTC of that date. *)
Definition Date_getTime (date : Z) : Z := date * 86400000.

(** [(a, b) => new Date(b.date).getTime() - new Date(a.date).getTime()]. *)
Definition byDateDescending (a b : Transaction) : Z :=
  Date_getTime (t_date b) - Date_getTime (t_date a).

(** [t.memo || undefined]: an empty memo is dropped as well. *)
Definition memoOrUndefined (m : option string) : option string :=
  match m with
  | Some EmptyString => None
  | other => other
  end.

(** The callback of [.map] in [loadAccountData] and [refreshTransactions]. *)
Definition toPaymentHistoryItem (t : Transaction) : PaymentHistoryItem :=
  {| date := t_date t;
     amount := milliunitsToCurrency (Z.abs (t_amount t));
     balance := milliunitsToCurrency (Z.abs (t_amount t));
     cleared := Some (t_cleared t);
     memo := memoOrUndefined (t_memo t) |}.

(** [paymentTransactions]: sort, slice, map. *)
Definition paymentTransactions (transactions : list Transaction)
    : list PaymentHistoryItem :=
  map toPaymentHistoryItem (firstn 20 (Array_sort byDateDescending transactions)).

(** The React state the two memoised calculations read. *)
Record AppState : Type := mkAppState {
  accountBalance : Q;
  presetPaymentAmount : Q;
  paymentDays : list Z;
  paymentHistory : list PaymentHistoryItem
}.

(** [setPaymentDays]: the state with another weekday schedule. *)
Definition setPaymentDays (days : list Z) (st : AppState) : AppState :=
  {| accountBalance := accountBalance st;
     presetPaymentAmount := presetPaymentAmount st;
     paymentDays := days;
     paymentHistory := paymentHistory st |}.

(** [setPresetPaymentAmount]. *)
Definition setPresetPaymentAmount (a : Q) (st : AppState) : AppState :=
  {| accountBalance := accountBalance st;
     presetPaymentAmount := a;
     paymentDays := paymentDays st;
     paymentHistory := paymentHistory st |}.

Record DebtStatus : Type := mkDebtStatus { text : string; color : string }.

Definition PagoRealizadoHoy : DebtStatus :=
  {| text := "¡Pago realizado hoy!"; color := "text-green-400" |}.
Definition PagoPendienteHoy : DebtStatus :=
  {| text := "Pago pendiente hoy"; color := "text-red-400" |}.
Definition NoEsDiaDePago : DebtStatus :=
  {| text := "No es día de pago"; color := "text-blue-400" |}.
Definition AlDia : DebtStatus :=
  {| text := "Al día"; color := "text-green-400" |}.

(** [payment.date === todayString && payment.amount >= 0]. *)
Definition isPaymentToday (todayString : Z) (payment : PaymentHistoryItem) : bool :=
  (date payment =? todayString) && Qle_bool 0 (amount payment).

(** [paymentHistory.some(...)]. *)
Definition madePaymentToday (todayString : Z)
    (paymentHistory : list PaymentHistoryItem) : bool :=
  existsb (isPaymentToday todayString) paymentHistory.

(** [debtStatus]. *)
Definition debtStatus (now : Dayjs.t) (st : AppState) : DebtStatus :=
  let today := now in
  let dayOfWeek := Dayjs.day today in
  let todayString := Dayjs.date today in
  let isPaymentDay := includes (paymentDays st) dayOfWeek in
  let madePaymentToday := madePaymentToday todayString (paymentHistory st) in
  if isPaymentDay && madePaymentToday then PagoRealizadoHoy
  else if isPaymentDay && negb madePaymentToday then PagoPendienteHoy
  else if negb isPaymentDay then NoEsDiaDePago
  else AlDia.

(** What [estimatedFinishDate] evaluates to: the string ["N/A"], the string
    ["Invalid Date"] that [toLocaleDateString] prints for a [Date] without a
    time value, or the calendar date it prints otherwise. *)
Inductive FinishDate : Type :=
| NA
| InvalidDate
| LocaleDate (day : Z).

(** [Math.ceil(accountBalance / presetPaymentAmount)]. *)
Definition paymentsLeft (st : AppState) : Z :=
  Qceiling (Double.div (accountBalance st) (presetPaymentAmount st)).

(** [ToIntegerOrInfinity] of the language specification, on a finite number:
    the fraction is dropped. *)
Definition ToIntegerOrInfinity (x : Q) : Z :=
  if Qle_bool 0 x then Qfloor x else Qceiling x.

(** [TimeClip]: a time value lies at most 8.64e15 ms from the epoch. *)
Definition TimeClip (time : Z) : option Z :=
  if Z.abs time <=? 8640000000000000 then Some time else None.

Section JsDate.
(** The calendar the JavaScript [Date] object works with is not spelled
    out; all that is used of it is the day number of the first day of the
    month a given day falls in, and the offset of local time from UTC, in
    milliseconds. *)
Variable LocalTZA : Z.
Variable monthStart : Z -> Z.

(** [Date.prototype.getDate]: the day of the month, from 1. *)
Definition getDate (d : Dayjs.t) : Z :=
  Dayjs.date d - monthStart (Dayjs.date d) + 1.

(** [Date.prototype.setDate]: the same month and time of day, the day of
    the month replaced; a value past the end of the month runs on into the
    following months.  The result is the new time value, or [None] for the
    [NaN] that [TimeClip] answers when the new time, in UTC, is out of
    range. *)
Definition setDate (d : Dayjs.t) (dayValue : Q) : option Dayjs.t :=
  let dt := ToIntegerOrInfinity dayValue in
  let newDate := (monthStart (Dayjs.date d) + dt - 1) * Dayjs.MILLISECONDS_A_DAY
                 + d mod Dayjs.MILLISECONDS_A_DAY in
  match TimeClip (newDate - LocalTZA) with
  | Some _ => Some newDate
  | None => None
  end.

(** [estimatedFinishDate].  The clock is read twice: [now] is the
    [new Date()] bound to [today], [now'] the one [setDate] is called on. *)
Definition estimatedFinishDate (now now' : Dayjs.t) (st : AppState)
    : FinishDate :=
  if Qle_bool (presetPaymentAmount st) 0 then NA
  else
    let paymentsLeft := paymentsLeft st in
    let today := now in
    let daysToFinish := Double.mul (inject_Z paymentsLeft) 15 in
    match setDate now' (Double.add (inject_Z (getDate today)) daysToFinish) with
    | Some finishDate => LocaleDate (Dayjs.date finishDate)
    | None => InvalidDate
    end.
End JsDate.

(** What is assumed of the two clock reads of [estimatedFinishDate] where
    its result is a date: the first read is a valid time on a day of the
    month from 1 to 31, the second read falls in the same month, and local
    time is less than a day from UTC. *)
Definition sameMonthReads (LocalTZA : Z) (monthStart : Z -> Z)
    (now now' : Dayjs.t) : Prop :=
  1 <= getDate monthStart now <= 31
  /\ monthStart (Dayjs.date now') = monthStart (Dayjs.date now)
  /\ Z.abs LocalTZA <= Dayjs.MILLISECONDS_A_DAY
  /\ Z.abs (now - LocalTZA) <= 8640000000000000.

(** ** Definitions that follow the specification's wording *)

(** The weekday ordinal of a calendar date, Sunday = 0. *)
Definition weekday (d : Z) : Z := (d + 4) mod 7.

(** [isScheduledDay] of section 4.2. *)
Definition isScheduledDay (d : Z) (scheduledWeekdays : list Z) : bool :=
  includes scheduledWeekdays (weekday d).

(** Every calendar date from [today] through [deadline] inclusive. *)
Definition dateRange (today deadline : Z) : list Z :=
  map (fun i => today + Z.of_nat i) (seq 0 (Z.to_nat (deadline - today + 1))).

(** [totalScheduledDays] of section 4.3, step 1. *)
Definition totalScheduledDays (today deadline : Z) (scheduledWeekdays : list Z) : Z :=
  Z.of_nat (length (filter (fun d => isScheduledDay d scheduledWeekdays)
                           (dateRange today deadline))).

(** [satisfiedDays] as section 4.3, step 2 words it: the inclusive window
    from [today - 1] to [deadline + 1]. *)
Definition satisfiedDays_spec (today deadline : Z) (scheduledWeekdays : list Z)
    (history : list PaymentHistoryItem) : Z :=
  Z.of_nat (length (filter (fun r =>
    (today - 1 <=? date r) && (date r <=? deadline + 1)
    && isScheduledDay (date r) scheduledWeekdays
    && Qle_bool 0 (amount r)) history)).

(** [satisfiedDays] with the window of the amended statements: the records
    dated from [today] to [deadline], both included. *)
Definition satisfiedDays (today deadline : Z) (scheduledWeekdays : list Z)
    (history : list PaymentHistoryItem) : Z :=
  Z.of_nat (length (filter (fun r =>
    (today <=? date r) && (date r <=? deadline)
    && isScheduledDay (date r) scheduledWeekdays
    && Qle_bool 0 (amount r)) history)).

(** [daysUntilDeadline] as section 4.3 words it: the difference of the two
    calendar dates, clamped to zero. *)
Definition daysUntilDeadline_spec (today deadline : Z) : Z :=
  Z.max 0 (deadline - today).

(** The history reconciler as section 4.6 words it: convert every record,
    sort by date descending, keep the first 20. *)
Definition newestFirst (a b : PaymentHistoryItem) : Z := date b - date a.

Definition reconcile_spec (transactions : list Transaction)
    : list PaymentHistoryItem :=
  firstn 20 (Array_sort newestFirst (map toPaymentHistoryItem transactions)).

(** The order of a list whose keys never grow from one element to a later
    one. *)
Definition descending {A : Type} (key : A -> Z) (a b : A) : Prop :=
  key b <= key a.

(** ** The rest of [src/lib/ynab.ts]: the account table and the ledger calls *)

(** The day number of a calendar date, for writing the table's ['YYYY-MM-DD']
    strings down. *)
Definition daysFromCivil (y m d : Z) : Z :=
  let y' := if m <=? 2 then y - 1 else y in
  let era := y' / 400 in
  let yoe := y' - era * 400 in
  let doy := (153 * (if 2 <? m then m - 3 else m + 9) + 2) / 5 + d - 1 in
  let doe := yoe * 365 + yoe / 4 - yoe / 100 + doy in
  era * 146097 + doe - 719468.

Module Config.

Record PaymentConstants : Type := mkPaymentConstants {
  paymentQuantity : Q;
  maxDailyPayment : Q;
  minDailyPayment : Q;
  paymentDays : list Z
}.

Record DeadlineConfig : Type := mkDeadlineConfig {
  enabled : bool;
  endDate : Z;
  showDaysRemaining : bool;
  description : string
}.

Record AccountConfig : Type := mkAccountConfig {
  accountId : string;
  name : string;
  constants : PaymentConstants;
  deadlineConfig : option DeadlineConfig;
  paymentAccounts : option (list (string * string))
}.

End Config.

(** A JavaScript object used as a table from strings: its own properties. *)
Fixpoint lookup {V : Type} (key : string) (o : list (string * V)) : option V :=
  match o with
  | [] => None
  | (k, v) :: o' => if String.eqb key k then Some v else lookup key o'
  end.

(** A string in a condition: the empty string counts as false. *)
Definition truthy (s : string) : bool := negb (String.eqb s EmptyString).

Definition paymentAccounts : list (string * string) :=
  [ ("Efectivo", "cdc79d30-f609-46fa-b375-a153e808a125");
    ("Yappy", "ef27071e-07b5-409d-86d2-5cbc39910713") ]%string.

Definition ACCOUNT_CONFIG : list (string * Config.AccountConfig) :=
  [ ("taxi"%string,
     Config.mkAccountConfig "65dd34f4-7de3-45ac-8605-78a8f27de40f" "Taxi Soluto 2020"
       (Config.mkPaymentConstants 20 30 10 [1; 2; 3; 4; 5; 6])
       (Some (Config.mkDeadlineConfig true (daysFromCivil 2030 9 30) true
                "Días de pago restantes"))
       (Some paymentAccounts));
    ("l200"%string,
     Config.mkAccountConfig "bdd91266-2ac6-42ad-992d-f90ba54a0d94" "Mitsubishi L200 2020"
       (Config.mkPaymentConstants 25 35 10 [1; 2; 3; 4; 5])
       (Some (Config.mkDeadlineConfig true (daysFromCivil 2031 9 30) true
                "Días de pago restantes"))
       (Some paymentAccounts));
    ("ian"%string,
     Config.mkAccountConfig "e9833956-52e0-4659-a790-73038c056e75" "IAN Préstamo"
       (Config.mkPaymentConstants 25 50 10 [])
       None None);
    ("papa"%string,
     Config.mkAccountConfig "082adef4-253b-4010-8f57-0cd8d6c1bc05" "Papa Préstamo"
       (Config.mkPaymentConstants 10 20 10 [1; 2; 3; 4; 5; 6])
       None
       (Some paymentAccounts)) ].

(** The keys of the table. *)
Definition knownAccountKey (accountKey : string) : Prop :=
  accountKey = "taxi"%string \/ accountKey = "l200"%string
  \/ accountKey = "ian"%string \/ accountKey = "papa"%string.

(** What holds of every entry of the table. *)
Definition wellFormedConfig (c : Config.AccountConfig) : Prop :=
  let k := Config.constants c in
  (0 < Config.paymentQuantity k)%Q
  /\ (Config.minDailyPayment k <= Config.paymentQuantity k)%Q
  /\ (Config.paymentQuantity k <= Config.maxDailyPayment k)%Q
  /\ Forall (fun d => 1 <= d <= 6) (Config.paymentDays k)
  /\ truthy (Config.accountId c) = true
  /\ (forall dc, Config.deadlineConfig c = Some dc ->
                 Config.enabled dc = true /\ Config.showDaysRemaining dc = true).

(** What [ACCOUNT_CONFIG[accountKey]] can be once [accountKey in
    ACCOUNT_CONFIG] holds: an entry of the table, or a member the object
    literal inherits from [Object.prototype]. *)
Inductive ConfigLookup : Type :=
| Null
| Own (accountConfig : Config.AccountConfig)
| Inherited (accountKey : string).

Section ObjectPrototype.
(** The property names every object literal inherits ([toString],
    [constructor], ...); the JavaScript engine fixes them. *)
Variable inherited : string -> bool.

(** [getAccountConfig]: the [in] operator also sees inherited members. *)
Definition getAccountConfig (accountKey : string) : ConfigLookup :=
  match lookup accountKey ACCOUNT_CONFIG with
  | Some accountConfig => Own accountConfig
  | None => if inherited accountKey then Inherited accountKey else Null
  end.
End ObjectPrototype.

(** The outcome of an awaited ledger call: the value it resolves to, or what
    it throws, with the [message] when the thrown value is an [Error]. *)
Inductive Response (A : Type) : Type :=
| Resolved (a : A)
| Rejected (message : option string).
Arguments Resolved {A} a.
Arguments Rejected {A} message.

Record Budget : Type := mkBudget { budget_id : string }.
Record Account : Type := mkAccount { account_balance : Z }.

(** The transaction a write sends to the ledger. *)
Record SaveTransaction : Type := mkSaveTransaction {
  account_id : string;
  payee_name : option string;
  transfer_account_id : option string;
  new_amount : Z;
  new_memo : string;
  new_cleared : string;
  new_date : Z
}.

(** A write: the budget and the transaction sent. *)
Definition Request : Type := (string * SaveTransaction)%type.

(** The answers of the ledger service to the calls made during one run of a
    handler. *)
Record Api : Type := mkApi {
  budgets_getBudgets : Response (list Budget);
  accounts_getAccountById : string -> string -> Response Account;
  transactions_getTransactionsByAccount :
    string -> string -> Response (list Transaction);
  transactions_createTransaction : string -> SaveTransaction -> Response unit
}.

(** [getBudgets], [getAccount], [getTransactions]: log and rethrow. *)
Definition getBudgets (api : Api) : Response (list Budget) :=
  budgets_getBudgets api.
Definition getAccount (api : Api) (budgetId accountId : string)
    : Response Account :=
  accounts_getAccountById api budgetId accountId.
Definition getTransactions (api : Api) (budgetId accountId : string)
    : Response (list Transaction) :=
  transactions_getTransactionsByAccount api budgetId accountId.

(** [memo || '']. *)
Definition memoOrEmpty (m : option string) : string :=
  match m with
  | Some s => s
  | None => EmptyString
  end.

(** [createTransaction]: the request it sends and the ledger's answer. *)
Definition createTransaction (api : Api) (now : Dayjs.t)
    (budgetId accountId : string) (amount : Q) (payeeName : string)
    (memo : option string) : Request * Response unit :=
  let transactionData :=
    {| account_id := accountId;
       payee_name := Some payeeName;
       transfer_account_id := None;
       new_amount := currencyToMilliunits (- Qabs amount);
       new_memo := memoOrEmpty memo;
       new_cleared := "uncleared";
       new_date := Dayjs.date now |} in
  ((budgetId, transactionData),
   transactions_createTransaction api budgetId transactionData).

(** [createTransferTransaction]. *)
Definition createTransferTransaction (api : Api) (now : Dayjs.t)
    (budgetId fromAccountId toAccountId : string) (amount : Q)
    (memo : option string) : Request * Response unit :=
  let outflowTransaction :=
    {| account_id := fromAccountId;
       payee_name := None;
       transfer_account_id := Some toAccountId;
       new_amount := currencyToMilliunits (- Qabs amount);
       new_memo := memoOrEmpty memo;
       new_cleared := "uncleared";
       new_date := Dayjs.date now |} in
  ((budgetId, outflowTransaction),
   transactions_createTransaction api budgetId outflowTransaction).

(** ** The rest of [src/app/page.tsx]: the component state and its handlers *)

(** [searchParams.get('account') || 'taxi-soluto']. *)
Definition accountKeyOf (param : option string) : string :=
  match param with
  | Some s => if truthy s then s else "taxi-soluto"%string
  | None => "taxi-soluto"%string
  end.

Definition setAccountBalance (a : Q) (st : AppState) : AppState :=
  {| accountBalance := a;
     presetPaymentAmount := presetPaymentAmount st;
     paymentDays := paymentDays st;
     paymentHistory := paymentHistory st |}.

Definition setPaymentHistory (h : list PaymentHistoryItem) (st : AppState)
    : AppState :=
  {| accountBalance := accountBalance st;
     presetPaymentAmount := presetPaymentAmount st;
     paymentDays := paymentDays st;
     paymentHistory := h |}.

Module Page.

(** The state of the component: the four values of [AppState] and the other
    [useState] cells the handlers read or write.  The account name, which is
    only displayed, is left out. *)
Record State : Type := mkState {
  core : AppState;
  maxDailyPayment : Q;
  loading : bool;
  error : option string;
  budgetId : string;
  accountId : string;
  deadlineConfig : option Config.DeadlineConfig;
  paymentDaysRemaining : Z;
  totalDaysUntilDeadline : Z;
  paymentAccounts : list (string * string);
  isPaymentModalOpen : bool;
  isBlankPaymentModalOpen : bool;
  blankPaymentReason : string
}.

Definition onCore (f : AppState -> AppState) (s : State) : State :=
  mkState (f (core s)) (maxDailyPayment s) (loading s) (error s) (budgetId s)
    (accountId s) (deadlineConfig s) (paymentDaysRemaining s)
    (totalDaysUntilDeadline s) (paymentAccounts s) (isPaymentModalOpen s)
    (isBlankPaymentModalOpen s) (blankPaymentReason s).

Definition setMaxDailyPayment (v : Q) (s : State) : State :=
  mkState (core s) v (loading s) (error s) (budgetId s)
    (accountId s) (deadlineConfig s) (paymentDaysRemaining s)
    (totalDaysUntilDeadline s) (paymentAccounts s) (isPaymentModalOpen s)
    (isBlankPaymentModalOpen s) (blankPaymentReason s).

Definition setLoading (v : bool) (s : State) : State :=
  mkState (core s) (maxDailyPayment s) v (error s) (budgetId s)
    (accountId s) (deadlineConfig s) (paymentDaysRemaining s)
    (totalDaysUntilDeadline s) (paymentAccounts s) (isPaymentModalOpen s)
    (isBlankPaymentModalOpen s) (blankPaymentReason s).

Definition setError (v : option string) (s : State) : State :=
  mkState (core s) (maxDailyPayment s) (loading s) v (budgetId s)
    (accountId s) (deadlineConfig s) (paymentDaysRemaining s)
    (totalDaysUntilDeadline s) (paymentAccounts s) (isPaymentModalOpen s)
    (isBlankPaymentModalOpen s) (blankPaymentReason s).

Definition setBudgetId (v : string) (s : State) : State :=
  mkState (core s) (maxDailyPayment s) (loading s) (error s) v
    (accountId s) (deadlineConfig s) (paymentDaysRemaining s)
    (totalDaysUntilDeadline s) (paymentAccounts s) (isPaymentModalOpen s)
    (isBlankPaymentModalOpen s) (blankPaymentReason s).

Definition setAccountId (v : string) (s : State) : State :=
  mkState (core s) (maxDailyPayment s) (loading s) (error s) (budgetId s)
    v (deadlineConfig s) (paymentDaysRemaining s)
    (totalDaysUntilDeadline s) (paymentAccounts s) (isPaymentModalOpen s)
    (isBlankPaymentModalOpen s) (blankPaymentReason s).

Definition setDeadlineConfig (v : option Config.DeadlineConfig) (s : State)
    : State :=
  mkState (core s) (maxDailyPayment s) (loading s) (error s) (budgetId s)
    (accountId s) v (paymentDaysRemaining s)
    (totalDaysUntilDeadline s) (paymentAccounts s) (isPaymentModalOpen s)
    (isBlankPaymentModalOpen s) (blankPaymentReason s).

Definition setPaymentDaysRemaining (v : Z) (s : State) : State :=
  mkState (core s) (maxDailyPayment s) (loading s) (error s) (budgetId s)
    (accountId s) (deadlineConfig s) v
    (totalDaysUntilDeadline s) (paymentAccounts s) (isPaymentModalOpen s)
    (isBlankPaymentModalOpen s) (blankPaymentReason s).

Definition setTotalDaysUntilDeadline (v : Z) (s : State) : State :=
  mkState (core s) (maxDailyPayment s) (loading s) (error s) (budgetId s)
    (accountId s) (deadlineConfig s) (paymentDaysRemaining s)
    v (paymentAccounts s) (isPaymentModalOpen s)
    (isBlankPaymentModalOpen s) (blankPaymentReason s).

Definition setPaymentAccounts (v : list (string * string)) (s : State)
    : State :=
  mkState (core s) (maxDailyPayment s) (loading s) (error s) (budgetId s)
    (accountId s) (deadlineConfig s) (paymentDaysRemaining s)
    (totalDaysUntilDeadline s) v (isPaymentModalOpen s)
    (isBlankPaymentModalOpen s) (blankPaymentReason s).

Definition setPaymentModalOpen (v : bool) (s : State) : State :=
  mkState (core s) (maxDailyPayment s) (loading s) (error s) (budgetId s)
    (accountId s) (deadlineConfig s) (paymentDaysRemaining s)
    (totalDaysUntilDeadline s) (paymentAccounts s) v
    (isBlankPaymentModalOpen s) (blankPaymentReason s).

Definition setBlankPaymentModalOpen (v : bool) (s : State) : State :=
  mkState (core s) (maxDailyPayment s) (loading s) (error s) (budgetId s)
    (accountId s) (deadlineConfig s) (paymentDaysRemaining s)
    (totalDaysUntilDeadline s) (paymentAccounts s) (isPaymentModalOpen s)
    v (blankPaymentReason s).

Definition setBlankPaymentReason (v : string) (s : State) : State :=
  mkState (core s) (maxDailyPayment s) (loading s) (error s) (budgetId s)
    (accountId s) (deadlineConfig s) (paymentDaysRemaining s)
    (totalDaysUntilDeadline s) (paymentAccounts s) (isPaymentModalOpen s)
    (isBlankPaymentModalOpen s) v.

(** The values the [useState] calls start from. *)
Definition initial : State :=
  {| core := {| accountBalance := 0; presetPaymentAmount := 150;
                paymentDays := [1; 2; 3; 4; 5]; paymentHistory := [] |};
     maxDailyPayment := 200;
     loading := true;
     error := None;
     budgetId := EmptyString;
     accountId := EmptyString;
     deadlineConfig := None;
     paymentDaysRemaining := 0;
     totalDaysUntilDeadline := 0;
     paymentAccounts := [];
     isPaymentModalOpen := false;
     isBlankPaymentModalOpen := false;
     blankPaymentReason := EmptyString |}.

End Page.

(** [!s.trim()]: nothing is left of [s] once the white space and the line
    terminators of the language are stripped, that is, [s] consists of them
    only.  A string is held as its UTF-8 bytes, so each of these characters
    is recognised by its encoding: U+0009 to U+000D and U+0020 as one byte;
    U+00A0; U+1680; U+2000 to U+200A, U+2028, U+2029, U+202F; U+205F; U+3000;
    U+FEFF. *)
Definition isSpaceByte (b : N) : bool :=
  ((9 <=? b) && (b <=? 13) || (b =? 32))%N.

Definition isSpace2 (b1 b2 : N) : bool :=
  ((b1 =? 194) && (b2 =? 160))%N.

Definition isSpace3 (b1 b2 b3 : N) : bool :=
  ((b1 =? 225) && (b2 =? 154) && (b3 =? 128)
   || (b1 =? 226) && (b2 =? 128)
      && ((128 <=? b3) && (b3 <=? 138) || (b3 =? 168) || (b3 =? 169) || (b3 =? 175))
   || (b1 =? 226) && (b2 =? 129) && (b3 =? 159)
   || (b1 =? 227) && (b2 =? 128) && (b3 =? 128)
   || (b1 =? 239) && (b2 =? 187) && (b3 =? 191))%N.

Fixpoint isBlankBytes (l : list N) : bool :=
  match l with
  | [] => true
  | b1 :: r1 =>
      if isSpaceByte b1 then isBlankBytes r1
      else
        match r1 with
        | [] => false
        | b2 :: r2 =>
            if isSpace2 b1 b2 then isBlankBytes r2
            else
              match r2 with
              | [] => false
              | b3 :: r3 => if isSpace3 b1 b2 b3 then isBlankBytes r3 else false
              end
        end
  end.

Fixpoint bytesOf (s : string) : list N :=
  match s with
  | EmptyString => []
  | String c r => N_of_ascii c :: bytesOf r
  end.

Definition isBlank (s : string) : bool := isBlankBytes (bytesOf s).

(** [getPaymentDates] and [hasPaymentOnDate], the calendar highlighting. *)
Definition getPaymentDates (paymentHistory : list PaymentHistoryItem) : list Z :=
  map date (filter (fun payment => Qle_bool 0 (amount payment)) paymentHistory).

Definition hasPaymentOnDate (paymentHistory : list PaymentHistoryItem)
    (d : Dayjs.t) : bool :=
  let dateString := Dayjs.date d in
  includes (getPaymentDates paymentHistory) dateString.

(** The two payment methods the page offers. *)
Inductive Method : Type := Yappy | Efectivo.

Definition methodName (m : Method) : string :=
  match m with
  | Yappy => "Yappy"
  | Efectivo => "Efectivo"
  end.

(** [refreshTransactions]: a failed fetch is logged and otherwise ignored. *)
Definition refreshTransactions (api : Api) (now : Dayjs.t) (st : Page.State)
    : Page.State :=
  if truthy (Page.budgetId st) && truthy (Page.accountId st) then
    match getTransactions api (Page.budgetId st) (Page.accountId st) with
    | Rejected _ => st
    | Resolved transactions =>
        let paymentTransactions := paymentTransactions transactions in
        let st' := Page.onCore (setPaymentHistory paymentTransactions) st in
        match Page.deadlineConfig st with
        | Some deadlineConfig =>
            if Config.enabled deadlineConfig then
              let daysRemaining :=
                calculatePaymentDaysRemaining now (Config.endDate deadlineConfig)
                  (paymentDays (Page.core st)) paymentTransactions in
              Page.setPaymentDaysRemaining daysRemaining st'
            else st'
        | None => st'
        end
    end
  else st.

(** [handleRegisterPayment]: the state it leaves and the writes it sent.  The
    clock is read when the transaction is built and again when the days
    remaining are recomputed after the refresh. *)
Definition handleRegisterPayment (api : Api) (nowWrite nowRefresh : Dayjs.t)
    (method : Method) (st : Page.State) : Page.State * list Request :=
  let amount := presetPaymentAmount (Page.core st) in
  let paymentAccountId := lookup (methodName method) (Page.paymentAccounts st) in
  let plain :=
    createTransaction api nowWrite (Page.budgetId st) (Page.accountId st) amount
      ("Pago " ++ methodName method)
      (Some ("Pago registrado vía " ++ methodName method)%string) in
  let sent :=
    match paymentAccountId with
    | Some id =>
        if truthy id then
          createTransferTransaction api nowWrite (Page.budgetId st) id
            (Page.accountId st) amount
            (Some ("Pago de deuda vía " ++ methodName method)%string)
        else plain
    | None => plain
    end in
  match snd sent with
  | Rejected _ => (st, [fst sent])
  | Resolved _ =>
      let newBalance := Double.sub (accountBalance (Page.core st)) amount in
      let st1 := Page.onCore (setAccountBalance newBalance) st in
      let st2 := Page.setPaymentModalOpen false st1 in
      (refreshTransactions api nowRefresh st2, [fst sent])
  end.

(** [handleRegisterBlankPayment]. *)
Definition handleRegisterBlankPayment (api : Api) (nowWrite nowRefresh : Dayjs.t)
    (st : Page.State) : Page.State * list Request :=
  if isBlank (Page.blankPaymentReason st) then (st, [])
  else
    let sent :=
      createTransaction api nowWrite (Page.budgetId st) (Page.accountId st) 0
        "No hare un pago hoy" (Some (Page.blankPaymentReason st)) in
    match snd sent with
    | Rejected _ => (st, [fst sent])
    | Resolved _ =>
        let st1 := Page.setBlankPaymentModalOpen false st in
        let st2 := Page.setBlankPaymentReason EmptyString st1 in
        (refreshTransactions api nowRefresh st2, [fst sent])
    end.

(** The [catch] of [loadAccountData]. *)
Definition loadFailed (thrown : option string) (st : Page.State) : Page.State :=
  Page.setError
    (Some (match thrown with
           | Some message => message
           | None => "Failed to load account data"%string
           end)) st.

Section LoadAccountData.
Variable inherited : string -> bool.
(** The message of the [TypeError] raised on reading [paymentQuantity] of
    the [constants] an inherited member does not have. *)
Variable typeErrorMessage : string.

(** [loadAccountData], from [setLoading(true)] to the [finally]. *)
Definition loadAccountData (api : Api) (now : Dayjs.t) (accountKey : string)
    (st0 : Page.State) : Page.State :=
  let st := Page.setError None (Page.setLoading true st0) in
  Page.setLoading false
    match getAccountConfig inherited accountKey with
    | Null =>
        loadFailed
          (Some ("Account configuration not found for: " ++ accountKey)%string) st
    | Inherited _ => loadFailed (Some typeErrorMessage) st
    | Own accountConfig =>
        let constants := Config.constants accountConfig in
        let st := Page.onCore
                    (setPresetPaymentAmount (Config.paymentQuantity constants)) st in
        let st := Page.setMaxDailyPayment (Config.maxDailyPayment constants) st in
        let st := Page.onCore (setPaymentDays (Config.paymentDays constants)) st in
        match getBudgets api with
        | Rejected thrown => loadFailed thrown st
        | Resolved [] =>
            loadFailed (Some "No budgets found in YNAB account"%string) st
        | Resolved (budget :: _) =>
            let st := Page.setBudgetId (budget_id budget) st in
            let st := Page.setAccountId (Config.accountId accountConfig) st in
            match getAccount api (budget_id budget)
                    (Config.accountId accountConfig) with
            | Rejected thrown => loadFailed thrown st
            | Resolved account =>
                let totalDebt :=
                  milliunitsToCurrency (Z.abs (account_balance account)) in
                let st := Page.onCore (setAccountBalance totalDebt) st in
                match getTransactions api (budget_id budget)
                        (Config.accountId accountConfig) with
                | Rejected thrown => loadFailed thrown st
                | Resolved transactions =>
                    let paymentTransactions := paymentTransactions transactions in
                    let st := Page.onCore (setPaymentHistory paymentTransactions) st in
                    let st :=
                      match Config.deadlineConfig accountConfig with
                      | Some deadlineConfig =>
                          let st := Page.setDeadlineConfig (Some deadlineConfig) st in
                          let daysRemaining :=
                            calculatePaymentDaysRemaining now
                              (Config.endDate deadlineConfig)
                              (Config.paymentDays constants) paymentTransactions in
                          let st := Page.setPaymentDaysRemaining daysRemaining st in
                          let totalDays :=
                            getDaysUntilDeadline now (Config.endDate deadlineConfig) in
                          Page.setTotalDaysUntilDeadline totalDays st
                      | None => st
                      end in
                    match Config.paymentAccounts accountConfig with
                    | Some accounts => Page.setPaymentAccounts accounts st
                    | None => st
                    end
                end
            end
        end
    end.
End LoadAccountData.

(** The four steps of a load have all succeeded. *)
Definition loadSucceeds (inherited : string -> bool) (api : Api)
    (accountKey : string) (c : Config.AccountConfig) (b : Budget)
    (a : Account) (transactions : list Transaction) : Prop :=
  getAccountConfig inherited accountKey = Own c
  /\ (exists others, getBudgets api = Resolved (b :: others))
  /\ getAccount api (budget_id b) (Config.accountId c) = Resolved a
  /\ getTransactions api (budget_id b) (Config.accountId c) = Resolved transactions.

(** The number of weekday ordinals, Sunday to Saturday, a schedule holds. *)
Definition scheduledPerWeek (paymentDays : list Z) : Z :=
  Z.of_nat (length (filter (includes paymentDays) [0; 1; 2; 3; 4; 5; 6])).

(** The number of transactions dated [d] or later. *)
Definition datedOnOrAfter (d : Z) (transactions : list Transaction) : nat :=
  length (filter (fun t => d <=? t_date t) transactions).

(** ** Sample values *)

Definition payment (d : Z) (a : Q) : PaymentHistoryItem :=
  {| date := d; amount := a; balance := a; cleared := Some "cleared"%string;
     memo := None |}.

Definition noon : Z := 43200000.

Definition MonToFri : list Z := [1; 2; 3; 4; 5].
Definition MonToSat : list Z := [1; 2; 3; 4; 5; 6].

Definition mondayNoon : Dayjs.t := Dayjs.parse 4 + noon.
Definition saturdayNoon : Dayjs.t := Dayjs.parse 9 + noon.

Definition stateWith (days : list Z) (history : list PaymentHistoryItem)
    : AppState :=
  {| accountBalance := 300; presetPaymentAmount := 20;
     paymentDays := days; paymentHistory := history |}.

Definition threeTransactions : list Transaction :=
  [ mkTransaction 3 (-20000) "cleared" None;
    mkTransaction 5 0 "uncleared" (Some "sin efectivo"%string);
    mkTransaction 4 (-25500) "cleared" (Some EmptyString) ].

(** Every date of January 1970 is in the month that starts on day 0. *)
Definition january1970 (d : Z) : Z := 0.

(** The members an object literal inherits in current engines. *)
Definition objectPrototypeNames : list string :=
  [ "constructor"; "hasOwnProperty"; "isPrototypeOf"; "propertyIsEnumerable";
    "toLocaleString"; "toString"; "valueOf"; "__proto__";
    "__defineGetter__"; "__defineSetter__"; "__lookupGetter__";
    "__lookupSetter__" ]%string.

Definition inheritedName (s : string) : bool :=
  existsb (String.eqb s) objectPrototypeNames.

Definition sampleTypeError : string :=
  "Cannot read properties of undefined (reading 'paymentQuantity')".

(** A ledger that answers every call: one budget, a debt of 300.00, the given
    transactions. *)
Definition ledger (transactions : list Transaction) : Api :=
  {| budgets_getBudgets := Resolved [mkBudget "budget-1"];
     accounts_getAccountById := fun _ _ => Resolved (mkAccount (-300000));
     transactions_getTransactionsByAccount := fun _ _ => Resolved transactions;
     transactions_createTransaction := fun _ _ => Resolved tt |}.

(** A ledger that cannot be reached. *)
Definition offline : Api :=
  {| budgets_getBudgets := Rejected None;
     accounts_getAccountById := fun _ _ => Rejected None;
     transactions_getTransactionsByAccount := fun _ _ => Rejected None;
     transactions_createTransaction := fun _ _ => Rejected None |}.

(** The page once the 'taxi' account is loaded from [ledger]. *)
Definition taxiLoaded (transactions : list Transaction) : Page.State :=
  loadAccountData inheritedName sampleTypeError (ledger transactions)
    mondayNoon "taxi" Page.initial.

(** The number a decimal literal of the source, or of the ledger's answer,
    denotes: the binary64 value nearest to it. *)
Definition decimal (n : Z) (d : positive) : Q := Double.round (n # d).

(** A state with the given balance and payment amount. *)
Definition owing (balance payment : Q) : AppState :=
  {| accountBalance := balance; presetPaymentAmount := payment;
     paymentDays := MonToFri; paymentHistory := [] |}.

(** Local time in Panama: five hours behind UTC. *)
Definition panama : Z := -18000000.

(** January and February 1970: the month of a day number below 59. *)
Definition winter1970 (d : Z) : Z := if d <? 31 then 0 else 31.

Example countPaymentDays_week :
  countPaymentDays (Dayjs.parse 10) [1; 2; 3; 4; 5] (Dayjs.parse 4 + 1000) 0 = 5.
Proof. reflexivity. Qed.

(** ** Rounding to binary64

    [Double.round] yields a binary64 value ([round_representable]) and none
    is nearer to the number rounded ([round_nearest]).  What is used of it
    further on: it gives the same result on equal rationals ([round_comp]),
    it errs by at most half a unit in the last place ([round_error]), which
    in the normal range is a relative 2^-53 ([round_relative]), it commutes
    with negation ([round_opp]), it leaves the integers below 2^53 as they
    are ([round_Z]), and it is monotone ([round_le]). *)

Lemma pow2_pos (e : Z) : (0 < 2 ^ e)%Q.
Proof. apply Qpower_0_lt. reflexivity. Qed.

Lemma pow2_plus (a b : Z) : (2 ^ (a + b) == 2 ^ a * 2 ^ b)%Q.
Proof. apply Qpower_plus. discriminate. Qed.

Lemma pow2_succ (a : Z) : (2 ^ (a + 1) == 2 * 2 ^ a)%Q.
Proof. rewrite pow2_plus. change (2 ^ 1)%Q with 2%Q. ring. Qed.

Lemma pow2_le (a b : Z) : a <= b -> (2 ^ a <= 2 ^ b)%Q.
Proof. intros H. apply Qpower_le_compat_l; [exact H | discriminate]. Qed.

Lemma pow2_lt (a b : Z) : a < b -> (2 ^ a < 2 ^ b)%Q.
Proof. intros H. apply Qpower_lt_compat_l; [exact H | reflexivity]. Qed.

Lemma pow2_lt_inv (a b : Z) : (2 ^ a < 2 ^ b)%Q -> a < b.
Proof. intros H. apply (Qpower_lt_compat_l_inv 2); [exact H | reflexivity]. Qed.

Lemma pow2_inject (n : Z) : 0 <= n -> (inject_Z (2 ^ n) == 2 ^ n)%Q.
Proof. intros H. now rewrite Zpower_Qpower. Qed.

Lemma log2_bounds_Q (n : Z) :
  0 < n ->
  (2 ^ Z.log2 n <= inject_Z n)%Q /\ (inject_Z n < 2 * 2 ^ Z.log2 n)%Q.
Proof.
  intros Hn. destruct (Z.log2_spec n Hn) as [Hlo Hhi].
  pose proof (Z.log2_nonneg n) as H0.
  split.
  - rewrite <- pow2_inject by assumption. now rewrite <- Zle_Qle.
  - rewrite <- pow2_succ. rewrite <- pow2_inject by lia.
    rewrite <- Zlt_Qlt. now rewrite Z.add_1_r.
Qed.

Lemma ilog2_bounds (a : Q) :
  (0 < a)%Q -> (2 ^ Double.ilog2 a <= a)%Q /\ (a < 2 ^ (Double.ilog2 a + 1))%Q.
Proof.
  intros Ha. unfold Double.ilog2. cbv zeta.
  destruct a as [n d]. cbn [Qnum Qden].
  assert (Hn : 0 < n) by (unfold Qlt in Ha; cbn in Ha; lia).
  destruct (log2_bounds_Q n Hn) as [Hn1 Hn2].
  destruct (log2_bounds_Q (Zpos d) eq_refl) as [Hd1 Hd2].
  set (ln := Z.log2 n) in *. set (ld := Z.log2 (Zpos d)) in *.
  assert (Ha' : (n # d == inject_Z n / inject_Z (Zpos d))%Q) by apply Qmake_Qdiv.
  assert (HD : (0 < inject_Z (Zpos d))%Q) by reflexivity.
  pose proof (pow2_pos ln) as Hpn. pose proof (pow2_pos ld) as Hpd.
  pose proof (pow2_pos (ln - ld)) as HpL.
  assert (HL : (2 ^ ln == 2 ^ (ln - ld) * 2 ^ ld)%Q).
  { rewrite <- pow2_plus. now replace (ln - ld + ld) with ln by lia. }
  assert (Hlow : (2 ^ (ln - ld - 1) <= n # d)%Q).
  { rewrite Ha'. apply Qle_shift_div_l; [exact HD |].
    assert (H1 : (2 ^ (ln - ld) == 2 * 2 ^ (ln - ld - 1))%Q).
    { rewrite <- pow2_succ. now replace (ln - ld - 1 + 1) with (ln - ld) by lia. }
    pose proof (pow2_pos (ln - ld - 1)). nra. }
  assert (Hup : (n # d < 2 ^ (ln - ld + 1))%Q).
  { rewrite Ha'. apply Qlt_shift_div_r; [exact HD |].
    rewrite pow2_succ. nra. }
  destruct (Qle_bool (2 ^ (ln - ld)) (n # d)) eqn:E.
  - apply Qle_bool_iff in E. split; assumption.
  - split; [exact Hlow |].
    replace (ln - ld - 1 + 1) with (ln - ld) by lia.
    apply Qnot_le_lt. intros H. apply Qle_bool_iff in H. congruence.
Qed.

Lemma ilog2_unique (a : Q) (E : Z) :
  (2 ^ E <= a)%Q -> (a < 2 ^ (E + 1))%Q -> Double.ilog2 a = E.
Proof.
  intros Hlo Hhi.
  assert (Ha : (0 < a)%Q) by (pose proof (pow2_pos E); lra).
  destruct (ilog2_bounds a Ha) as [H1 H2].
  assert (E < Double.ilog2 a + 1) by (apply pow2_lt_inv; lra).
  assert (Double.ilog2 a < E + 1) by (apply pow2_lt_inv; lra).
  lia.
Qed.

Lemma ilog2_comp (a b : Q) : (0 < a)%Q -> (a == b)%Q -> Double.ilog2 a = Double.ilog2 b.
Proof.
  intros Ha Hab. symmetry. apply ilog2_unique.
  - rewrite <- Hab. now apply ilog2_bounds.
  - rewrite <- Hab. now apply ilog2_bounds.
Qed.

Lemma ilog2_le (a b : Q) : (0 < a)%Q -> (a <= b)%Q -> Double.ilog2 a <= Double.ilog2 b.
Proof.
  intros Ha Hab.
  assert (Hb : (0 < b)%Q) by lra.
  destruct (ilog2_bounds a Ha) as [H1 _]. destruct (ilog2_bounds b Hb) as [_ H2].
  assert (Double.ilog2 a < Double.ilog2 b + 1) by (apply pow2_lt_inv; lra).
  lia.
Qed.


Lemma floor_bounds (q : Q) :
  (inject_Z (Qfloor q) <= q)%Q /\ (q < inject_Z (Qfloor q) + 1)%Q.
Proof.
  split; [apply Qfloor_le |].
  pose proof (Qlt_floor q) as H. rewrite inject_Z_plus in H.
  change (inject_Z 1) with 1%Q in H. exact H.
Qed.

Lemma roundHalfEven_bounds (q : Q) :
  (q - (1 # 2) <= inject_Z (Double.roundHalfEven q))%Q
  /\ (inject_Z (Double.roundHalfEven q) <= q + (1 # 2))%Q.
Proof.
  unfold Double.roundHalfEven. cbv zeta.
  destruct (floor_bounds q) as [Hlo Hhi].
  destruct (Qcompare_spec (q - inject_Z (Qfloor q)) (1 # 2)) as [E | E | E].
  - destruct (Z.even (Qfloor q)); rewrite ?inject_Z_plus;
      change (inject_Z 1) with 1%Q; split; lra.
  - split; lra.
  - rewrite inject_Z_plus. change (inject_Z 1) with 1%Q. split; lra.
Qed.

Lemma roundHalfEven_comp (q q' : Q) :
  (q == q')%Q -> Double.roundHalfEven q = Double.roundHalfEven q'.
Proof.
  intros H. unfold Double.roundHalfEven. cbv zeta.
  rewrite (Qfloor_comp _ _ H).
  assert (Hc : (q - inject_Z (Qfloor q') ?= 1 # 2)%Q
               = (q' - inject_Z (Qfloor q') ?= 1 # 2)%Q).
  { apply Qcompare_comp; [now rewrite H | reflexivity]. }
  now rewrite Hc.
Qed.

Lemma Qfloor_eq (x : Q) (z : Z) :
  (inject_Z z <= x)%Q -> (x < inject_Z z + 1)%Q -> Qfloor x = z.
Proof.
  intros Hle Hlt. destruct (floor_bounds x) as [Hf1 Hf2].
  assert (H1 : (inject_Z z < inject_Z (Qfloor x + 1))%Q)
    by (rewrite inject_Z_plus; change (inject_Z 1) with 1%Q; lra).
  assert (H2 : (inject_Z (Qfloor x) < inject_Z (z + 1))%Q)
    by (rewrite inject_Z_plus; change (inject_Z 1) with 1%Q; lra).
  rewrite <- Zlt_Qlt in H1, H2. lia.
Qed.

Lemma roundHalfEven_Z (q : Q) (z : Z) :
  (q == inject_Z z)%Q -> Double.roundHalfEven q = z.
Proof.
  intros H. rewrite (roundHalfEven_comp _ _ H).
  unfold Double.roundHalfEven. cbv zeta. rewrite Qfloor_Z.
  destruct (Qcompare_spec (inject_Z z - inject_Z z) (1 # 2)) as [E | E | E];
    [lra | reflexivity | lra].
Qed.

Lemma roundHalfEven_le (q q' : Q) :
  (q <= q')%Q -> Double.roundHalfEven q <= Double.roundHalfEven q'.
Proof.
  intros H. pose proof (Qfloor_resp_le _ _ H) as Hf.
  unfold Double.roundHalfEven. cbv zeta.
  destruct (floor_bounds q) as [Hlo Hhi]. destruct (floor_bounds q') as [Hlo' Hhi'].
  destruct (Z.eq_dec (Qfloor q) (Qfloor q')) as [E | E].
  - rewrite <- E in *.
    destruct (Qcompare_spec (q - inject_Z (Qfloor q)) (1 # 2)) as [C | C | C];
      destruct (Qcompare_spec (q' - inject_Z (Qfloor q)) (1 # 2)) as [C' | C' | C'];
      destruct (Z.even (Qfloor q)); try lia; lra.
  - assert (Qfloor q + 1 <= Qfloor q') by lia.
    destruct (Qcompare_spec (q - inject_Z (Qfloor q)) (1 # 2)) as [C | C | C];
      destruct (Qcompare_spec (q' - inject_Z (Qfloor q')) (1 # 2)) as [C' | C' | C'];
      destruct (Z.even (Qfloor q)); destruct (Z.even (Qfloor q')); lia.
Qed.

Lemma roundHalfEven_nonneg (q : Q) : (0 <= q)%Q -> 0 <= Double.roundHalfEven q.
Proof.
  intros H. change 0 with (Double.roundHalfEven 0) at 1.
  now apply roundHalfEven_le.
Qed.


Lemma Qeq_bool_false (x y : Q) : Qeq_bool x y = false <-> ~ (x == y)%Q.
Proof.
  split.
  - intros H E. apply Qeq_bool_iff in E. congruence.
  - intros H. destruct (Qeq_bool x y) eqn:E; [| reflexivity].
    apply Qeq_bool_iff in E. contradiction.
Qed.

Lemma round_0 (x : Q) : (x == 0)%Q -> Double.round x = 0%Q.
Proof.
  intros H. unfold Double.round. apply Qeq_bool_iff in H. now rewrite H.
Qed.

Lemma round_eq (x : Q) :
  ~ (x == 0)%Q ->
  (Double.round x
   == Double.sign x * inject_Z (Double.roundHalfEven (Qabs x / 2 ^ Double.exponent x))
      * 2 ^ Double.exponent x)%Q.
Proof.
  intros H. unfold Double.round, Double.sign. apply Qeq_bool_false in H. rewrite H.
  cbv zeta. apply Qred_correct.
Qed.

Lemma Qabs_pos_lt (x : Q) : ~ (x == 0)%Q -> (0 < Qabs x)%Q.
Proof.
  intros H. pose proof (Qabs_nonneg x) as H0.
  destruct (Qlt_le_dec 0 (Qabs x)) as [L | L]; [exact L |].
  exfalso. apply H. assert (E : (Qabs x == 0)%Q) by lra.
  revert E. apply Qabs_case; intros; lra.
Qed.

Lemma sign_abs (x : Q) : (Double.sign x * Qabs x == x)%Q.
Proof.
  unfold Double.sign. destruct (Qle_bool 0 x) eqn:E.
  - apply Qle_bool_iff in E. rewrite Qabs_pos by assumption. ring.
  - assert (H : (x < 0)%Q).
    { apply Qnot_le_lt. intros H. apply Qle_bool_iff in H. congruence. }
    rewrite Qabs_neg by lra. ring.
Qed.

Lemma exponent_comp (x y : Q) :
  ~ (x == 0)%Q -> (x == y)%Q -> Double.exponent x = Double.exponent y.
Proof.
  intros Hx H. unfold Double.exponent.
  rewrite (ilog2_comp (Qabs x) (Qabs y)); [reflexivity | now apply Qabs_pos_lt |].
  now rewrite H.
Qed.

Lemma Qle_bool_comp (a x y : Q) : (x == y)%Q -> Qle_bool a x = Qle_bool a y.
Proof.
  intros H. apply eq_true_iff_eq. rewrite !Qle_bool_iff. now rewrite H.
Qed.

Lemma round_comp (x y : Q) : (x == y)%Q -> Double.round x = Double.round y.
Proof.
  intros H. unfold Double.round.
  destruct (Qeq_bool x 0) eqn:Ex.
  - apply Qeq_bool_iff in Ex. rewrite H in Ex. apply Qeq_bool_iff in Ex.
    now rewrite Ex.
  - assert (Hx : ~ (x == 0)%Q) by now apply Qeq_bool_false.
    assert (Ey : Qeq_bool y 0 = false)
      by (apply Qeq_bool_false; now rewrite <- H).
    rewrite Ey. cbv zeta. apply Qred_complete. unfold Double.sign.
    rewrite (exponent_comp x y Hx H), (Qle_bool_comp 0 x y H).
    rewrite (roundHalfEven_comp (Qabs x / 2 ^ Double.exponent y)
               (Qabs y / 2 ^ Double.exponent y)) by now rewrite H.
    reflexivity.
Qed.

#[global] Instance round_Proper : Proper (Qeq ==> Qeq) Double.round.
Proof. intros x y H. now rewrite (round_comp x y H). Qed.

(** The error of one rounding is at most half a unit in the last place. *)
Lemma round_error (x : Q) :
  ~ (x == 0)%Q ->
  (x - (1 # 2) * 2 ^ Double.exponent x <= Double.round x)%Q
  /\ (Double.round x <= x + (1 # 2) * 2 ^ Double.exponent x)%Q.
Proof.
  intros Hx. rewrite (round_eq x Hx).
  set (e := Double.exponent x).
  pose proof (pow2_pos e) as Hp.
  destruct (roundHalfEven_bounds (Qabs x / 2 ^ e)) as [Hlo Hhi].
  set (m := inject_Z (Double.roundHalfEven (Qabs x / 2 ^ e))) in *.
  assert (Hq : (Qabs x / 2 ^ e * 2 ^ e == Qabs x)%Q) by (field; lra).
  assert (H1 : ((Qabs x / 2 ^ e - (1 # 2)) * 2 ^ e <= m * 2 ^ e)%Q)
    by (apply Qmult_le_compat_r; lra).
  assert (H2 : (m * 2 ^ e <= (Qabs x / 2 ^ e + (1 # 2)) * 2 ^ e)%Q)
    by (apply Qmult_le_compat_r; lra).
  pose proof (sign_abs x) as Hs. unfold Double.sign in *.
  set (A := (Qabs x / 2 ^ e)%Q) in *. set (P := (2 ^ e)%Q) in *.
  set (mP := (m * P)%Q) in *.
  assert (H1' : (Qabs x - (1 # 2) * P <= mP)%Q).
  { rewrite <- Hq.
    setoid_replace (A * P - (1 # 2) * P)%Q with ((A - (1 # 2)) * P)%Q by ring.
    exact H1. }
  assert (H2' : (mP <= Qabs x + (1 # 2) * P)%Q).
  { rewrite <- Hq.
    setoid_replace (A * P + (1 # 2) * P)%Q with ((A + (1 # 2)) * P)%Q by ring.
    exact H2. }
  destruct (Qle_bool 0 x).
  - setoid_replace (1 * m * P)%Q with mP by (unfold mP; ring).
    clear H1 H2 Hq Hlo Hhi. clearbody mP P. split; lra.
  - setoid_replace (-1 * m * P)%Q with (- mP)%Q by (unfold mP; ring).
    clear H1 H2 Hq Hlo Hhi. clearbody mP P. split; lra.
Qed.

Lemma round_nonneg (x : Q) : (0 <= x)%Q -> (0 <= Double.round x)%Q.
Proof.
  intros H. destruct (Qeq_dec x 0) as [E | E].
  - rewrite (round_0 x E). lra.
  - rewrite (round_eq x E). unfold Double.sign.
    assert (Hb : Qle_bool 0 x = true) by now apply Qle_bool_iff.
    rewrite Hb. pose proof (pow2_pos (Double.exponent x)) as Hp.
    assert (Hm : 0 <= Double.roundHalfEven (Qabs x / 2 ^ Double.exponent x)).
    { apply roundHalfEven_nonneg. apply Qle_shift_div_l; [exact Hp |].
      pose proof (Qabs_nonneg x). lra. }
    rewrite Zle_Qle in Hm.
    apply Qmult_le_0_compat; [| lra].
    apply Qmult_le_0_compat; [lra | exact Hm].
Qed.

Lemma round_opp (x : Q) : (Double.round (- x) == - Double.round x)%Q.
Proof.
  destruct (Qeq_dec x 0) as [E | E].
  - rewrite (round_0 x E), (round_0 (- x)) by lra. reflexivity.
  - assert (E' : ~ (- x == 0)%Q) by (intros H; apply E; lra).
    rewrite (round_eq x E), (round_eq (- x) E').
    assert (He : Double.exponent (- x) = Double.exponent x).
    { unfold Double.exponent.
      rewrite (ilog2_comp (Qabs (- x)) (Qabs x));
        [reflexivity | now apply Qabs_pos_lt | apply Qabs_opp]. }
    rewrite He.
    rewrite (roundHalfEven_comp (Qabs (- x) / 2 ^ Double.exponent x)
               (Qabs x / 2 ^ Double.exponent x))
      by (now rewrite Qabs_opp).
    assert (Hs : (Double.sign (- x) == - Double.sign x)%Q).
    { unfold Double.sign.
      destruct (Qle_bool 0 x) eqn:A; destruct (Qle_bool 0 (- x)) eqn:B;
        try reflexivity.
      - apply Qle_bool_iff in A, B. exfalso. apply E. lra.
      - exfalso.
        assert (H1 : (x < 0)%Q)
          by (apply Qnot_le_lt; intros C; apply Qle_bool_iff in C; congruence).
        assert (H2 : (- x < 0)%Q)
          by (apply Qnot_le_lt; intros C; apply Qle_bool_iff in C; congruence).
        lra. }
    rewrite Hs. ring.
Qed.

Lemma round_nonpos (x : Q) : (x <= 0)%Q -> (Double.round x <= 0)%Q.
Proof.
  intros H. assert (H' : (0 <= - x)%Q) by lra.
  apply round_nonneg in H'. rewrite round_opp in H'. lra.
Qed.

(** One rounding of a value in the normal range changes it by a factor
    within 1 - 2^-53 and 1 + 2^-53. *)
Lemma exponent_normal (x : Q) :
  (2 ^ (-1022) <= Qabs x)%Q ->
  Double.exponent x = Double.ilog2 (Qabs x) - 52
  /\ (2 ^ Double.exponent x <= 2 * Double.unitRoundoff * Qabs x)%Q.
Proof.
  intros H.
  assert (Ha : (0 < Qabs x)%Q) by (pose proof (pow2_pos (-1022)); lra).
  destruct (ilog2_bounds (Qabs x) Ha) as [Hlo Hhi].
  assert (HE : -1022 <= Double.ilog2 (Qabs x)).
  { assert (-1022 < Double.ilog2 (Qabs x) + 1) by (apply pow2_lt_inv; lra). lia. }
  assert (He : Double.exponent x = Double.ilog2 (Qabs x) - 52)
    by (unfold Double.exponent; lia).
  split; [exact He |]. rewrite He.
  replace (Double.ilog2 (Qabs x) - 52) with (Double.ilog2 (Qabs x) + (-52)) by lia.
  rewrite pow2_plus.
  assert (H52 : (2 ^ (-52) == 2 * Double.unitRoundoff)%Q) by reflexivity.
  rewrite H52. set (P := (2 ^ Double.ilog2 (Qabs x))%Q) in *.
  clearbody P. nra.
Qed.

Lemma round_relative (x : Q) :
  (2 ^ (-1022) <= Qabs x)%Q ->
  (x - Double.unitRoundoff * Qabs x <= Double.round x)%Q
  /\ (Double.round x <= x + Double.unitRoundoff * Qabs x)%Q.
Proof.
  intros H.
  assert (Hx : ~ (x == 0)%Q).
  { intros E. rewrite E in H. pose proof (pow2_pos (-1022)).
    change (Qabs 0) with 0%Q in H. lra. }
  destruct (exponent_normal x H) as [_ He].
  destruct (round_error x Hx) as [Hlo Hhi].
  set (P := (2 ^ Double.exponent x)%Q) in *. clearbody P.
  set (A := Qabs x) in *. clearbody A.
  unfold Double.unitRoundoff in *. split; lra.
Qed.

Lemma round_relative_pos (x : Q) :
  (2 ^ (-1022) <= x)%Q ->
  (x * (1 - Double.unitRoundoff) <= Double.round x)%Q
  /\ (Double.round x <= x * (1 + Double.unitRoundoff))%Q.
Proof.
  intros H.
  assert (Hx : (0 <= x)%Q) by (pose proof (pow2_pos (-1022)); lra).
  assert (Ha : (Qabs x == x)%Q) by now apply Qabs_pos.
  destruct (round_relative x) as [Hlo Hhi]; [now rewrite Ha |].
  rewrite Ha in Hlo, Hhi. unfold Double.unitRoundoff in *. split; lra.
Qed.

Lemma round_exact (x : Q) (w : Z) :
  ~ (x == 0)%Q ->
  (Qabs x / 2 ^ Double.exponent x == inject_Z w)%Q ->
  (Double.round x == x)%Q.
Proof.
  intros Hx Hw. rewrite (round_eq x Hx).
  rewrite (roundHalfEven_Z _ w Hw).
  pose proof (pow2_pos (Double.exponent x)) as Hp.
  assert (Hm : (inject_Z w * 2 ^ Double.exponent x == Qabs x)%Q)
    by (rewrite <- Hw; field; lra).
  rewrite <- Qmult_assoc, Hm. apply sign_abs.
Qed.

(** An integer below 2^53 in magnitude is a double. *)
Lemma round_Z (z : Z) :
  Z.abs z < 2 ^ 53 -> (Double.round (inject_Z z) == inject_Z z)%Q.
Proof.
  intros Hz. destruct (Z.eq_dec z 0) as [-> | Hnz]; [reflexivity |].
  assert (Hx : ~ (inject_Z z == 0)%Q).
  { intros E. apply Hnz. unfold Qeq in E. cbn in E. lia. }
  assert (Habs : (Qabs (inject_Z z) == inject_Z (Z.abs z))%Q) by reflexivity.
  assert (Ha : (0 < Qabs (inject_Z z))%Q) by now apply Qabs_pos_lt.
  destruct (ilog2_bounds _ Ha) as [Hlo Hhi].
  set (E := Double.ilog2 (Qabs (inject_Z z))) in *.
  assert (HE1 : E < 53).
  { apply pow2_lt_inv. rewrite <- (pow2_inject 53) by lia.
    apply Qle_lt_trans with (1 := Hlo). rewrite Habs. now rewrite <- Zlt_Qlt. }
  assert (HE0 : 0 <= E).
  { assert (0 < E + 1); [| lia]. apply pow2_lt_inv.
    apply Qle_lt_trans with (2 := Hhi). rewrite Habs.
    change (2 ^ 0)%Q with (inject_Z 1). rewrite <- Zle_Qle. lia. }
  assert (He : Double.exponent (inject_Z z) = E - 52)
    by (unfold Double.exponent; fold E; lia).
  apply (round_exact _ (Z.abs z * 2 ^ (52 - E))); [exact Hx |].
  rewrite He, Habs, inject_Z_mult, pow2_inject by lia.
  replace (E - 52) with (- (52 - E)) by lia.
  rewrite Qpower_opp. pose proof (pow2_pos (52 - E)). field. lra.
Qed.

Lemma round_pos_eq (x : Q) :
  (0 < x)%Q ->
  (Double.round x
   == inject_Z (Double.roundHalfEven (x / 2 ^ Double.exponent x))
      * 2 ^ Double.exponent x)%Q.
Proof.
  intros H. assert (Hx : ~ (x == 0)%Q) by lra.
  rewrite (round_eq x Hx). unfold Double.sign.
  assert (Hb : Qle_bool 0 x = true) by (apply Qle_bool_iff; lra).
  rewrite Hb.
  rewrite (roundHalfEven_comp (Qabs x / 2 ^ Double.exponent x)
             (x / 2 ^ Double.exponent x))
    by (rewrite Qabs_pos by lra; reflexivity).
  ring.
Qed.

Lemma roundHalfEven_le_pow (q : Q) (k : Z) :
  0 <= k -> (q <= 2 ^ k)%Q -> (inject_Z (Double.roundHalfEven q) <= 2 ^ k)%Q.
Proof.
  intros Hk Hq. rewrite <- pow2_inject in * by assumption.
  rewrite <- Zle_Qle. rewrite <- (roundHalfEven_Z (inject_Z (2 ^ k)) (2 ^ k))
    by reflexivity.
  now apply roundHalfEven_le.
Qed.

Lemma roundHalfEven_ge_pow (q : Q) (k : Z) :
  0 <= k -> (2 ^ k <= q)%Q -> (2 ^ k <= inject_Z (Double.roundHalfEven q))%Q.
Proof.
  intros Hk Hq. rewrite <- pow2_inject in * by assumption.
  rewrite <- Zle_Qle. rewrite <- (roundHalfEven_Z (inject_Z (2 ^ k)) (2 ^ k))
    at 1 by reflexivity.
  now apply roundHalfEven_le.
Qed.

Lemma round_le_pos (x y : Q) :
  (0 < x)%Q -> (x <= y)%Q -> (Double.round x <= Double.round y)%Q.
Proof.
  intros Hx Hxy. assert (Hy : (0 < y)%Q) by lra.
  rewrite (round_pos_eq x Hx), (round_pos_eq y Hy).
  assert (Hax : (Qabs x == x)%Q) by (apply Qabs_pos; lra).
  assert (Hay : (Qabs y == y)%Q) by (apply Qabs_pos; lra).
  assert (HEx : Double.ilog2 (Qabs x) = Double.ilog2 x)
    by (apply ilog2_comp; [rewrite Hax; exact Hx | exact Hax]).
  assert (HEy : Double.ilog2 (Qabs y) = Double.ilog2 y)
    by (apply ilog2_comp; [rewrite Hay; exact Hy | exact Hay]).
  pose proof (ilog2_le x y Hx Hxy) as HE.
  destruct (ilog2_bounds x Hx) as [Hxlo Hxhi].
  destruct (ilog2_bounds y Hy) as [Hylo Hyhi].
  unfold Double.exponent. rewrite HEx, HEy.
  set (Ex := Double.ilog2 x) in *. set (Ey := Double.ilog2 y) in *.
  set (ex := Z.max (Ex - 52) (-1074)). set (ey := Z.max (Ey - 52) (-1074)).
  pose proof (pow2_pos ex) as Hpx. pose proof (pow2_pos ey) as Hpy.
  destruct (Z.eq_dec ex ey) as [Heq | Hne].
  - rewrite <- Heq. apply Qmult_le_compat_r; [| lra].
    rewrite <- Zle_Qle. apply roundHalfEven_le.
    apply Qmult_le_compat_r; [exact Hxy |].
    apply Qlt_le_weak, Qinv_lt_0_compat, Hpx.
  - assert (Hlt : ex < ey) by lia.
    assert (Hey : ey = Ey - 52) by lia.
    assert (HExy : Ex + 1 <= Ey) by lia.
    (* round y is at least 2^Ey *)
    assert (Hry : (2 ^ Ey <= inject_Z (Double.roundHalfEven (y / 2 ^ ey)) * 2 ^ ey)%Q).
    { assert (H52 : (2 ^ 52 <= y / 2 ^ ey)%Q).
      { apply Qle_shift_div_l; [exact Hpy |].
        rewrite <- pow2_plus. now replace (52 + ey) with Ey by lia. }
      apply (roundHalfEven_ge_pow _ 52) in H52; [| lia].
      replace Ey with (52 + ey) at 1 by lia. rewrite pow2_plus.
      apply Qmult_le_compat_r; [exact H52 | lra]. }
    (* round x is at most 2^Ey *)
    assert (Hrx : (inject_Z (Double.roundHalfEven (x / 2 ^ ex)) * 2 ^ ex <= 2 ^ Ey)%Q).
    { destruct (Z_le_gt_dec 0 (Ex + 1 - ex)) as [HK | HK].
      - assert (Hq : (x / 2 ^ ex <= 2 ^ (Ex + 1 - ex))%Q).
        { apply Qle_shift_div_r; [exact Hpx |].
          rewrite <- pow2_plus. replace (Ex + 1 - ex + ex) with (Ex + 1) by lia.
          lra. }
        apply (roundHalfEven_le_pow _ _ HK) in Hq.
        apply Qle_trans with (2 ^ (Ex + 1 - ex) * 2 ^ ex)%Q.
        + apply Qmult_le_compat_r; [exact Hq | lra].
        + rewrite <- pow2_plus. apply pow2_le. lia.
      - assert (Hq : (x / 2 ^ ex <= 2 ^ 0)%Q).
        { apply Qle_shift_div_r; [exact Hpx |].
          change (2 ^ 0)%Q with 1%Q. rewrite Qmult_1_l.
          apply Qle_trans with (2 ^ (Ex + 1))%Q; [lra | apply pow2_le; lia]. }
        apply (roundHalfEven_le_pow _ 0) in Hq; [| lia].
        apply Qle_trans with (2 ^ 0 * 2 ^ ex)%Q.
        + apply Qmult_le_compat_r; [exact Hq | lra].
        + rewrite <- pow2_plus. apply pow2_le. lia. }
    lra.
Qed.

Lemma round_le (x y : Q) : (x <= y)%Q -> (Double.round x <= Double.round y)%Q.
Proof.
  intros H.
  destruct (Qlt_le_dec 0 x) as [Hx | Hx]; [now apply round_le_pos |].
  destruct (Qlt_le_dec y 0) as [Hy | Hy].
  - assert (H' : (Double.round (- y) <= Double.round (- x))%Q)
      by (apply round_le_pos; lra).
    rewrite !round_opp in H'. lra.
  - pose proof (round_nonpos x Hx). pose proof (round_nonneg y Hy). lra.
Qed.

(** The error of one rounding in absolute terms: at most 2^(k-53) for a
    number of at most 2^k in magnitude, subnormal results included. *)
Lemma exponent_le (x : Q) (k : Z) :
  ~ (x == 0)%Q -> -1022 <= k -> (Qabs x <= 2 ^ k)%Q ->
  Double.exponent x <= k - 52.
Proof.
  intros Hx Hk Hle. unfold Double.exponent.
  assert (Ha : (0 < Qabs x)%Q) by now apply Qabs_pos_lt.
  pose proof (ilog2_le (Qabs x) (2 ^ k) Ha Hle) as H.
  rewrite (ilog2_unique (2 ^ k) k) in H;
    [lia | apply Qle_refl | apply pow2_lt; lia].
Qed.

Lemma round_error_le (x : Q) (k : Z) :
  -1022 <= k -> (Qabs x <= 2 ^ k)%Q ->
  (x - 2 ^ (k - 53) <= Double.round x)%Q
  /\ (Double.round x <= x + 2 ^ (k - 53))%Q.
Proof.
  intros Hk Hle. pose proof (pow2_pos (k - 53)) as Hp.
  destruct (Qeq_dec x 0) as [E | E].
  - rewrite (round_0 x E). split; lra.
  - destruct (round_error x E) as [Hlo Hhi].
    pose proof (pow2_le _ _ (exponent_le x k E Hk Hle)) as He.
    assert (H2 : (2 ^ (k - 52) == 2 * 2 ^ (k - 53))%Q).
    { rewrite <- pow2_succ. now replace (k - 53 + 1) with (k - 52) by lia. }
    set (P := (2 ^ Double.exponent x)%Q) in *. clearbody P.
    set (R := (2 ^ (k - 53))%Q) in *. clearbody R.
    set (S := (2 ^ (k - 52))%Q) in *. clearbody S.
    split; lra.
Qed.

(** [Double.round] gives a binary64 value, and no binary64 value is nearer
    to the number rounded. *)
Lemma roundHalfEven_nearest (q : Q) (k : Z) :
  (Qabs (inject_Z (Double.roundHalfEven q) - q) <= Qabs (inject_Z k - q))%Q.
Proof.
  destruct (roundHalfEven_bounds q) as [Hlo Hhi].
  set (w := Double.roundHalfEven q) in *.
  pose proof (Qle_Qabs (inject_Z k - q)) as H1.
  pose proof (Qle_Qabs (- (inject_Z k - q))) as H2.
  rewrite Qabs_opp in H2.
  destruct (Z.lt_trichotomy k w) as [H | [-> | H]].
  - assert (Hk : (inject_Z k + 1 <= inject_Z w)%Q).
    { change 1%Q with (inject_Z 1). rewrite <- inject_Z_plus, <- Zle_Qle. lia. }
    apply Qabs_Qle_condition. split; lra.
  - apply Qle_refl.
  - assert (Hk : (inject_Z w + 1 <= inject_Z k)%Q).
    { change 1%Q with (inject_Z 1). rewrite <- inject_Z_plus, <- Zle_Qle. lia. }
    apply Qabs_Qle_condition. split; lra.
Qed.

Lemma round_representable (x : Q) : Double.representable (Double.round x).
Proof.
  destruct (Qeq_dec x 0) as [E | E].
  { rewrite (round_0 x E). exists 0, 0.
    split; [cbn; lia |]. split; [lia | reflexivity]. }
  assert (Ha : (0 < Qabs x)%Q) by now apply Qabs_pos_lt.
  destruct (ilog2_bounds _ Ha) as [_ Hhi].
  pose proof (pow2_pos (Double.exponent x)) as Hp.
  assert (He : Double.ilog2 (Qabs x) - 52 <= Double.exponent x
               /\ -1074 <= Double.exponent x)
    by (unfold Double.exponent; lia).
  set (e := Double.exponent x) in *.
  set (w := Double.roundHalfEven (Qabs x / 2 ^ e)).
  assert (Hw0 : 0 <= w).
  { apply roundHalfEven_nonneg. apply Qle_shift_div_l; [exact Hp | lra]. }
  assert (Hw1 : w <= 2 ^ 53).
  { rewrite Zle_Qle, pow2_inject by lia.
    apply roundHalfEven_le_pow; [lia |].
    apply Qle_shift_div_r; [exact Hp |]. rewrite <- pow2_plus.
    apply Qle_trans with (2 ^ (Double.ilog2 (Qabs x) + 1))%Q; [lra |].
    apply pow2_le. lia. }
  exists (if Qle_bool 0 x then w else - w), e.
  split; [destruct (Qle_bool 0 x); lia |]. split; [lia |].
  rewrite (round_eq x E). fold e. fold w. unfold Double.sign.
  destruct (Qle_bool 0 x); [| rewrite inject_Z_opp]; ring.
Qed.

Lemma representable_opp (y : Q) :
  Double.representable y -> Double.representable (- y).
Proof.
  intros [m [e [Hm [He Hy]]]]. exists (- m), e.
  split; [lia |]. split; [exact He |]. rewrite Hy, inject_Z_opp. ring.
Qed.

Lemma round_nearest_pos (x y : Q) :
  (0 < x)%Q -> Double.representable y ->
  (Qabs (Double.round x - x) <= Qabs (y - x))%Q.
Proof.
  intros Hx [m [e' [Hm [He' Hy]]]].
  rewrite (round_pos_eq x Hx).
  assert (Hax : (Qabs x == x)%Q) by (apply Qabs_pos; lra).
  assert (HE : Double.ilog2 (Qabs x) = Double.ilog2 x)
    by (apply ilog2_comp; [rewrite Hax; exact Hx | exact Hax]).
  destruct (ilog2_bounds x Hx) as [Hlo _].
  assert (He : Double.exponent x = Z.max (Double.ilog2 x - 52) (-1074))
    by (unfold Double.exponent; now rewrite HE).
  set (E := Double.ilog2 x) in *.
  set (e := Double.exponent x) in *.
  pose proof (pow2_pos e) as Hp.
  set (w := Double.roundHalfEven (x / 2 ^ e)).
  assert (Hint : forall k,
            (Qabs (inject_Z w * 2 ^ e - x)
             <= Qabs (inject_Z k * 2 ^ e - x))%Q).
  { intros k. pose proof (roundHalfEven_nearest (x / 2 ^ e) k) as H.
    fold w in H.
    setoid_replace (inject_Z w * 2 ^ e - x)%Q
      with ((inject_Z w - x / 2 ^ e) * 2 ^ e)%Q by (field; lra).
    setoid_replace (inject_Z k * 2 ^ e - x)%Q
      with ((inject_Z k - x / 2 ^ e) * 2 ^ e)%Q by (field; lra).
    rewrite !Qabs_Qmult. apply Qmult_le_compat_r; [exact H |].
    apply Qabs_nonneg. }
  destruct (Z_le_gt_dec e e') as [Hle | Hgt].
  - specialize (Hint (m * 2 ^ (e' - e))).
    assert (Hk : (inject_Z (m * 2 ^ (e' - e)) * 2 ^ e == y)%Q).
    { rewrite Hy, inject_Z_mult, pow2_inject by lia.
      rewrite <- Qmult_assoc, <- pow2_plus.
      now replace (e' - e + e) with e' by lia. }
    now rewrite Hk in Hint.
  - specialize (Hint (2 ^ 52)).
    assert (Hk : (inject_Z (2 ^ 52) * 2 ^ e == 2 ^ E)%Q).
    { rewrite pow2_inject by lia. rewrite <- pow2_plus.
      now replace (52 + e) with E by lia. }
    rewrite Hk in Hint.
    assert (Hy' : (Qabs y <= 2 ^ E)%Q).
    { rewrite Hy, Qabs_Qmult. pose proof (pow2_pos e') as Hp'.
      rewrite (Qabs_pos (2 ^ e')) by lra.
      apply Qle_trans with (inject_Z (2 ^ 53) * 2 ^ e')%Q.
      - apply Qmult_le_compat_r; [| lra].
        change (Qabs (inject_Z m)) with (inject_Z (Z.abs m)).
        now rewrite <- Zle_Qle.
      - rewrite pow2_inject by lia. rewrite <- pow2_plus.
        apply pow2_le. lia. }
    eapply Qle_trans; [exact Hint |].
    rewrite (Qabs_neg (2 ^ E - x)) by lra.
    pose proof (Qle_Qabs (- (y - x))) as H1. rewrite Qabs_opp in H1.
    pose proof (Qle_Qabs y) as H2.
    set (P := (2 ^ E)%Q) in *. clearbody P. lra.
Qed.

Lemma round_nearest (x y : Q) :
  Double.representable y ->
  (Qabs (Double.round x - x) <= Qabs (y - x))%Q.
Proof.
  intros Hy.
  destruct (Q_dec x 0) as [[Hneg | Hpos] | E].
  - pose proof (round_nearest_pos (- x) (- y)) as H.
    rewrite round_opp in H.
    setoid_replace (- Double.round x - - x)%Q
      with (- (Double.round x - x))%Q in H by ring.
    setoid_replace (- y - - x)%Q with (- (y - x))%Q in H by ring.
    rewrite !Qabs_opp in H. apply H; [lra | now apply representable_opp].
  - now apply round_nearest_pos.
  - rewrite (round_0 x E). rewrite E.
    change (Qabs (0 - 0)) with 0%Q. apply Qabs_nonneg.
Qed.

(** [Double.round] against the binary64 operations of the machine, on the
    amounts the examples below use and on two subnormal results. *)
#[warnings="-inexact-float"]
Example round_binary64 :
  Double.ofFloat 30.6%float = Some (decimal 306 10)
  /\ Double.ofFloat (30.6 / 10.2)%float
     = Some (Double.div (decimal 306 10) (decimal 102 10))
  /\ Double.ofFloat (1.1 / 0.1)%float
     = Some (Double.div (decimal 11 10) (decimal 1 10))
  /\ Double.ofFloat (2.01 * 1000)%float
     = Some (Double.mul (decimal 201 100) 1000)
  /\ Double.ofFloat (1.0004999999999999 * 1000)%float
     = Some (Double.mul (decimal 10004999999999999 10000000000000000) 1000)
  /\ Double.ofFloat (4402329568075817 / 1000 * 1000)%float
     = Some (Double.mul (Double.div 4402329568075817 1000) 1000)
  /\ Double.ofFloat (8810434344119.55 * 1000)%float
     = Some (Double.mul (decimal 881043434411955 100) 1000)
  /\ Double.ofFloat ((50.1 - 5.01) / 5.01)%float
     = Some (Double.div (Double.sub (decimal 501 10) (decimal 501 100))
                        (decimal 501 100))
  /\ Double.ofFloat ((75.15 - 5.01) / 5.01)%float
     = Some (Double.div (Double.sub (decimal 7515 100) (decimal 501 100))
                        (decimal 501 100))
  /\ Double.ofFloat (0.3 + 0.6)%float
     = Some (Double.add (decimal 3 10) (decimal 6 10))
  /\ Double.ofFloat (5e-324 / 2)%float
     = Some (Double.div (Double.round (2 ^ (-1074))) 2)
  /\ Double.ofFloat (1.5e-323 / 2)%float
     = Some (Double.div (Double.round (3 * 2 ^ (-1074))) 2)
  /\ Double.ofFloat (1e-310 * 0.3)%float
     = Some (Double.mul (Double.round (1 / 10 ^ 310)) (decimal 3 10)).
Proof. vm_compute. repeat split. Qed.

(** ** Calendar arithmetic *)

Ltac unfold_dayjs :=
  unfold Dayjs.isBefore, Dayjs.isAfter, Dayjs.isSame_day, Dayjs.endOf_day,
    Dayjs.startOf_day, Dayjs.add, Dayjs.subtract, Dayjs.diff_day, Dayjs.day,
    Dayjs.date, Dayjs.parse, Dayjs.MILLISECONDS_A_DAY in *.

Ltac bool_to_prop :=
  repeat first
    [ rewrite andb_true_iff | rewrite orb_true_iff
    | rewrite Z.leb_le | rewrite Z.ltb_lt | rewrite Z.eqb_eq ].

Lemma date_parse (d : Z) : Dayjs.date (Dayjs.parse d) = d.
Proof. unfold_dayjs. apply Z.div_mul. discriminate. Qed.

Lemma date_add (n : Z) (d : Dayjs.t) :
  Dayjs.date (Dayjs.add n d) = Dayjs.date d + n.
Proof. unfold_dayjs. apply Z.div_add. discriminate. Qed.

Lemma day_weekday (d : Dayjs.t) : Dayjs.day d = weekday (Dayjs.date d).
Proof. reflexivity. Qed.

(** The loop of [calculatePaymentDaysRemaining] goes on exactly as long as
    the calendar date of [currentDate] is not past the deadline date. *)
Lemma loop_condition (currentDate : Dayjs.t) (endDate : Z) :
  Dayjs.isBefore currentDate (Dayjs.parse endDate)
  || Dayjs.isSame_day currentDate (Dayjs.parse endDate) = true
  <-> Dayjs.date currentDate <= endDate.
Proof.
  unfold_dayjs. bool_to_prop. Z.div_mod_to_equations. lia.
Qed.

Lemma dateRange_nil (today deadline : Z) :
  deadline < today -> dateRange today deadline = [].
Proof.
  intros H. unfold dateRange.
  replace (Z.to_nat (deadline - today + 1)) with 0%nat by lia. reflexivity.
Qed.

Lemma dateRange_cons (today deadline : Z) :
  today <= deadline ->
  dateRange today deadline = today :: dateRange (today + 1) deadline.
Proof.
  intros H. unfold dateRange.
  replace (Z.to_nat (deadline - today + 1))
    with (S (Z.to_nat (deadline - (today + 1) + 1))) by lia.
  cbn [seq map]. f_equal; [lia |].
  rewrite <- seq_shift, map_map. apply map_ext. intros i. lia.
Qed.

Lemma In_dateRange (today deadline d : Z) :
  In d (dateRange today deadline) <-> today <= d <= deadline.
Proof.
  unfold dateRange. rewrite in_map_iff. split.
  - intros [i [<- Hi]]. apply in_seq in Hi. lia.
  - intros H. exists (Z.to_nat (d - today)). rewrite in_seq. lia.
Qed.

Lemma totalScheduledDays_empty (today deadline : Z) (ws : list Z) :
  deadline < today -> totalScheduledDays today deadline ws = 0.
Proof.
  intros H. unfold totalScheduledDays. now rewrite dateRange_nil.
Qed.

Lemma totalScheduledDays_step (today deadline : Z) (ws : list Z) :
  today <= deadline ->
  totalScheduledDays today deadline ws
  = (if isScheduledDay today ws then 1 else 0)
    + totalScheduledDays (today + 1) deadline ws.
Proof.
  intros H. unfold totalScheduledDays. rewrite dateRange_cons by assumption.
  cbn [filter]. destruct (isScheduledDay today ws); cbn [length]; lia.
Qed.

Lemma totalScheduledDays_nonneg (today deadline : Z) (ws : list Z) :
  0 <= totalScheduledDays today deadline ws.
Proof. unfold totalScheduledDays. lia. Qed.

(** What the loop computes: the counter it started from plus the number of
    scheduled dates from the date of [currentDate] to the deadline date. *)
Lemma countPaymentDays_total (endDate : Z) (paymentDays : list Z)
    (currentDate : Dayjs.t) (paymentDaysCount : Z) :
  countPaymentDays (Dayjs.parse endDate) paymentDays currentDate paymentDaysCount
  = paymentDaysCount
    + totalScheduledDays (Dayjs.date currentDate) endDate paymentDays.
Proof.
  remember (Dayjs.parse endDate) as deadline eqn:Hd.
  funelim (countPaymentDays deadline paymentDays currentDate paymentDaysCount).
  all: intros; subst.
  - match goal with IH : forall _, _ -> _ = _ |- _ => rewrite (IH endDate eq_refl) end.
    pose proof (proj1 (loop_condition _ _) e) as Hle.
    rewrite date_add, (totalScheduledDays_step (Dayjs.date currentDate)) by assumption.
    unfold isScheduledDay. rewrite day_weekday.
    destruct (includes _ _); lia.
  - assert (Hlt : endDate < Dayjs.date currentDate).
    { apply Z.nle_gt. intros Hle. apply loop_condition in Hle. congruence. }
    rewrite totalScheduledDays_empty by assumption. lia.
Qed.

(** The filter predicate of the code, read on calendar dates: the strict
    comparisons against [today - 1 day] and [deadline + 1 day] keep the
    payments dated from today to the deadline, both included. *)
Lemma isPaidDay_window (now : Dayjs.t) (endDate : Z) (paymentDays : list Z)
    (r : PaymentHistoryItem) :
  isPaidDay now (Dayjs.parse endDate) paymentDays r
  = (Dayjs.date now <=? date r) && (date r <=? endDate)
    && isScheduledDay (date r) paymentDays
    && Qle_bool 0 (amount r).
Proof.
  unfold isPaidDay, isScheduledDay. cbv zeta.
  rewrite day_weekday, date_parse. do 2 f_equal.
  apply eq_true_iff_eq. unfold_dayjs. bool_to_prop.
  Z.div_mod_to_equations. lia.
Qed.

Lemma paidDays_satisfiedDays (now : Dayjs.t) (endDate : Z)
    (paymentDays : list Z) (history : list PaymentHistoryItem) :
  paidDays now endDate paymentDays history
  = satisfiedDays (Dayjs.date now) endDate paymentDays history.
Proof.
  unfold paidDays, satisfiedDays. cbv zeta. do 2 f_equal.
  apply filter_ext. intros r. apply isPaidDay_window.
Qed.

Lemma paidDays_nonneg (now : Dayjs.t) (endDate : Z) (paymentDays : list Z)
    (history : list PaymentHistoryItem) :
  0 <= paidDays now endDate paymentDays history.
Proof. unfold paidDays. cbv zeta. lia. Qed.

(** ** The deadline counter *)

(** With the window of section 4.3 as its step 2 words it, from the day
    before today to the day after the deadline, [satisfiedDays] counts a
    payment dated the day after the deadline and the difference is 4; the
    code answers 5.  Monday noon, deadline on Friday, Monday to Saturday
    scheduled, one payment dated Saturday. *)
Lemma calculatePaymentDaysRemaining_spec_window_counterexample :
  calculatePaymentDaysRemaining mondayNoon 8 MonToSat [payment 9 20]
  <> Z.max 0 (totalScheduledDays (Dayjs.date mondayNoon) 8 MonToSat
              - satisfiedDays_spec (Dayjs.date mondayNoon) 8 MonToSat
                  [payment 9 20]).
Proof. vm_compute. discriminate. Qed.

(** C1, amended.  For every clock reading, deadline date, weekday schedule
    and payment history, [calculatePaymentDaysRemaining] returns
    [max 0 (totalScheduledDays - satisfiedDays)], where [totalScheduledDays]
    counts the scheduled dates from today's date to the deadline date, both
    included, and [satisfiedDays] counts the history records dated from
    today's date to the deadline date, both included, on a scheduled weekday
    and with an amount of at least 0.  The result is never negative; when the
    deadline date is before today's date the enumerated range is empty and
    the result is 0. *)
Theorem calculatePaymentDaysRemaining_spec (now : Dayjs.t) (endDate : Z)
    (paymentDays : list Z) (history : list PaymentHistoryItem) :
  let today := Dayjs.date now in
  let remaining := calculatePaymentDaysRemaining now endDate paymentDays history in
  remaining
  = Z.max 0 (totalScheduledDays today endDate paymentDays
             - satisfiedDays today endDate paymentDays history)
  /\ 0 <= remaining
  /\ (endDate < today -> dateRange today endDate = [] /\ remaining = 0).
Proof.
  cbv zeta.
  assert (Heq : calculatePaymentDaysRemaining now endDate paymentDays history
                = Z.max 0 (totalScheduledDays (Dayjs.date now) endDate paymentDays
                           - satisfiedDays (Dayjs.date now) endDate paymentDays
                               history)).
  { unfold calculatePaymentDaysRemaining. cbv zeta.
    now rewrite countPaymentDays_total, paidDays_satisfiedDays. }
  split; [exact Heq |]. split; [rewrite Heq; apply Z.le_max_l |].
  intros Hlt. split; [now apply dateRange_nil |].
  rewrite Heq, totalScheduledDays_empty by assumption.
  unfold satisfiedDays. lia.
Qed.

(** Monday to Friday, the deadline two days in the past. *)
Lemma calculatePaymentDaysRemaining_spec_witness :
  7 < Dayjs.date (Dayjs.parse 9 + noon)
  /\ calculatePaymentDaysRemaining (Dayjs.parse 9 + noon) 7 MonToFri
       [payment 5 20] = 0.
Proof.
  split; [vm_compute; reflexivity |].
  apply (calculatePaymentDaysRemaining_spec (Dayjs.parse 9 + noon) 7 MonToFri
           [payment 5 20]).
  vm_compute; reflexivity.
Defined.


Lemma includes_In (xs : list Z) (x : Z) : includes xs x = true <-> In x xs.
Proof.
  unfold includes. rewrite existsb_exists. split.
  - intros [y [Hy Heq]]. apply Z.eqb_eq in Heq. now subst.
  - intros H. exists x. split; [assumption | apply Z.eqb_refl].
Qed.

Lemma isPaidDay_iff (now : Dayjs.t) (endDate : Z) (paymentDays : list Z)
    (r : PaymentHistoryItem) :
  isPaidDay now (Dayjs.parse endDate) paymentDays r = true
  <-> Dayjs.date now <= date r <= endDate
      /\ In (weekday (date r)) paymentDays
      /\ (0 <= amount r)%Q.
Proof.
  rewrite isPaidDay_window. unfold isScheduledDay.
  rewrite !andb_true_iff, !Z.leb_le, includes_In, Qle_bool_iff. tauto.
Qed.

Lemma paidDays_app (now : Dayjs.t) (endDate : Z) (paymentDays : list Z)
    (h1 h2 : list PaymentHistoryItem) :
  paidDays now endDate paymentDays (h1 ++ h2)
  = paidDays now endDate paymentDays h1 + paidDays now endDate paymentDays h2.
Proof.
  unfold paidDays. cbv zeta. rewrite filter_app, length_app. lia.
Qed.

Lemma paidDays_cons (now : Dayjs.t) (endDate : Z) (paymentDays : list Z)
    (r : PaymentHistoryItem) (h : list PaymentHistoryItem) :
  paidDays now endDate paymentDays (r :: h)
  = (if isPaidDay now (Dayjs.parse endDate) paymentDays r then 1 else 0)
    + paidDays now endDate paymentDays h.
Proof.
  unfold paidDays. cbv zeta. cbn [filter].
  destruct (isPaidDay _ _ _ r); cbn [length]; lia.
Qed.

Lemma paidDays_repeat (now : Dayjs.t) (endDate : Z) (paymentDays : list Z)
    (r : PaymentHistoryItem) (n : nat) :
  isPaidDay now (Dayjs.parse endDate) paymentDays r = true ->
  paidDays now endDate paymentDays (repeat r n) = Z.of_nat n.
Proof.
  intros Hr. induction n as [| n IH].
  - reflexivity.
  - cbn [repeat]. rewrite paidDays_cons, Hr, IH. lia.
Qed.

(** Two weeks of scheduled days, a payment on each of the ten. *)
Example calculatePaymentDaysRemaining_all_paid :
  totalScheduledDays 4 15 MonToFri = 10
  /\ calculatePaymentDaysRemaining mondayNoon 15 MonToFri
       (map (fun d => payment d 20) [15; 14; 13; 12; 11; 8; 7; 6; 5; 4]) = 0.
Proof. split; reflexivity. Qed.

(** A payment dated the day after the deadline, on a scheduled weekday,
    lies in the window as the specification words it; the code does not count
    it. *)
Lemma paidDays_spec_window_counterexample :
  paidDays (Dayjs.parse 4 + noon) 8 MonToSat [payment 9 20]
  <> satisfiedDays_spec (Dayjs.date (Dayjs.parse 4 + noon)) 8 MonToSat
       [payment 9 20].
Proof. vm_compute. discriminate. Qed.

(** The same at the other end: a payment dated yesterday. *)
Example paidDays_yesterday :
  paidDays (Dayjs.parse 5 + noon) 8 MonToSat [payment 4 20] = 0
  /\ satisfiedDays_spec 5 8 MonToSat [payment 4 20] = 1.
Proof. split; reflexivity. Qed.

(** C2, amended.  The filter of [calculatePaymentDaysRemaining] keeps exactly
    the history records dated from today's date to the deadline date, both
    included (a record dated the day before today or the day after the
    deadline is not kept), whose weekday is a scheduled one and whose amount
    is at least 0; [paidDays] is their number.  A record on a weekday that is
    not scheduled changes nothing in the remaining count, wherever it stands
    in the history, and [n] copies of a qualifying record add [n]. *)
Theorem paidDays_counts (now : Dayjs.t) (endDate : Z) (paymentDays : list Z)
    (history : list PaymentHistoryItem) :
  (forall r, isPaidDay now (Dayjs.parse endDate) paymentDays r = true
             <-> Dayjs.date now <= date r <= endDate
                 /\ In (weekday (date r)) paymentDays
                 /\ (0 <= amount r)%Q)
  /\ paidDays now endDate paymentDays history
     = satisfiedDays (Dayjs.date now) endDate paymentDays history
  /\ (forall r h1 h2,
        history = h1 ++ h2 ->
        ~ In (weekday (date r)) paymentDays ->
        calculatePaymentDaysRemaining now endDate paymentDays (h1 ++ r :: h2)
        = calculatePaymentDaysRemaining now endDate paymentDays history)
  /\ (forall r n,
        isPaidDay now (Dayjs.parse endDate) paymentDays r = true ->
        paidDays now endDate paymentDays (repeat r n ++ history)
        = Z.of_nat n + paidDays now endDate paymentDays history).
Proof.
  split; [intros r; apply isPaidDay_iff |].
  split; [apply paidDays_satisfiedDays |].
  split.
  - intros r h1 h2 -> Hr.
    unfold calculatePaymentDaysRemaining. cbv zeta.
    rewrite !paidDays_app, paidDays_cons.
    destruct (isPaidDay now (Dayjs.parse endDate) paymentDays r) eqn:E.
    + apply isPaidDay_iff in E. tauto.
    + reflexivity.
  - intros r n Hr. now rewrite paidDays_app, paidDays_repeat.
Qed.

(** Monday noon, deadline on Friday, Monday to Friday scheduled: a payment on
    Saturday changes nothing, three payments on Tuesday count three times. *)
Lemma paidDays_counts_witness :
  (~ In (weekday (date (payment 9 20))) MonToFri
   /\ calculatePaymentDaysRemaining (Dayjs.parse 4 + noon) 8 MonToFri
        ([payment 5 20] ++ payment 9 20 :: [payment 6 0])
      = calculatePaymentDaysRemaining (Dayjs.parse 4 + noon) 8 MonToFri
          [payment 5 20; payment 6 0])
  /\ (isPaidDay (Dayjs.parse 4 + noon) (Dayjs.parse 8) MonToFri (payment 5 20) = true
      /\ paidDays (Dayjs.parse 4 + noon) 8 MonToFri
           (repeat (payment 5 20) 3 ++ [payment 5 20; payment 6 0])
         = 3 + paidDays (Dayjs.parse 4 + noon) 8 MonToFri
                 [payment 5 20; payment 6 0]).
Proof.
  pose proof (paidDays_counts (Dayjs.parse 4 + noon) 8 MonToFri
                [payment 5 20; payment 6 0]) as [_ [_ [Hskip Hdup]]].
  assert (Hns : ~ In (weekday (date (payment 9 20))) MonToFri).
  { cbn. intros H. repeat (destruct H as [H | H]; [discriminate H |]). exact H. }
  split.
  - split; [exact Hns |].
    exact (Hskip (payment 9 20) [payment 5 20] [payment 6 0] eq_refl Hns).
  - split; [reflexivity |].
    exact (Hdup (payment 5 20) 3%nat eq_refl).
Defined.

(** ** The status classifier *)

Lemma madePaymentToday_iff (todayString : Z) (history : list PaymentHistoryItem) :
  madePaymentToday todayString history = true
  <-> exists p, In p history /\ date p = todayString /\ (0 <= amount p)%Q.
Proof.
  unfold madePaymentToday, isPaymentToday. rewrite existsb_exists.
  split; intros [p [Hin H]]; exists p; split; try assumption.
  - apply andb_true_iff in H. rewrite Z.eqb_eq, Qle_bool_iff in H. exact H.
  - apply andb_true_iff. rewrite Z.eqb_eq, Qle_bool_iff. exact H.
Qed.

(** The three verdicts in terms of the two tests the classifier makes. *)
Lemma debtStatus_cases (now : Dayjs.t) (st : AppState) :
  debtStatus now st
  = if includes (paymentDays st) (Dayjs.day now)
    then if madePaymentToday (Dayjs.date now) (paymentHistory st)
         then PagoRealizadoHoy else PagoPendienteHoy
    else NoEsDiaDePago.
Proof.
  unfold debtStatus. cbv zeta.
  destruct (includes _ _); destruct (madePaymentToday _ _); reflexivity.
Qed.

(** C3.  With today's weekday taken from the clock reading, the classifier
    answers "payment completed today" when the weekday is scheduled and some
    history record is dated today with an amount of at least 0, "payment
    pending today" when the weekday is scheduled and there is no such record,
    and "not a payment day" when the weekday is not scheduled, whatever the
    history; with no scheduled weekday at all it answers "not a payment day"
    on every date. *)
Theorem debtStatus_spec (now : Dayjs.t) (st : AppState) :
  let scheduled := In (weekday (Dayjs.date now)) (paymentDays st) in
  let recorded :=
    exists p, In p (paymentHistory st)
              /\ date p = Dayjs.date now /\ (0 <= amount p)%Q in
  (scheduled -> recorded -> debtStatus now st = PagoRealizadoHoy)
  /\ (scheduled -> ~ recorded -> debtStatus now st = PagoPendienteHoy)
  /\ (~ scheduled -> debtStatus now st = NoEsDiaDePago)
  /\ (paymentDays st = [] -> debtStatus now st = NoEsDiaDePago).
Proof.
  cbv zeta. rewrite debtStatus_cases, day_weekday.
  rewrite <- (includes_In (paymentDays st)), <- madePaymentToday_iff.
  destruct (includes _ _) eqn:Hs; destruct (madePaymentToday _ _) eqn:Hp;
    repeat split; intros; try reflexivity; try congruence;
    try (exfalso; auto; fail).
  all: match goal with H : paymentDays _ = [] |- _ =>
         rewrite H in Hs; discriminate Hs end.
Qed.

(** The three scenarios of section 8: a Monday without a payment, the same
    Monday with a payment of 20.00, and a Saturday. *)
Lemma debtStatus_spec_witness :
  debtStatus mondayNoon (stateWith MonToFri [payment 3 20]) = PagoPendienteHoy
  /\ debtStatus mondayNoon (stateWith MonToFri [payment 4 20]) = PagoRealizadoHoy
  /\ debtStatus saturdayNoon (stateWith MonToFri [payment 9 20]) = NoEsDiaDePago
  /\ debtStatus mondayNoon (stateWith [] [payment 4 20]) = NoEsDiaDePago.
Proof.
  assert (Hmon : In (weekday (Dayjs.date mondayNoon)) MonToFri) by (left; reflexivity).
  assert (Hsat : ~ In (weekday (Dayjs.date saturdayNoon)) MonToFri).
  { cbn. intros H. repeat (destruct H as [H | H]; [discriminate H |]). exact H. }
  split; [| split; [| split]].
  - apply (proj1 (proj2
             (debtStatus_spec mondayNoon (stateWith MonToFri [payment 3 20])))).
    + exact Hmon.
    + intros [p [[<- | []] [Hd _]]]. discriminate Hd.
  - apply (proj1
             (debtStatus_spec mondayNoon (stateWith MonToFri [payment 4 20]))).
    + exact Hmon.
    + exists (payment 4 20). split; [left; reflexivity |].
      split; [reflexivity | discriminate].
  - exact (proj1 (proj2 (proj2
             (debtStatus_spec saturdayNoon (stateWith MonToFri [payment 9 20]))))
           Hsat).
  - exact (proj2 (proj2 (proj2
             (debtStatus_spec mondayNoon (stateWith [] [payment 4 20]))))
           eq_refl).
Defined.

(** C8.  Whatever the clock reading, the schedule and the history, the
    classifier answers with one of its first three verdicts: the fourth
    branch, "Al día", is never taken. *)
Theorem debtStatus_never_AlDia (now : Dayjs.t) (st : AppState) :
  (debtStatus now st = PagoRealizadoHoy
   \/ debtStatus now st = PagoPendienteHoy
   \/ debtStatus now st = NoEsDiaDePago)
  /\ debtStatus now st <> AlDia.
Proof.
  rewrite debtStatus_cases.
  destruct (includes (paymentDays st) (Dayjs.day now));
    [destruct (madePaymentToday (Dayjs.date now) (paymentHistory st)) |];
    (split; [tauto | discriminate]).
Qed.

(** ** The finish-date projector *)

Lemma ToIntegerOrInfinity_Z (x : Q) (z : Z) :
  (x == inject_Z z)%Q -> ToIntegerOrInfinity x = z.
Proof.
  intros H. unfold ToIntegerOrInfinity.
  destruct (Qle_bool 0 x); rewrite H; [apply Qfloor_Z | apply Qceiling_Z].
Qed.

(** Below 2^53 the day arithmetic of the projector is exact. *)
Lemma dayValue_exact (d n : Z) :
  Z.abs d + 15 * Z.abs n < 2 ^ 53 ->
  (Double.add (inject_Z d) (Double.mul (inject_Z n) 15)
   == inject_Z (d + n * 15))%Q.
Proof.
  intros H. unfold Double.add, Double.mul.
  assert (H1 : Double.round (inject_Z n * 15) = Double.round (inject_Z (n * 15)))
    by (apply round_comp; rewrite inject_Z_mult; reflexivity).
  assert (H2 : (Double.round (inject_Z (n * 15)) == inject_Z (n * 15))%Q)
    by (apply round_Z; lia).
  rewrite H1.
  rewrite (round_comp _ (inject_Z (d + n * 15)))
    by (rewrite H2, inject_Z_plus; reflexivity).
  apply round_Z. lia.
Qed.

(** Setting the day of the month to today's plus [n] gives the date [n]
    days after today, at the time of day of the second clock read, when
    both reads fall in the same month and the result is in range. *)
Lemma setDate_getDate (LocalTZA : Z) (monthStart : Z -> Z)
    (now now' : Dayjs.t) (dayValue : Q) (n : Z) :
  (dayValue == inject_Z (getDate monthStart now + n))%Q ->
  monthStart (Dayjs.date now') = monthStart (Dayjs.date now) ->
  setDate LocalTZA monthStart now' dayValue
  = let finish := Dayjs.parse (Dayjs.date now + n)
                  + now' mod Dayjs.MILLISECONDS_A_DAY in
    match TimeClip (finish - LocalTZA) with
    | Some _ => Some finish
    | None => None
    end.
Proof.
  intros Hd Hm. unfold setDate. cbv zeta.
  rewrite (ToIntegerOrInfinity_Z _ _ Hd), Hm. unfold getDate, Dayjs.parse.
  replace (monthStart (Dayjs.date now)
           + (Dayjs.date now - monthStart (Dayjs.date now) + 1 + n) - 1)
    with (Dayjs.date now + n) by lia.
  reflexivity.
Qed.

Lemma date_parse_plus (d : Z) (now' : Dayjs.t) :
  Dayjs.date (Dayjs.parse d + now' mod Dayjs.MILLISECONDS_A_DAY) = d.
Proof. unfold_dayjs. Z.div_mod_to_equations. lia. Qed.

Lemma estimatedFinishDate_exact (LocalTZA : Z) (monthStart : Z -> Z)
    (now now' : Dayjs.t) (st : AppState) :
  (0 < presetPaymentAmount st)%Q ->
  Z.abs (getDate monthStart now) + 15 * Z.abs (paymentsLeft st) < 2 ^ 53 ->
  monthStart (Dayjs.date now') = monthStart (Dayjs.date now) ->
  estimatedFinishDate LocalTZA monthStart now now' st
  = match TimeClip (Dayjs.parse (Dayjs.date now + paymentsLeft st * 15)
                    + now' mod Dayjs.MILLISECONDS_A_DAY - LocalTZA) with
    | Some _ => LocaleDate (Dayjs.date now + paymentsLeft st * 15)
    | None => InvalidDate
    end.
Proof.
  intros Hpos Hn Hm. unfold estimatedFinishDate.
  destruct (Qle_bool (presetPaymentAmount st) 0) eqn:E.
  { apply Qle_bool_iff in E. exfalso. exact (Qlt_not_le _ _ Hpos E). }
  cbv zeta.
  rewrite (setDate_getDate LocalTZA monthStart now now' _ (paymentsLeft st * 15)
             (dayValue_exact _ _ Hn) Hm).
  cbv zeta.
  destruct (TimeClip _); [now rewrite date_parse_plus | reflexivity].
Qed.

(** Beyond 2^48 payments the day of the month handed to [setDate] is far
    out of range, whatever the roundings on the way. *)
Lemma dayValue_large (g n : Z) :
  1 <= g <= 31 -> 2 ^ 48 < n ->
  15 * 2 ^ 48
  <= ToIntegerOrInfinity (Double.add (inject_Z g) (Double.mul (inject_Z n) 15)).
Proof.
  intros Hg Hn. unfold Double.add, Double.mul.
  assert (HK : Z.abs (15 * 2 ^ 48) < 2 ^ 53) by (cbn; lia).
  assert (H1 : (inject_Z (15 * 2 ^ 48) <= Double.round (inject_Z n * 15))%Q).
  { rewrite <- (round_Z _ HK). apply round_le.
    change 15%Q with (inject_Z 15). rewrite <- inject_Z_mult, <- Zle_Qle. lia. }
  set (a := Double.round (inject_Z n * 15)) in *. clearbody a.
  assert (H2 : (inject_Z (15 * 2 ^ 48) <= Double.round (inject_Z g + a))%Q).
  { rewrite <- (round_Z _ HK). apply round_le.
    assert (H0 : (inject_Z 0 <= inject_Z g)%Q) by (rewrite <- Zle_Qle; lia).
    change (inject_Z 0) with 0%Q in H0. lra. }
  set (dv := Double.round (inject_Z g + a)) in *. clearbody dv.
  unfold ToIntegerOrInfinity.
  assert (Hpos : Qle_bool 0 dv = true).
  { apply Qle_bool_iff. eapply Qle_trans; [| exact H2]. discriminate. }
  rewrite Hpos. rewrite <- (Qfloor_Z (15 * 2 ^ 48)).
  apply Qfloor_resp_le. exact H2.
Qed.

Lemma dayValue_small (g n : Z) :
  1 <= g <= 31 -> n < - 2 ^ 48 ->
  ToIntegerOrInfinity (Double.add (inject_Z g) (Double.mul (inject_Z n) 15))
  <= 31 - 15 * 2 ^ 48.
Proof.
  intros Hg Hn. unfold Double.add, Double.mul.
  assert (HK : Z.abs (- (15 * 2 ^ 48)) < 2 ^ 53) by (cbn; lia).
  assert (HK' : Z.abs (31 - 15 * 2 ^ 48) < 2 ^ 53) by (cbn; lia).
  assert (H1 : (Double.round (inject_Z n * 15) <= inject_Z (- (15 * 2 ^ 48)))%Q).
  { rewrite <- (round_Z _ HK). apply round_le.
    change 15%Q with (inject_Z 15). rewrite <- inject_Z_mult, <- Zle_Qle. lia. }
  set (a := Double.round (inject_Z n * 15)) in *. clearbody a.
  assert (H2 : (Double.round (inject_Z g + a) <= inject_Z (31 - 15 * 2 ^ 48))%Q).
  { rewrite <- (round_Z _ HK'). apply round_le.
    assert (H0 : (inject_Z g <= inject_Z 31)%Q) by (rewrite <- Zle_Qle; lia).
    replace (31 - 15 * 2 ^ 48) with (31 + - (15 * 2 ^ 48)) by lia.
    rewrite inject_Z_plus. lra. }
  set (dv := Double.round (inject_Z g + a)) in *. clearbody dv.
  unfold ToIntegerOrInfinity.
  assert (Hneg : Qle_bool 0 dv = false).
  { destruct (Qle_bool 0 dv) eqn:E; [| reflexivity].
    apply Qle_bool_iff in E. exfalso.
    assert (H3 : (inject_Z (31 - 15 * 2 ^ 48) < 0)%Q) by reflexivity.
    lra. }
  rewrite Hneg. rewrite <- (Qceiling_Z (31 - 15 * 2 ^ 48)).
  apply Qceiling_resp_le. exact H2.
Qed.

(** The projection, for every number of payments left. *)
Lemma estimatedFinishDate_projection (LocalTZA : Z) (monthStart : Z -> Z)
    (now now' : Dayjs.t) (st : AppState) :
  (0 < presetPaymentAmount st)%Q ->
  sameMonthReads LocalTZA monthStart now now' ->
  estimatedFinishDate LocalTZA monthStart now now' st
  = match TimeClip (Dayjs.parse (Dayjs.date now + paymentsLeft st * 15)
                    + now' mod Dayjs.MILLISECONDS_A_DAY - LocalTZA) with
    | Some _ => LocaleDate (Dayjs.date now + paymentsLeft st * 15)
    | None => InvalidDate
    end.
Proof.
  intros Hpos [Hg [Hm [Htz Hnow]]].
  destruct (Z_le_gt_dec (Z.abs (paymentsLeft st)) (2 ^ 48)) as [Hn | Hn].
  { apply estimatedFinishDate_exact; [exact Hpos | lia | exact Hm]. }
  unfold estimatedFinishDate.
  destruct (Qle_bool (presetPaymentAmount st) 0) eqn:E.
  { apply Qle_bool_iff in E. exfalso. exact (Qlt_not_le _ _ Hpos E). }
  cbv zeta. unfold setDate, TimeClip. cbv zeta. rewrite Hm.
  set (n := paymentsLeft st) in *.
  set (dt := ToIntegerOrInfinity _).
  assert (Hdt : (2 ^ 48 < n /\ 15 * 2 ^ 48 <= dt)
                \/ (n < - 2 ^ 48 /\ dt <= 31 - 15 * 2 ^ 48)).
  { destruct (Z_lt_le_dec n 0) as [Hneg | Hnn].
    - right. assert (Hn' : n < - 2 ^ 48) by lia.
      split; [exact Hn' |]. now apply dayValue_small.
    - left. assert (Hn' : 2 ^ 48 < n) by lia.
      split; [exact Hn' |]. now apply dayValue_large. }
  clearbody dt. unfold getDate in Hg.
  set (ms := monthStart (Dayjs.date now)) in *. clearbody ms.
  clearbody n.
  assert (H1 : (Z.abs ((ms + dt - 1) * Dayjs.MILLISECONDS_A_DAY
                       + now' mod Dayjs.MILLISECONDS_A_DAY - LocalTZA)
                <=? 8640000000000000) = false).
  { apply Z.leb_gt. unfold_dayjs. Z.div_mod_to_equations. lia. }
  assert (H2 : (Z.abs (Dayjs.parse (Dayjs.date now + n * 15)
                       + now' mod Dayjs.MILLISECONDS_A_DAY - LocalTZA)
                <=? 8640000000000000) = false).
  { apply Z.leb_gt. unfold_dayjs. Z.div_mod_to_equations. lia. }
  now rewrite H1, H2.
Qed.

(** With a payment amount above 0 the projector never answers "N/A". *)
Lemma estimatedFinishDate_not_NA (LocalTZA : Z) (monthStart : Z -> Z)
    (now now' : Dayjs.t) (st : AppState) :
  (0 < presetPaymentAmount st)%Q ->
  estimatedFinishDate LocalTZA monthStart now now' st <> NA.
Proof.
  intros Hpos. unfold estimatedFinishDate.
  destruct (Qle_bool (presetPaymentAmount st) 0) eqn:E.
  { apply Qle_bool_iff in E. exfalso. exact (Qlt_not_le _ _ Hpos E). }
  cbv zeta. destruct (setDate _ _ _ _); discriminate.
Qed.

(** The ceiling of a rounded quotient is the ceiling of the exact quotient
    or one less, as long as the integers next to the quotient are binary64
    values. *)
Lemma Qceiling_round (x : Q) :
  (Qabs x <= 2 ^ 52)%Q ->
  Qceiling x - 1 <= Qceiling (Double.round x) <= Qceiling x.
Proof.
  intros Hx.
  assert (Hb : (- 2 ^ 52 <= x)%Q /\ (x <= 2 ^ 52)%Q)
    by (apply Qabs_Qle_condition; exact Hx).
  destruct Hb as [Hlo Hhi].
  assert (Hf : - 2 ^ 52 <= Qfloor x).
  { change (- 2 ^ 52) with (Qfloor (inject_Z (- 2 ^ 52))).
    apply Qfloor_resp_le. exact Hlo. }
  assert (Hc : Qceiling x <= 2 ^ 52).
  { change (2 ^ 52) with (Qceiling (inject_Z (2 ^ 52))).
    apply Qceiling_resp_le. exact Hhi. }
  pose proof (Qfloor_le x) as Hfx. pose proof (Qle_ceiling x) as Hxc.
  assert (Hfc : Qfloor x <= Qceiling x).
  { rewrite Zle_Qle. eapply Qle_trans; eassumption. }
  assert (Hcf : Qceiling x <= Qfloor x + 1).
  { pose proof (Qceiling_lt x) as H1. pose proof (Qlt_floor x) as H2.
    assert (H3 : (inject_Z (Qceiling x - 1) < inject_Z (Qfloor x + 1))%Q)
      by (eapply Qlt_trans; eassumption).
    rewrite <- Zlt_Qlt in H3. lia. }
  split.
  - assert (H : Qfloor x <= Qceiling (Double.round x)); [| lia].
    rewrite <- (Qceiling_Z (Qfloor x)). apply Qceiling_resp_le.
    rewrite <- (round_Z (Qfloor x)) by lia. now apply round_le.
  - assert (H : Qceiling (Double.round x) <= Qceiling (inject_Z (Qceiling x)))
      by (apply Qceiling_resp_le;
          rewrite <- (round_Z (Qceiling x)) by lia; now apply round_le).
    now rewrite Qceiling_Z in H.
Qed.

(** The double nearest to 30.6 divided by the one nearest to 10.2 is just
    above 3, and the code counts 4 payments where 30.6 / 10.2 is 3.  The
    doubles nearest to 1.1 and 0.1 have a quotient just above 11, which
    rounds to 11: the code counts 11 payments, the ceiling of the quotient
    as it stands is 12. *)
Example paymentsLeft_rounding :
  Qceiling ((306 # 10) / (102 # 10)) = 3
  /\ paymentsLeft (owing (decimal 306 10) (decimal 102 10)) = 4
  /\ Qceiling (decimal 11 10 / decimal 1 10) = 12
  /\ paymentsLeft (owing (decimal 11 10) (decimal 1 10)) = 11.
Proof. vm_compute. repeat split. Qed.

(** The two clock reads on either side of the midnight that ends January:
    the day of the month of the first, 31, is set in the month of the second,
    and with no payment left the projection is 3 March, not 31 January. *)
Example estimatedFinishDate_across_months :
  getDate winter1970 (Dayjs.parse 31 - 1) = 31
  /\ estimatedFinishDate panama winter1970 (Dayjs.parse 31 - 1) (Dayjs.parse 31)
       (owing 0 20)
     = LocaleDate (31 + 30).
Proof. vm_compute. repeat split. Qed.

(** A balance of 30.60 with a payment amount of 10.20 gives 4 payments where
    the ceiling of 30.6 / 10.2 is 3; a balance of 200 000 000.00 with a
    payment amount of 20.00 gives ten million payments, and the page shows
    "Invalid Date" where today plus 150 000 000 days is claimed. *)
Lemma estimatedFinishDate_spec_counterexample :
  paymentsLeft (owing (decimal 306 10) (decimal 102 10))
  <> Qceiling ((306 # 10) / (102 # 10))
  /\ estimatedFinishDate panama january1970 mondayNoon mondayNoon
       (owing 200000000 20)
     <> LocaleDate (Dayjs.date mondayNoon + Qceiling (200000000 / 20) * 15).
Proof. vm_compute. split; discriminate. Qed.

(** C4, amended.  With a payment amount above 0 and a quotient within the
    range of finite numbers, [paymentsLeft] is the ceiling of the quotient
    balance / payment amount as binary64 division yields it, rounded to
    nearest: it is the ceiling of the exact quotient of the two numbers or
    one less (the quotient at most 2^52 in magnitude).  When the two clock
    reads fall in the same month, the projection is today's date plus
    [paymentsLeft * 15] days if that day, at the time of the second read,
    is within 8.64e15 ms of the epoch, and "Invalid Date" otherwise; the
    weekday schedule has no part in it.  A balance of 300.00 with a payment
    amount of 20.00 gives 15 payments and today plus 225 days. *)
Theorem estimatedFinishDate_spec (LocalTZA : Z) (monthStart : Z -> Z)
    (now now' : Dayjs.t) (st : AppState) :
  (0 < presetPaymentAmount st)%Q ->
  Double.finite (accountBalance st / presetPaymentAmount st) ->
  let exact := (accountBalance st / presetPaymentAmount st)%Q in
  let n := paymentsLeft st in
  let finish := Dayjs.parse (Dayjs.date now + n * 15)
                + now' mod Dayjs.MILLISECONDS_A_DAY in
  (inject_Z (n - 1) < Double.round exact)%Q
  /\ (Double.round exact <= inject_Z n)%Q
  /\ ((Qabs exact <= 2 ^ 52)%Q -> Qceiling exact - 1 <= n <= Qceiling exact)
  /\ (sameMonthReads LocalTZA monthStart now now' ->
      estimatedFinishDate LocalTZA monthStart now now' st
      = match TimeClip (finish - LocalTZA) with
        | Some _ => LocaleDate (Dayjs.date now + n * 15)
        | None => InvalidDate
        end)
  /\ (forall days,
        estimatedFinishDate LocalTZA monthStart now now' (setPaymentDays days st)
        = estimatedFinishDate LocalTZA monthStart now now' st)
  /\ ((accountBalance st == 300)%Q -> (presetPaymentAmount st == 20)%Q ->
      n = 15
      /\ (sameMonthReads LocalTZA monthStart now now' ->
          Z.abs (Dayjs.parse (Dayjs.date now + 225)
                 + now' mod Dayjs.MILLISECONDS_A_DAY - LocalTZA)
          <= 8640000000000000 ->
          estimatedFinishDate LocalTZA monthStart now now' st
          = LocaleDate (Dayjs.date now + 225))).
Proof.
  intros Hpos _. cbv zeta.
  split; [apply Qceiling_lt |]. split; [apply Qle_ceiling |].
  split; [apply Qceiling_round |].
  split; [now apply estimatedFinishDate_projection |].
  split; [reflexivity |].
  intros Hb Hp.
  assert (Hn : paymentsLeft st = 15%Z).
  { unfold paymentsLeft, Double.div.
    rewrite (round_comp _ 15) by (rewrite Hb, Hp; reflexivity).
    reflexivity. }
  split; [exact Hn |].
  intros Hreads Hr.
  rewrite estimatedFinishDate_projection by assumption.
  rewrite Hn. change (15 * 15) with 225. unfold TimeClip.
  apply Z.leb_le in Hr. now rewrite Hr.
Qed.

(** The scenario of section 8, on Monday 5 January 1970 in Panama. *)
Lemma estimatedFinishDate_spec_witness :
  ((0 < presetPaymentAmount (stateWith MonToFri []))%Q
   /\ Double.finite (accountBalance (stateWith MonToFri [])
                     / presetPaymentAmount (stateWith MonToFri []))
   /\ sameMonthReads panama january1970 mondayNoon mondayNoon)
  /\ paymentsLeft (stateWith MonToFri []) = 15
  /\ estimatedFinishDate panama january1970 mondayNoon mondayNoon
       (stateWith MonToFri [])
     = LocaleDate (4 + 225).
Proof.
  assert (Hpos : (0 < presetPaymentAmount (stateWith MonToFri []))%Q)
    by reflexivity.
  assert (Hfin : Double.finite (accountBalance (stateWith MonToFri [])
                                / presetPaymentAmount (stateWith MonToFri [])))
    by (vm_compute; reflexivity).
  assert (Hreads : sameMonthReads panama january1970 mondayNoon mondayNoon)
    by (vm_compute; repeat split; discriminate).
  split; [repeat split; try assumption; apply Hreads |].
  destruct (proj2 (proj2 (proj2 (proj2 (proj2
              (estimatedFinishDate_spec panama january1970 mondayNoon mondayNoon
                 (stateWith MonToFri []) Hpos Hfin)))))
              (Qeq_refl _) (Qeq_refl _)) as [Hn Hdate].
  split; [exact Hn |].
  apply Hdate; [exact Hreads | vm_compute; discriminate].
Defined.

(** C7.  With a payment amount of 0 or less the projector answers "N/A": the
    guard returns before the quotient is formed, so no finish date, finite or
    not, is projected. *)
Theorem estimatedFinishDate_NA (LocalTZA : Z) (monthStart : Z -> Z)
    (now now' : Dayjs.t) (st : AppState) :
  (presetPaymentAmount st <= 0)%Q ->
  estimatedFinishDate LocalTZA monthStart now now' st = NA.
Proof.
  intros Hle. unfold estimatedFinishDate.
  apply Qle_bool_iff in Hle. now rewrite Hle.
Qed.

Lemma estimatedFinishDate_NA_witness :
  (presetPaymentAmount (setPresetPaymentAmount 0 (stateWith MonToFri [])) <= 0)%Q
  /\ estimatedFinishDate panama january1970 mondayNoon mondayNoon
       (setPresetPaymentAmount 0 (stateWith MonToFri [])) = NA.
Proof.
  assert (H : (presetPaymentAmount
                 (setPresetPaymentAmount 0 (stateWith MonToFri [])) <= 0)%Q)
    by discriminate.
  split; [exact H |].
  exact (estimatedFinishDate_NA panama january1970 mondayNoon mondayNoon
           (setPresetPaymentAmount 0 (stateWith MonToFri [])) H).
Defined.

(** ** Days until the deadline *)

(** At noon on the eve of the deadline the difference of the two calendar
    dates is 1, and [getDaysUntilDeadline] answers 0: a day is counted once 24
    hours of it lie between the clock reading and the deadline's midnight. *)
Lemma getDaysUntilDeadline_calendar_counterexample :
  getDaysUntilDeadline (Dayjs.parse 4 + noon) 5
  <> daysUntilDeadline_spec (Dayjs.date (Dayjs.parse 4 + noon)) 5.
Proof. vm_compute. discriminate. Qed.

Lemma getDaysUntilDeadline_midnight (now : Dayjs.t) (endDate : Z) :
  now mod Dayjs.MILLISECONDS_A_DAY = 0 ->
  getDaysUntilDeadline now endDate
  = daysUntilDeadline_spec (Dayjs.date now) endDate.
Proof.
  unfold getDaysUntilDeadline, daysUntilDeadline_spec. cbv zeta.
  unfold_dayjs. intros H. Z.to_euclidean_division_equations. nia.
Qed.

Lemma getDaysUntilDeadline_later (now : Dayjs.t) (endDate : Z) :
  now mod Dayjs.MILLISECONDS_A_DAY <> 0 ->
  getDaysUntilDeadline now endDate
  = Z.max 0 (endDate - Dayjs.date now - 1).
Proof.
  unfold getDaysUntilDeadline. cbv zeta.
  unfold_dayjs. intros H. Z.to_euclidean_division_equations. nia.
Qed.

Lemma getDaysUntilDeadline_antitone (now later : Dayjs.t) (endDate : Z) :
  now <= later ->
  getDaysUntilDeadline later endDate <= getDaysUntilDeadline now endDate.
Proof.
  unfold getDaysUntilDeadline. cbv zeta.
  unfold_dayjs. intros H. Z.to_euclidean_division_equations. nia.
Qed.

(** C5, amended.  [getDaysUntilDeadline] is the number of whole 24-hour days
    from the clock reading to the midnight that starts the deadline date,
    clamped at 0, and involves no weekday: read exactly at midnight it is the
    difference of the two calendar dates, read at any later time of day it is
    that difference less one.  It never grows when the clock reading moves one
    day on, it is never negative, and it is 0 whenever today's date is the
    deadline date or a later one. *)
Theorem getDaysUntilDeadline_spec (now : Dayjs.t) (endDate : Z) :
  (now mod Dayjs.MILLISECONDS_A_DAY = 0 ->
   getDaysUntilDeadline now endDate = Z.max 0 (endDate - Dayjs.date now))
  /\ (now mod Dayjs.MILLISECONDS_A_DAY <> 0 ->
      getDaysUntilDeadline now endDate = Z.max 0 (endDate - Dayjs.date now - 1))
  /\ getDaysUntilDeadline (Dayjs.add 1 now) endDate
     <= getDaysUntilDeadline now endDate
  /\ 0 <= getDaysUntilDeadline now endDate
  /\ (endDate <= Dayjs.date now -> getDaysUntilDeadline now endDate = 0).
Proof.
  split; [apply getDaysUntilDeadline_midnight |].
  split; [apply getDaysUntilDeadline_later |].
  split.
  { apply getDaysUntilDeadline_antitone. unfold_dayjs. lia. }
  split; [apply Z.le_max_l |].
  intros Hle.
  destruct (Z.eq_dec (now mod Dayjs.MILLISECONDS_A_DAY) 0) as [E | E].
  - rewrite getDaysUntilDeadline_midnight by assumption.
    unfold daysUntilDeadline_spec. lia.
  - rewrite getDaysUntilDeadline_later by assumption. lia.
Qed.

(** Ten days ahead at midnight, nine at noon, none once the deadline date
    has come. *)
Lemma getDaysUntilDeadline_spec_witness :
  (Dayjs.parse 4 mod Dayjs.MILLISECONDS_A_DAY = 0
   /\ getDaysUntilDeadline (Dayjs.parse 4) 14 = 10)
  /\ (mondayNoon mod Dayjs.MILLISECONDS_A_DAY <> 0
      /\ getDaysUntilDeadline mondayNoon 14 = 9)
  /\ (4 <= Dayjs.date mondayNoon /\ getDaysUntilDeadline mondayNoon 4 = 0).
Proof.
  split; [| split].
  - split; [reflexivity |].
    exact (proj1 (getDaysUntilDeadline_spec (Dayjs.parse 4) 14) eq_refl).
  - assert (H : mondayNoon mod Dayjs.MILLISECONDS_A_DAY <> 0) by discriminate.
    split; [exact H |].
    exact (proj1 (proj2 (getDaysUntilDeadline_spec mondayNoon 14)) H).
  - assert (H : 4 <= Dayjs.date mondayNoon) by discriminate.
    split; [exact H |].
    exact (proj2 (proj2 (proj2 (proj2 (getDaysUntilDeadline_spec mondayNoon 4)))) H).
Defined.

(** ** Currency conversion *)

Lemma Qfloor_unique (x : Q) (z : Z) :
  (inject_Z z <= x)%Q -> (x < inject_Z (z + 1))%Q -> Qfloor x = z.
Proof.
  intros Hle Hlt.
  pose proof (Qfloor_le x) as Hf1. pose proof (Qlt_floor x) as Hf2.
  assert (H1 : (inject_Z z < inject_Z (Qfloor x + 1))%Q)
    by (eapply Qle_lt_trans; eassumption).
  assert (H2 : (inject_Z (Qfloor x) < inject_Z (z + 1))%Q)
    by (eapply Qle_lt_trans; eassumption).
  rewrite <- Zlt_Qlt in H1, H2. lia.
Qed.

Lemma Math_round_Z (z : Z) : Math_round (inject_Z z) = z.
Proof.
  unfold Math_round.
  pose proof (Qfloor_le (inject_Z z + (1 # 2))) as Hle.
  pose proof (Qlt_floor (inject_Z z + (1 # 2))) as Hlt.
  remember (Qfloor (inject_Z z + (1 # 2))) as f eqn:Hf. clear Hf.
  unfold Qle, Qlt in *. cbn in *. lia.
Qed.

Lemma Math_round_bounds (x : Q) :
  (inject_Z (Math_round x) - (1 # 2) <= x)%Q
  /\ (x < inject_Z (Math_round x) + (1 # 2))%Q.
Proof.
  unfold Math_round.
  pose proof (Qfloor_le (x + (1 # 2))) as Hle.
  pose proof (Qlt_floor (x + (1 # 2))) as Hlt.
  remember (Qfloor (x + (1 # 2))) as f eqn:Hf. clear Hf.
  rewrite inject_Z_plus in Hlt.
  split.
  - apply Qplus_le_l with (z := 1 # 2). ring_simplify. exact Hle.
  - apply Qplus_lt_l with (z := 1 # 2). ring_simplify.
    ring_simplify in Hlt. exact Hlt.
Qed.

Lemma Math_round_le (x y : Q) : (x <= y)%Q -> Math_round x <= Math_round y.
Proof.
  intros H. unfold Math_round. apply Qfloor_resp_le.
  now apply Qplus_le_l.
Qed.

Lemma Math_round_comp (x y : Q) : (x == y)%Q -> Math_round x = Math_round y.
Proof. intros H. unfold Math_round. now rewrite H. Qed.

(** A number within a quarter of an integer rounds to it. *)
Lemma Math_round_near (x : Q) (m : Z) :
  (inject_Z m - (1 # 4) <= x)%Q -> (x <= inject_Z m + (1 # 4))%Q ->
  Math_round x = m.
Proof.
  intros Hlo Hhi. unfold Math_round. apply Qfloor_unique.
  - lra.
  - rewrite inject_Z_plus. change (inject_Z 1) with 1%Q. lra.
Qed.

Lemma normal_thousandth : (2 ^ (-1022) <= 1 # 2000)%Q.
Proof. apply Qle_bool_iff. vm_compute. reflexivity. Qed.

(** Rounding an amount of at least a thousandth and then its product by
    1000 moves the product by less than a quarter, up to 10^15. *)
Lemma round_mul_1000 (x : Q) :
  (1 # 1000 <= x)%Q -> (x * 1000 <= 1000000000000000)%Q ->
  (x * 1000 - (1 # 4) <= Double.mul (Double.round x) 1000)%Q
  /\ (Double.mul (Double.round x) 1000 <= x * 1000 + (1 # 4))%Q.
Proof.
  intros Hlo Hhi. unfold Double.mul.
  pose proof normal_thousandth as Ht.
  destruct (round_relative_pos x) as [H1 H2]; [lra |].
  unfold Double.unitRoundoff in H1, H2.
  set (y := Double.round x) in *. clearbody y.
  destruct (round_relative_pos (y * 1000)) as [H3 H4]; [lra |].
  unfold Double.unitRoundoff in H3, H4.
  set (z := Double.round (y * 1000)) in *. clearbody z.
  split; lra.
Qed.

Lemma currencyToMilliunits_comp (a b : Q) :
  (a == b)%Q -> currencyToMilliunits a = currencyToMilliunits b.
Proof.
  intros H. unfold currencyToMilliunits, Double.mul.
  now rewrite (round_comp (a * 1000) (b * 1000)) by now rewrite H.
Qed.

Lemma currencyToMilliunits_opp (a : Q) (m : Z) :
  (inject_Z m - (1 # 4) <= Double.mul a 1000)%Q ->
  (Double.mul a 1000 <= inject_Z m + (1 # 4))%Q ->
  currencyToMilliunits a = m /\ currencyToMilliunits (- a) = - m.
Proof.
  intros Hlo Hhi. split; [now apply Math_round_near |].
  unfold currencyToMilliunits, Double.mul in *.
  rewrite (round_comp (- a * 1000) (- (a * 1000))) by ring.
  rewrite (Math_round_comp _ _ (round_opp (a * 1000))).
  apply Math_round_near; rewrite inject_Z_opp; lra.
Qed.

(** The minor units of the binary64 value nearest to a number of
    thousandths, of either sign, up to 10^15 thousandths. *)
Lemma currencyToMilliunits_round (x : Q) (m : Z) :
  Z.abs m <= 1000000000000000 -> (x * 1000 == inject_Z m)%Q ->
  currencyToMilliunits (Double.round x) = m.
Proof.
  intros Hm Hx.
  destruct (Z.lt_trichotomy m 0) as [Hneg | [-> | Hpos]].
  - assert (Hx' : (- x * 1000 == inject_Z (- m))%Q)
      by (rewrite inject_Z_opp, <- Hx; ring).
    assert (H1 : (1 # 1000 <= - x)%Q).
    { assert (H : (inject_Z 1 <= inject_Z (- m))%Q) by (rewrite <- Zle_Qle; lia).
      change (inject_Z 1) with 1%Q in H. lra. }
    assert (H2 : (- x * 1000 <= 1000000000000000)%Q).
    { rewrite Hx'. change 1000000000000000%Q with (inject_Z 1000000000000000).
      rewrite <- Zle_Qle. lia. }
    destruct (round_mul_1000 (- x) H1 H2) as [Hlo Hhi].
    rewrite Hx' in Hlo, Hhi.
    destruct (currencyToMilliunits_opp (Double.round (- x)) (- m) Hlo Hhi)
      as [_ H].
    rewrite (currencyToMilliunits_comp (Double.round x) (- Double.round (- x)))
      by (rewrite round_opp; ring).
    rewrite H. lia.
  - assert (H0 : (x == 0)%Q) by (change (inject_Z 0) with 0%Q in Hx; lra).
    now rewrite (round_0 x H0).
  - assert (H1 : (1 # 1000 <= x)%Q).
    { assert (H : (inject_Z 1 <= inject_Z m)%Q) by (rewrite <- Zle_Qle; lia).
      change (inject_Z 1) with 1%Q in H. lra. }
    assert (H2 : (x * 1000 <= 1000000000000000)%Q).
    { rewrite Hx. change 1000000000000000%Q with (inject_Z 1000000000000000).
      rewrite <- Zle_Qle. lia. }
    destruct (round_mul_1000 x H1 H2) as [Hlo Hhi].
    rewrite Hx in Hlo, Hhi.
    exact (proj1 (currencyToMilliunits_opp (Double.round x) m Hlo Hhi)).
Qed.

(** The binary64 arithmetic at work: 2.01 * 1000 is 2009.9999999999998, which
    [Math.round] brings back to 2010; a floor would not. *)
Example currencyToMilliunits_2_01 :
  (Double.mul (decimal 201 100) 1000 < 2010)%Q
  /\ currencyToMilliunits (decimal 201 100) = 2010
  /\ Qfloor (Double.mul (decimal 201 100) 1000) = 2009.
Proof. vm_compute. repeat split. Qed.

(** C9.  For every amount [y] of whole cents from 0 to 10^9, held as the
    binary64 value nearest to it, [currencyToMilliunits] yields ten times
    the number of cents, exactly, and [milliunitsToCurrency] of that is the
    very number [y] again: the round trip reproduces [y], to two decimal
    places and beyond. *)
Theorem currency_round_trip (cents : Z) :
  0 <= cents <= 100000000000 ->
  let y := Double.round (inject_Z cents / 100) in
  currencyToMilliunits y = 10 * cents
  /\ milliunitsToCurrency (currencyToMilliunits y) = y.
Proof.
  intros Hc. cbv zeta.
  assert (Hr : currencyToMilliunits (Double.round (inject_Z cents / 100))
               = 10 * cents).
  { apply currencyToMilliunits_round; [lia |].
    rewrite inject_Z_mult. field. }
  split; [exact Hr |].
  rewrite Hr. unfold milliunitsToCurrency, Double.div.
  apply round_comp. rewrite inject_Z_mult. field.
Qed.

(** 19.99 is 19990 minor units, 2.01 is 2010. *)
Lemma currency_round_trip_witness :
  (0 <= 1999 <= 100000000000
   /\ currencyToMilliunits (decimal 1999 100) = 19990
   /\ milliunitsToCurrency 19990 = decimal 1999 100)
  /\ (0 <= 201 <= 100000000000
      /\ currencyToMilliunits (decimal 201 100) = 2010).
Proof.
  assert (H1 : 0 <= 1999 <= 100000000000) by lia.
  assert (H2 : 0 <= 201 <= 100000000000) by lia.
  split.
  - split; [exact H1 |].
    pose proof (currency_round_trip 1999 H1) as [Ha Hb].
    split; [exact Ha |]. rewrite Ha in Hb. exact Hb.
  - split; [exact H2 |]. exact (proj1 (currency_round_trip 201 H2)).
Defined.

(** ** The sort of the history reconciler *)

Section ArraySortFacts.
Context {A : Type}.
Variable compareFn : A -> A -> Z.

Lemma sort_insert_perm (x : A) (l : list A) :
  Permutation (sort_insert compareFn x l) (x :: l).
Proof.
  induction l as [| y l IH]; cbn [sort_insert].
  - apply Permutation_refl.
  - destruct (compareFn x y <=? 0).
    + apply Permutation_refl.
    + apply perm_trans with (y :: x :: l).
      * now apply perm_skip.
      * apply perm_swap.
Qed.

Lemma Array_sort_perm (l : list A) : Permutation (Array_sort compareFn l) l.
Proof.
  induction l as [| x l IH]; cbn [Array_sort].
  - apply perm_nil.
  - apply perm_trans with (x :: Array_sort compareFn l).
    + apply sort_insert_perm.
    + now apply perm_skip.
Qed.

(** The comparator orders by a key, largest key first. *)
Variable key : A -> Z.
Hypothesis compareFn_key : forall x y, compareFn x y <= 0 <-> key y <= key x.

Lemma sort_insert_sorted (x : A) (l : list A) :
  StronglySorted (descending key) l ->
  StronglySorted (descending key) (sort_insert compareFn x l).
Proof.
  induction 1 as [| y l Hl IH Hy]; cbn [sort_insert].
  - repeat constructor.
  - destruct (Z.leb_spec (compareFn x y) 0) as [Hc | Hc].
    + apply compareFn_key in Hc.
      constructor; [now constructor |].
      constructor; [exact Hc |].
      eapply Forall_impl; [| exact Hy].
      unfold descending. intros z Hz. lia.
    + assert (Hxy : key x < key y).
      { apply Z.nle_gt. intros H. apply compareFn_key in H. lia. }
      constructor; [exact IH |].
      apply (Permutation_Forall (Permutation_sym (sort_insert_perm x l))).
      constructor; [unfold descending; lia | exact Hy].
Qed.

Lemma Array_sort_sorted (l : list A) :
  StronglySorted (descending key) (Array_sort compareFn l).
Proof.
  induction l as [| x l IH]; cbn [Array_sort].
  - constructor.
  - now apply sort_insert_sorted.
Qed.

(** The sort is stable: records with the same key keep their order. *)
Lemma sort_insert_stable (k : Z) (x : A) (l : list A) :
  filter (fun z => key z =? k) (sort_insert compareFn x l)
  = filter (fun z => key z =? k) (x :: l).
Proof.
  induction l as [| y l IH]; cbn [sort_insert]; [reflexivity |].
  destruct (Z.leb_spec (compareFn x y) 0) as [Hc | Hc]; [reflexivity |].
  assert (Hxy : key x < key y).
  { apply Z.nle_gt. intros H. apply compareFn_key in H. lia. }
  cbn [filter] in *. rewrite IH.
  destruct (Z.eqb_spec (key x) k), (Z.eqb_spec (key y) k);
    try reflexivity; lia.
Qed.

Lemma Array_sort_stable (k : Z) (l : list A) :
  filter (fun z => key z =? k) (Array_sort compareFn l)
  = filter (fun z => key z =? k) l.
Proof.
  induction l as [| x l IH]; cbn [Array_sort]; [reflexivity |].
  rewrite sort_insert_stable. cbn [filter]. now rewrite IH.
Qed.

Lemma StronglySorted_app_cross (l1 l2 : list A) :
  StronglySorted (descending key) (l1 ++ l2) ->
  forall a b, In a l1 -> In b l2 -> key b <= key a.
Proof.
  induction l1 as [| x l1 IH]; cbn [app]; intros Hs a b Ha Hb.
  - destruct Ha.
  - apply StronglySorted_inv in Hs. destruct Hs as [Hs Hx].
    destruct Ha as [<- | Ha].
    + rewrite Forall_forall in Hx. apply Hx, in_or_app. now right.
    + now apply IH.
Qed.

Lemma StronglySorted_app_l (l1 l2 : list A) :
  StronglySorted (descending key) (l1 ++ l2) -> StronglySorted (descending key) l1.
Proof.
  induction l1 as [| x l1 IH]; cbn [app]; intros Hs; [constructor |].
  apply StronglySorted_inv in Hs. destruct Hs as [Hs Hx].
  constructor; [now apply IH |].
  apply Forall_app in Hx. tauto.
Qed.
End ArraySortFacts.

(** Sorting commutes with a map that leaves the outcome of every comparison
    as it is. *)
Lemma Array_sort_map {A B : Type} (f : A -> B) (cmpA : A -> A -> Z)
    (cmpB : B -> B -> Z) :
  (forall x y, (cmpB (f x) (f y) <=? 0) = (cmpA x y <=? 0)) ->
  forall l, map f (Array_sort cmpA l) = Array_sort cmpB (map f l).
Proof.
  intros Hf.
  assert (Hins : forall x l,
             map f (sort_insert cmpA x l) = sort_insert cmpB (f x) (map f l)).
  { intros x l. induction l as [| y l IH]; cbn [sort_insert map]; [reflexivity |].
    rewrite Hf. destruct (cmpA x y <=? 0); cbn [map]; [reflexivity |].
    now rewrite IH. }
  induction l as [| x l IH]; cbn [Array_sort map]; [reflexivity |].
  now rewrite Hins, IH.
Qed.

(** ** The history reconciler *)

Lemma byDateDescending_key (x y : Transaction) :
  byDateDescending x y <= 0 <-> t_date y <= t_date x.
Proof. unfold byDateDescending, Date_getTime. lia. Qed.

Lemma newestFirst_key (x y : PaymentHistoryItem) :
  newestFirst x y <= 0 <-> date y <= date x.
Proof. unfold newestFirst. lia. Qed.

Lemma newestFirst_toPaymentHistoryItem (x y : Transaction) :
  (newestFirst (toPaymentHistoryItem x) (toPaymentHistoryItem y) <=? 0)
  = (byDateDescending x y <=? 0).
Proof.
  apply eq_true_iff_eq. rewrite !Z.leb_le, byDateDescending_key, newestFirst_key.
  reflexivity.
Qed.

(** Sort, slice, map (the code) is convert, sort, truncate (the wording). *)
Lemma paymentTransactions_reconcile (transactions : list Transaction) :
  paymentTransactions transactions = reconcile_spec transactions.
Proof.
  unfold paymentTransactions, reconcile_spec.
  rewrite <- firstn_map. f_equal.
  apply Array_sort_map. intros x y. apply newestFirst_toPaymentHistoryItem.
Qed.

Lemma In_paymentTransactions (transactions : list Transaction)
    (r : PaymentHistoryItem) :
  In r (paymentTransactions transactions) ->
  exists t, In t transactions /\ r = toPaymentHistoryItem t.
Proof.
  unfold paymentTransactions. intros H.
  apply in_map_iff in H. destruct H as [t [<- Ht]].
  exists t. split; [| reflexivity].
  apply (Permutation_in t (Array_sort_perm byDateDescending transactions)).
  rewrite <- (firstn_skipn 20). apply in_or_app. now left.
Qed.

Lemma milliunitsToCurrency_abs_nonneg (z : Z) :
  (0 <= milliunitsToCurrency (Z.abs z))%Q.
Proof.
  unfold milliunitsToCurrency, Double.div. apply round_nonneg.
  apply Qle_shift_div_l; [reflexivity |].
  rewrite Qmult_0_l. change 0%Q with (inject_Z 0).
  rewrite <- Zle_Qle. apply Z.abs_nonneg.
Qed.

(** The binary64 quotient of a whole number of minor units by 1000 is within
    a relative 2^-53 of the exact quotient. *)
Lemma milliunitsToCurrency_abs_error (z : Z) :
  (Qabs (milliunitsToCurrency (Z.abs z) - inject_Z (Z.abs z) / 1000)
   <= Double.unitRoundoff * (inject_Z (Z.abs z) / 1000))%Q.
Proof.
  unfold milliunitsToCurrency, Double.div.
  destruct (Z.eq_dec z 0) as [-> | Hz]; [vm_compute; discriminate |].
  assert (H1 : (1 # 1000 <= inject_Z (Z.abs z) / 1000)%Q).
  { apply Qle_shift_div_l; [reflexivity |].
    assert (H : (inject_Z 1 <= inject_Z (Z.abs z))%Q) by (rewrite <- Zle_Qle; lia).
    change (inject_Z 1) with 1%Q in H.
    setoid_replace ((1 # 1000) * 1000)%Q with 1%Q by reflexivity. exact H. }
  pose proof normal_thousandth as Ht.
  destruct (round_relative_pos (inject_Z (Z.abs z) / 1000)) as [Hlo Hhi]; [lra |].
  set (x := (inject_Z (Z.abs z) / 1000)%Q) in *. clearbody x.
  set (y := Double.round x) in *. clearbody y.
  apply Qabs_Qle_condition. unfold Double.unitRoundoff in *. split; lra.
Qed.

(** C6.  For every sequence of raw transactions the reconciler yields the
    records obtained by converting each amount to a decimal (absolute value
    divided by 1000, the binary64 quotient, within a relative 2^-53 of the
    exact one), sorting by date, newest first, and keeping the first 20: the
    result is in descending date order, has [min 20 n] entries, each the
    conversion of a transaction of the input, and the records left out are
    all dated no later than every record kept. *)
Theorem paymentTransactions_spec (transactions : list Transaction) :
  paymentTransactions transactions = reconcile_spec transactions
  /\ StronglySorted (descending date) (paymentTransactions transactions)
  /\ length (paymentTransactions transactions)
     = Nat.min 20 (length transactions)
  /\ (forall r, In r (paymentTransactions transactions) ->
        exists t, In t transactions
                  /\ date r = t_date t
                  /\ amount r = Double.div (inject_Z (Z.abs (t_amount t))) 1000
                  /\ (Qabs (amount r - inject_Z (Z.abs (t_amount t)) / 1000)
                      <= Double.unitRoundoff
                         * (inject_Z (Z.abs (t_amount t)) / 1000))%Q)
  /\ (exists older,
        Permutation (map toPaymentHistoryItem transactions)
                    (paymentTransactions transactions ++ older)
        /\ forall kept dropped,
             In kept (paymentTransactions transactions) ->
             In dropped older -> date dropped <= date kept).
Proof.
  pose proof (Array_sort_sorted newestFirst date newestFirst_key
                (map toPaymentHistoryItem transactions)) as Hsorted.
  rewrite <- (firstn_skipn 20) in Hsorted.
  split; [apply paymentTransactions_reconcile |].
  split.
  { rewrite paymentTransactions_reconcile. unfold reconcile_spec.
    exact (StronglySorted_app_l date _ _ Hsorted). }
  split.
  { unfold paymentTransactions.
    rewrite length_map, length_firstn.
    now rewrite (Permutation_length (Array_sort_perm byDateDescending transactions)). }
  split.
  { intros r Hr. apply In_paymentTransactions in Hr.
    destruct Hr as [t [Ht ->]]. exists t.
    split; [assumption |]. split; [reflexivity |]. split; [reflexivity |].
    apply milliunitsToCurrency_abs_error. }
  exists (skipn 20 (Array_sort newestFirst (map toPaymentHistoryItem transactions))).
  rewrite paymentTransactions_reconcile. unfold reconcile_spec. split.
  - rewrite firstn_skipn. apply Permutation_sym, Array_sort_perm.
  - intros kept dropped Hk Hd.
    exact (StronglySorted_app_cross date _ _ Hsorted kept dropped Hk Hd).
Qed.

Example paymentTransactions_three :
  map (fun r => (date r, amount r, memo r)) (paymentTransactions threeTransactions)
  = [ (5, 0%Q, Some "sin efectivo"%string);
      (4, (51 # 2)%Q, None);
      (3, 20%Q, None) ].
Proof. vm_compute. reflexivity. Qed.

(** An amount in whole cents that is not a binary64 value: 20.10 is held
    as the nearest one, a little above. *)
Example toPaymentHistoryItem_20_10 :
  amount (toPaymentHistoryItem (mkTransaction 3 (-20100) "cleared" None))
  = decimal 201 10
  /\ (201 # 10 < decimal 201 10)%Q.
Proof. vm_compute. split; reflexivity. Qed.

Lemma paymentTransactions_spec_witness :
  In (toPaymentHistoryItem (mkTransaction 3 (-20000) "cleared" None))
     (paymentTransactions threeTransactions)
  /\ exists t, In t threeTransactions
               /\ date (toPaymentHistoryItem
                          (mkTransaction 3 (-20000) "cleared" None)) = t_date t
               /\ amount (toPaymentHistoryItem
                            (mkTransaction 3 (-20000) "cleared" None))
                  = Double.div (inject_Z (Z.abs (t_amount t))) 1000.
Proof.
  assert (Hin : In (toPaymentHistoryItem (mkTransaction 3 (-20000) "cleared" None))
                   (paymentTransactions threeTransactions))
    by (right; right; left; vm_compute; reflexivity).
  split; [exact Hin |].
  destruct (proj1 (proj2 (proj2 (proj2
              (paymentTransactions_spec threeTransactions)))) _ Hin)
    as [t [Ht [Hd [Ha _]]]].
  exists t. split; [exact Ht |]. split; [exact Hd | exact Ha].
Defined.

(** C10.  Every record the reconciler produces has an amount of at least 0,
    so on a reconciled record the [amount >= 0] test of the deadline counter's
    filter and of the status classifier's today-test always succeeds: each
    test comes down to its conditions on the date and the weekday. *)
Theorem paymentTransactions_amount_nonneg (transactions : list Transaction) :
  Forall (fun r => (0 <= amount r)%Q) (paymentTransactions transactions)
  /\ (forall r now endDate paymentDays,
        In r (paymentTransactions transactions) ->
        isPaidDay now (Dayjs.parse endDate) paymentDays r
        = Dayjs.isAfter (Dayjs.parse (date r)) (Dayjs.subtract 1 now)
          && Dayjs.isBefore (Dayjs.parse (date r))
               (Dayjs.add 1 (Dayjs.parse endDate))
          && includes paymentDays (Dayjs.day (Dayjs.parse (date r))))
  /\ (forall r todayString,
        In r (paymentTransactions transactions) ->
        isPaymentToday todayString r = (date r =? todayString)).
Proof.
  assert (Hnonneg : forall r, In r (paymentTransactions transactions) ->
                              Qle_bool 0 (amount r) = true).
  { intros r Hr. apply In_paymentTransactions in Hr.
    destruct Hr as [t [_ ->]]. apply Qle_bool_iff.
    apply milliunitsToCurrency_abs_nonneg. }
  split; [| split].
  - apply Forall_forall. intros r Hr. apply Qle_bool_iff. now apply Hnonneg.
  - intros r now endDate paymentDays Hr. unfold isPaidDay. cbv zeta.
    rewrite (Hnonneg r Hr). apply andb_true_r.
  - intros r todayString Hr. unfold isPaymentToday.
    rewrite (Hnonneg r Hr). apply andb_true_r.
Qed.

Lemma paymentTransactions_amount_nonneg_witness :
  In (toPaymentHistoryItem (mkTransaction 4 (-25500) "cleared" (Some EmptyString)))
     (paymentTransactions threeTransactions)
  /\ isPaymentToday 4
       (toPaymentHistoryItem (mkTransaction 4 (-25500) "cleared" (Some EmptyString)))
     = true.
Proof.
  assert (Hin : In (toPaymentHistoryItem
                      (mkTransaction 4 (-25500) "cleared" (Some EmptyString)))
                   (paymentTransactions threeTransactions))
    by (right; left; reflexivity).
  split; [exact Hin |].
  exact (proj2 (proj2 (paymentTransactions_amount_nonneg threeTransactions))
           _ 4 Hin).
Defined.

(** ** Currency conversion, the other way round *)

(** A whole number of minor units as large as 4 402 329 568 075 817 comes
    back one unit larger. *)
Example currencyToMilliunits_milliunitsToCurrency_large :
  currencyToMilliunits (milliunitsToCurrency 4402329568075817)
  = 4402329568075818.
Proof. vm_compute. reflexivity. Qed.

(** X1.  A whole number of minor units of at most 10^15 in magnitude
    survives the conversion to a decimal amount and back unchanged, whatever
    its sign. *)
Theorem currencyToMilliunits_milliunitsToCurrency (milliunits : Z) :
  Z.abs milliunits <= 1000000000000000 ->
  currencyToMilliunits (milliunitsToCurrency milliunits) = milliunits.
Proof.
  intros H. unfold milliunitsToCurrency, Double.div.
  apply currencyToMilliunits_round; [exact H | field].
Qed.

Lemma currencyToMilliunits_milliunitsToCurrency_witness :
  Z.abs (-25500) <= 1000000000000000
  /\ currencyToMilliunits (milliunitsToCurrency (-25500)) = -25500.
Proof.
  assert (H : Z.abs (-25500) <= 1000000000000000) by (cbn; lia).
  split; [exact H |].
  exact (currencyToMilliunits_milliunitsToCurrency (-25500) H).
Defined.

(** Conversion to minor units and back moves an amount of at most 10^9 in
    magnitude by half a minor unit and three roundings at most. *)
Lemma round_trip_error (y : Q) :
  (Qabs y <= 1000000000)%Q ->
  (Qabs (milliunitsToCurrency (currencyToMilliunits y) - y)
   <= 501 # 1000000)%Q.
Proof.
  intros Hy. apply Qabs_Qle_condition in Hy. destruct Hy as [Hy1 Hy2].
  unfold milliunitsToCurrency, currencyToMilliunits, Double.div, Double.mul.
  assert (H40 : (2 ^ 40 == 1099511627776)%Q) by reflexivity.
  assert (H30 : (2 ^ 30 == 1073741824)%Q) by reflexivity.
  assert (H13 : (2 ^ (40 - 53) == 1 # 8192)%Q) by reflexivity.
  assert (H23 : (2 ^ (30 - 53) == 1 # 8388608)%Q) by reflexivity.
  assert (HP : (Qabs (y * 1000) <= 2 ^ 40)%Q)
    by (apply Qabs_Qle_condition; split; lra).
  destruct (round_error_le (y * 1000) 40 ltac:(lia) HP) as [Hz1 Hz2].
  rewrite H13 in Hz1, Hz2.
  set (z := Double.round (y * 1000)) in *. clearbody z.
  destruct (Math_round_bounds z) as [Hc1 Hc2].
  set (c := inject_Z (Math_round z)) in *. clearbody c.
  assert (Hq : (c / 1000 * 1000 == c)%Q) by field.
  set (q := (c / 1000)%Q) in *. clearbody q.
  assert (HQ : (Qabs q <= 2 ^ 30)%Q)
    by (apply Qabs_Qle_condition; split; lra).
  destruct (round_error_le q 30 ltac:(lia) HQ) as [Hb1 Hb2].
  rewrite H23 in Hb1, Hb2.
  set (back := Double.round q) in *. clearbody back.
  apply Qabs_Qle_condition. split; lra.
Qed.

(** The product of the double 1.0004999999999999 by 1000 rounds to 1000.5,
    and the code answers 1001 although 1000 is the integer nearest to a
    thousand times the amount. *)
Example currencyToMilliunits_1_0005 :
  currencyToMilliunits (decimal 10004999999999999 10000000000000000) = 1001
  /\ Math_round (decimal 10004999999999999 10000000000000000 * 1000) = 1000.
Proof. vm_compute. split; reflexivity. Qed.

(** X2.  [currencyToMilliunits] picks the integer nearest to the binary64
    product of the amount by 1000, a tie going to the larger one; that
    product is within a relative 2^-53 of the exact one (in the normal
    range), and the result never decreases when the amount grows.
    Converting the result back gives the amount to within half a minor unit
    and the three roundings, 0.000501 for amounts up to 10^9 in magnitude.
    The products are taken within the range of finite numbers. *)
Theorem currencyToMilliunits_nearest (y : Q) :
  Double.finite (y * 1000) ->
  let product := Double.mul y 1000 in
  (inject_Z (currencyToMilliunits y) - (1 # 2) <= product)%Q
  /\ (product < inject_Z (currencyToMilliunits y) + (1 # 2))%Q
  /\ ((2 ^ (-1022) <= Qabs (y * 1000))%Q ->
      (Qabs (product - y * 1000)
       <= Double.unitRoundoff * Qabs (y * 1000))%Q)
  /\ ((Qabs y <= 1000000000)%Q ->
      (Qabs (milliunitsToCurrency (currencyToMilliunits y) - y)
       <= 501 # 1000000)%Q)
  /\ (forall y', Double.finite (y' * 1000) -> (y <= y')%Q ->
                 currencyToMilliunits y <= currencyToMilliunits y').
Proof.
  intros _. cbv zeta.
  pose proof (Math_round_bounds (Double.mul y 1000)) as [Hlo Hhi].
  split; [exact Hlo |]. split; [exact Hhi |]. split; [| split].
  - intros Hn. unfold Double.mul.
    destruct (round_relative (y * 1000) Hn) as [H1 H2].
    apply Qabs_Qle_condition. split; lra.
  - apply round_trip_error.
  - intros y' _ Hy. unfold currencyToMilliunits, Double.mul.
    apply Math_round_le, round_le.
    apply Qmult_le_compat_r; [exact Hy | discriminate].
Qed.

(** A tie goes up: 0.0025 is 3 minor units, -0.0025 is -2. *)
Lemma currencyToMilliunits_nearest_witness :
  (Double.finite (decimal 25 10000 * 1000)
   /\ Double.finite (decimal 26 10000 * 1000)
   /\ (decimal 25 10000 <= decimal 26 10000)%Q)
  /\ currencyToMilliunits (decimal 25 10000) = 3
  /\ currencyToMilliunits (- decimal 25 10000) = -2
  /\ currencyToMilliunits (decimal 25 10000)
     <= currencyToMilliunits (decimal 26 10000).
Proof.
  assert (H1 : Double.finite (decimal 25 10000 * 1000))
    by (vm_compute; reflexivity).
  assert (H2 : Double.finite (decimal 26 10000 * 1000))
    by (vm_compute; reflexivity).
  assert (H : (decimal 25 10000 <= decimal 26 10000)%Q)
    by (vm_compute; discriminate).
  split; [repeat split; assumption |].
  split; [vm_compute; reflexivity |]. split; [vm_compute; reflexivity |].
  exact (proj2 (proj2 (proj2 (proj2
           (currencyToMilliunits_nearest (decimal 25 10000) H1))))
           (decimal 26 10000) H2 H).
Defined.

(** ** The deadline counter, further *)

Lemma totalScheduledDays_le_range (today deadline : Z) (ws : list Z) :
  totalScheduledDays today deadline ws <= Z.max 0 (deadline - today + 1).
Proof.
  unfold totalScheduledDays, dateRange.
  pose proof (filter_length_le (fun d => isScheduledDay d ws)
                (map (fun i => today + Z.of_nat i)
                     (seq 0 (Z.to_nat (deadline - today + 1))))) as H.
  rewrite length_map, length_seq in H. lia.
Qed.

Lemma calculatePaymentDaysRemaining_eq (now : Dayjs.t) (endDate : Z)
    (paymentDays : list Z) (history : list PaymentHistoryItem) :
  calculatePaymentDaysRemaining now endDate paymentDays history
  = Z.max 0 (totalScheduledDays (Dayjs.date now) endDate paymentDays
             - satisfiedDays (Dayjs.date now) endDate paymentDays history).
Proof.
  unfold calculatePaymentDaysRemaining. cbv zeta.
  now rewrite countPaymentDays_total, paidDays_satisfiedDays.
Qed.

(** X3.  The deadline counter looks at the calendar date of the clock
    reading only: any two readings on the same day give the same count. *)
Theorem calculatePaymentDaysRemaining_same_day (now now' : Dayjs.t)
    (endDate : Z) (paymentDays : list Z) (history : list PaymentHistoryItem) :
  Dayjs.date now = Dayjs.date now' ->
  calculatePaymentDaysRemaining now endDate paymentDays history
  = calculatePaymentDaysRemaining now' endDate paymentDays history.
Proof.
  intros H. rewrite !calculatePaymentDaysRemaining_eq. now rewrite H.
Qed.

Lemma calculatePaymentDaysRemaining_same_day_witness :
  Dayjs.date (Dayjs.parse 4) = Dayjs.date (Dayjs.parse 4 + 86399999)
  /\ calculatePaymentDaysRemaining (Dayjs.parse 4) 8 MonToFri [payment 4 20]
     = calculatePaymentDaysRemaining (Dayjs.parse 4 + 86399999) 8 MonToFri
         [payment 4 20].
Proof.
  assert (H : Dayjs.date (Dayjs.parse 4) = Dayjs.date (Dayjs.parse 4 + 86399999))
    by reflexivity.
  split; [exact H |].
  exact (calculatePaymentDaysRemaining_same_day _ _ 8 MonToFri [payment 4 20] H).
Defined.

(** X4.  The count is at most the number of scheduled dates left, which is at
    most the number of calendar dates from today to the deadline; one more
    record in the history, wherever it is put, never raises the count and
    lowers it by one at most. *)
Theorem calculatePaymentDaysRemaining_bounds (now : Dayjs.t) (endDate : Z)
    (paymentDays : list Z) (h1 h2 : list PaymentHistoryItem)
    (r : PaymentHistoryItem) :
  calculatePaymentDaysRemaining now endDate paymentDays (h1 ++ h2)
  <= totalScheduledDays (Dayjs.date now) endDate paymentDays
  /\ totalScheduledDays (Dayjs.date now) endDate paymentDays
     <= Z.max 0 (endDate - Dayjs.date now + 1)
  /\ calculatePaymentDaysRemaining now endDate paymentDays (h1 ++ r :: h2)
     <= calculatePaymentDaysRemaining now endDate paymentDays (h1 ++ h2)
  /\ calculatePaymentDaysRemaining now endDate paymentDays (h1 ++ h2) - 1
     <= calculatePaymentDaysRemaining now endDate paymentDays (h1 ++ r :: h2).
Proof.
  pose proof (totalScheduledDays_nonneg (Dayjs.date now) endDate paymentDays).
  pose proof (totalScheduledDays_le_range (Dayjs.date now) endDate paymentDays).
  pose proof (paidDays_nonneg now endDate paymentDays h1).
  pose proof (paidDays_nonneg now endDate paymentDays h2).
  unfold calculatePaymentDaysRemaining. cbv zeta.
  rewrite countPaymentDays_total, !paidDays_app, paidDays_cons.
  destruct (isPaidDay now (Dayjs.parse endDate) paymentDays r); lia.
Qed.

Lemma filter_length_perm {A : Type} (f : A -> bool) (l l' : list A) :
  Permutation l l' -> length (filter f l) = length (filter f l').
Proof.
  induction 1 as [| x l l' _ IH | x y l | l l' l'' _ IH1 _ IH2]; cbn [filter].
  - reflexivity.
  - destruct (f x); cbn [length]; now rewrite IH.
  - destruct (f x), (f y); reflexivity.
  - now rewrite IH1.
Qed.

(** X5.  The order of the history does not matter to the deadline counter:
    two histories with the same records give the same count. *)
Theorem calculatePaymentDaysRemaining_perm (now : Dayjs.t) (endDate : Z)
    (paymentDays : list Z) (h h' : list PaymentHistoryItem) :
  Permutation h h' ->
  calculatePaymentDaysRemaining now endDate paymentDays h
  = calculatePaymentDaysRemaining now endDate paymentDays h'.
Proof.
  intros Hp. unfold calculatePaymentDaysRemaining, paidDays. cbv zeta.
  now rewrite (filter_length_perm _ h h' Hp).
Qed.

Lemma calculatePaymentDaysRemaining_perm_witness :
  Permutation [payment 4 20; payment 5 0] [payment 5 0; payment 4 20]
  /\ calculatePaymentDaysRemaining mondayNoon 8 MonToFri [payment 4 20; payment 5 0]
     = calculatePaymentDaysRemaining mondayNoon 8 MonToFri [payment 5 0; payment 4 20].
Proof.
  assert (H : Permutation [payment 4 20; payment 5 0] [payment 5 0; payment 4 20])
    by apply perm_swap.
  split; [exact H |].
  exact (calculatePaymentDaysRemaining_perm mondayNoon 8 MonToFri _ _ H).
Defined.

Lemma includes_nil (x : Z) : includes [] x = false.
Proof. reflexivity. Qed.

Lemma totalScheduledDays_no_schedule (today deadline : Z) :
  totalScheduledDays today deadline [] = 0.
Proof.
  unfold totalScheduledDays.
  replace (filter (fun d => isScheduledDay d []) (dateRange today deadline))
    with (@nil Z); [reflexivity |].
  induction (dateRange today deadline) as [| d l IH]; [reflexivity |].
  cbn [filter]. unfold isScheduledDay at 1. now rewrite includes_nil.
Qed.

(** X6.  With no scheduled weekday the count is 0 for every history; with an
    empty history it is the number of scheduled dates from today to the
    deadline, and on the deadline date itself that is 1 when today is a
    scheduled weekday and 0 when it is not. *)
Theorem calculatePaymentDaysRemaining_edges (now : Dayjs.t) (endDate : Z)
    (paymentDays : list Z) (history : list PaymentHistoryItem) :
  calculatePaymentDaysRemaining now endDate [] history = 0
  /\ calculatePaymentDaysRemaining now endDate paymentDays []
     = totalScheduledDays (Dayjs.date now) endDate paymentDays
  /\ calculatePaymentDaysRemaining now (Dayjs.date now) paymentDays []
     = (if includes paymentDays (Dayjs.day now) then 1 else 0).
Proof.
  rewrite !calculatePaymentDaysRemaining_eq.
  split; [| split].
  - rewrite totalScheduledDays_no_schedule.
    unfold satisfiedDays. lia.
  - pose proof (totalScheduledDays_nonneg (Dayjs.date now) endDate paymentDays).
    unfold satisfiedDays. cbn [filter length Z.of_nat]. lia.
  - rewrite totalScheduledDays_step by lia.
    rewrite totalScheduledDays_empty by lia.
    unfold satisfiedDays, isScheduledDay. cbn [filter length Z.of_nat].
    rewrite day_weekday. destruct (includes _ _); reflexivity.
Qed.

Lemma weekday_plus (d k : Z) : weekday (d + k) = (weekday d + k) mod 7.
Proof.
  unfold weekday. rewrite Z.add_mod_idemp_l by discriminate.
  f_equal. lia.
Qed.

Lemma totalScheduledDays_split (n : nat) :
  forall a b c ws, Z.of_nat n = b - a + 1 -> b <= c ->
  totalScheduledDays a c ws
  = totalScheduledDays a b ws + totalScheduledDays (b + 1) c ws.
Proof.
  induction n as [| n IH]; intros a b c ws Hn Hbc.
  - rewrite (totalScheduledDays_empty a b) by lia.
    replace (b + 1) with a by lia. reflexivity.
  - rewrite (totalScheduledDays_step a c), (totalScheduledDays_step a b) by lia.
    rewrite (IH (a + 1) b c) by lia. lia.
Qed.

(** Seven consecutive dates carry each weekday once. *)
Lemma totalScheduledDays_week (d : Z) (ws : list Z) :
  totalScheduledDays d (d + 6) ws = scheduledPerWeek ws.
Proof.
  unfold totalScheduledDays, scheduledPerWeek, dateRange.
  replace (Z.to_nat (d + 6 - d + 1)) with 7%nat by lia.
  cbn [seq map Z.of_nat Pos.of_succ_nat Pos.succ].
  unfold isScheduledDay. generalize (includes ws). intros f.
  cbn [filter]. rewrite !weekday_plus.
  assert (Hw : 0 <= weekday d < 7) by (apply Z.mod_pos_bound; lia).
  assert (Hc : weekday d = 0 \/ weekday d = 1 \/ weekday d = 2 \/ weekday d = 3
               \/ weekday d = 4 \/ weekday d = 5 \/ weekday d = 6) by lia.
  destruct Hc as [E | [E | [E | [E | [E | [E | E]]]]]]; rewrite E;
    change ((0 + 0) mod 7) with 0; cbn;
    destruct (f 0), (f 1), (f 2), (f 3), (f 4), (f 5), (f 6); reflexivity.
Qed.

Lemma totalScheduledDays_weeks (k : nat) :
  forall d ws,
  totalScheduledDays d (d + 7 * Z.of_nat k - 1) ws
  = Z.of_nat k * scheduledPerWeek ws.
Proof.
  induction k as [| k IH]; intros d ws.
  - rewrite totalScheduledDays_empty by lia. lia.
  - rewrite (totalScheduledDays_split 7 d (d + 6)) by lia.
    rewrite totalScheduledDays_week.
    replace (d + 7 * Z.of_nat (S k) - 1) with (d + 6 + 1 + 7 * Z.of_nat k - 1) by lia.
    rewrite IH. lia.
Qed.

(** X7.  Over a window of [k] whole weeks starting today, with nothing paid
    yet, the count is [k] times the number of weekday ordinals (0 to 6) the
    schedule holds; entries of the schedule outside 0 to 6 and repeated
    entries count for nothing. *)
Theorem calculatePaymentDaysRemaining_whole_weeks (now : Dayjs.t) (k : Z)
    (paymentDays : list Z) :
  0 <= k ->
  calculatePaymentDaysRemaining now (Dayjs.date now + 7 * k - 1) paymentDays []
  = k * scheduledPerWeek paymentDays.
Proof.
  intros Hk. rewrite calculatePaymentDaysRemaining_eq.
  replace k with (Z.of_nat (Z.to_nat k)) by lia.
  rewrite totalScheduledDays_weeks.
  unfold satisfiedDays, scheduledPerWeek. cbn [filter length Z.of_nat]. nia.
Qed.

(** Four weeks with the schedule 1, 1, 2, 9: two weekdays a week. *)
Lemma calculatePaymentDaysRemaining_whole_weeks_witness :
  0 <= 4
  /\ calculatePaymentDaysRemaining mondayNoon (Dayjs.date mondayNoon + 7 * 4 - 1)
       [1; 1; 2; 9] [] = 8.
Proof.
  assert (H : 0 <= 4) by discriminate.
  split; [exact H |].
  exact (calculatePaymentDaysRemaining_whole_weeks mondayNoon 4 [1; 1; 2; 9] H).
Defined.

Lemma getDaysUntilDeadline_lower (now : Dayjs.t) (endDate : Z) :
  endDate - Dayjs.date now - 1 <= getDaysUntilDeadline now endDate.
Proof.
  destruct (Z.eq_dec (now mod Dayjs.MILLISECONDS_A_DAY) 0) as [E | E].
  - rewrite getDaysUntilDeadline_midnight by assumption.
    unfold daysUntilDeadline_spec. lia.
  - rewrite getDaysUntilDeadline_later by assumption. lia.
Qed.

(** X8.  The two numbers of the deadline display, computed from one clock
    reading, stay close: the payment days remaining never exceed the days
    until the deadline by more than 2, and by more than 1 when the reading
    is exactly midnight. *)
Theorem calculatePaymentDaysRemaining_vs_getDaysUntilDeadline (now : Dayjs.t)
    (endDate : Z) (paymentDays : list Z) (history : list PaymentHistoryItem) :
  calculatePaymentDaysRemaining now endDate paymentDays history
  <= getDaysUntilDeadline now endDate + 2
  /\ (now mod Dayjs.MILLISECONDS_A_DAY = 0 ->
      calculatePaymentDaysRemaining now endDate paymentDays history
      <= getDaysUntilDeadline now endDate + 1).
Proof.
  pose proof (totalScheduledDays_le_range (Dayjs.date now) endDate paymentDays) as Hr.
  pose proof (getDaysUntilDeadline_lower now endDate) as Hl.
  assert (H0 : 0 <= getDaysUntilDeadline now endDate) by apply Z.le_max_l.
  assert (Hs : 0 <= satisfiedDays (Dayjs.date now) endDate paymentDays history)
    by (unfold satisfiedDays; lia).
  rewrite calculatePaymentDaysRemaining_eq. split; [lia |].
  intros Hm. rewrite getDaysUntilDeadline_midnight in * by assumption.
  unfold daysUntilDeadline_spec in *. lia.
Qed.

(** At noon with the deadline tomorrow: two payment days remain and the days
    until the deadline read 0. *)
Lemma calculatePaymentDaysRemaining_vs_getDaysUntilDeadline_witness :
  (calculatePaymentDaysRemaining mondayNoon 5 MonToFri [] = 2
   /\ getDaysUntilDeadline mondayNoon 5 = 0)
  /\ (Dayjs.parse 4 mod Dayjs.MILLISECONDS_A_DAY = 0
      /\ calculatePaymentDaysRemaining (Dayjs.parse 4) 5 MonToFri []
         <= getDaysUntilDeadline (Dayjs.parse 4) 5 + 1).
Proof.
  split; [split; reflexivity |].
  assert (H : Dayjs.parse 4 mod Dayjs.MILLISECONDS_A_DAY = 0) by reflexivity.
  split; [exact H |].
  exact (proj2 (calculatePaymentDaysRemaining_vs_getDaysUntilDeadline
                  (Dayjs.parse 4) 5 MonToFri []) H).
Defined.

Lemma paidDays_In (now : Dayjs.t) (endDate : Z) (paymentDays : list Z)
    (history : list PaymentHistoryItem) (p : PaymentHistoryItem) :
  In p history ->
  isPaidDay now (Dayjs.parse endDate) paymentDays p = true ->
  1 <= paidDays now endDate paymentDays history.
Proof.
  intros Hin Hp. apply in_split in Hin. destruct Hin as [h1 [h2 ->]].
  rewrite paidDays_app, paidDays_cons, Hp.
  pose proof (paidDays_nonneg now endDate paymentDays h1).
  pose proof (paidDays_nonneg now endDate paymentDays h2). lia.
Qed.

Lemma debtStatus_PagoRealizadoHoy (now : Dayjs.t) (st : AppState) :
  debtStatus now st = PagoRealizadoHoy
  <-> includes (paymentDays st) (Dayjs.day now) = true
      /\ madePaymentToday (Dayjs.date now) (paymentHistory st) = true.
Proof.
  rewrite debtStatus_cases.
  destruct (includes (paymentDays st) (Dayjs.day now));
    [destruct (madePaymentToday (Dayjs.date now) (paymentHistory st)) |];
    split; intros H; try tauto; try discriminate H;
    destruct H; discriminate.
Qed.

(** X9.  The status and the deadline counter agree on today's payment: when
    the status reads "payment completed today" and the deadline has not
    passed, at least one scheduled date is left and at least one of them is
    counted as paid. *)
Theorem debtStatus_paid_is_counted (now : Dayjs.t) (endDate : Z) (st : AppState) :
  debtStatus now st = PagoRealizadoHoy ->
  Dayjs.date now <= endDate ->
  1 <= totalScheduledDays (Dayjs.date now) endDate (paymentDays st)
  /\ 1 <= paidDays now endDate (paymentDays st) (paymentHistory st)
  /\ calculatePaymentDaysRemaining now endDate (paymentDays st) (paymentHistory st)
     <= totalScheduledDays (Dayjs.date now) endDate (paymentDays st) - 1.
Proof.
  intros Hs Hle. apply debtStatus_PagoRealizadoHoy in Hs. destruct Hs as [Hd Hp].
  apply madePaymentToday_iff in Hp. destruct Hp as [p [Hin [Hdate Hamt]]].
  assert (Ht : 1 <= totalScheduledDays (Dayjs.date now) endDate (paymentDays st)).
  { rewrite totalScheduledDays_step by assumption.
    unfold isScheduledDay. rewrite <- day_weekday, Hd.
    pose proof (totalScheduledDays_nonneg (Dayjs.date now + 1) endDate (paymentDays st)).
    lia. }
  assert (Hpaid : 1 <= paidDays now endDate (paymentDays st) (paymentHistory st)).
  { apply (paidDays_In _ _ _ _ p Hin). apply isPaidDay_iff.
    rewrite Hdate. repeat split; try lia; try assumption.
    apply includes_In. now rewrite <- day_weekday. }
  split; [exact Ht |]. split; [exact Hpaid |].
  unfold calculatePaymentDaysRemaining. cbv zeta.
  rewrite countPaymentDays_total. lia.
Qed.

Lemma debtStatus_paid_is_counted_witness :
  debtStatus mondayNoon (stateWith MonToFri [payment 4 0]) = PagoRealizadoHoy
  /\ Dayjs.date mondayNoon <= 8
  /\ calculatePaymentDaysRemaining mondayNoon 8 MonToFri [payment 4 0] <= 5 - 1.
Proof.
  assert (H1 : debtStatus mondayNoon (stateWith MonToFri [payment 4 0])
               = PagoRealizadoHoy) by reflexivity.
  assert (H2 : Dayjs.date mondayNoon <= 8) by discriminate.
  split; [exact H1 |]. split; [exact H2 |].
  exact (proj2 (proj2 (debtStatus_paid_is_counted mondayNoon 8
                         (stateWith MonToFri [payment 4 0]) H1 H2))).
Defined.

(** ** The history reconciler, further *)

Lemma firstn_sorted_keeps {A : Type} (key : A -> Z) (k : Z) (x : A) (l : list A) :
  StronglySorted (descending key) l ->
  forall n,
  (length (filter (fun y => (k <=? key y)%Z) l) <= n)%nat ->
  In x l -> k <= key x -> In x (firstn n l).
Proof.
  induction 1 as [| a l Hl IH Ha]; intros n Hn Hin Hk; [destruct Hin |].
  assert (Hka : k <= key a).
  { destruct Hin as [-> | Hin]; [exact Hk |].
    rewrite Forall_forall in Ha. specialize (Ha x Hin).
    unfold descending in Ha. lia. }
  cbn [filter] in Hn. apply Z.leb_le in Hka. rewrite Hka in Hn.
  cbn [length] in Hn. destruct n as [| n]; [lia |].
  cbn [firstn]. destruct Hin as [-> | Hin]; [now left | right].
  apply IH; [lia | exact Hin | exact Hk].
Qed.

Lemma In_firstn_sorted (transactions : list Transaction) (t : Transaction) :
  In t transactions ->
  (datedOnOrAfter (t_date t) transactions <= 20)%nat ->
  In t (firstn 20 (Array_sort byDateDescending transactions)).
Proof.
  intros Hin Hn.
  apply (firstn_sorted_keeps t_date (t_date t)).
  - apply Array_sort_sorted. apply byDateDescending_key.
  - unfold datedOnOrAfter in Hn.
    now rewrite (filter_length_perm _ _ _
                   (Array_sort_perm byDateDescending transactions)).
  - apply (Permutation_in t
             (Permutation_sym (Array_sort_perm byDateDescending transactions))).
    exact Hin.
  - lia.
Qed.

(** X10.  A transaction is retained by the reconciler whenever at most 20
    transactions of the ledger's answer are dated on its date or later; with
    at most 20 transactions in all, nothing is dropped. *)
Theorem paymentTransactions_keeps (transactions : list Transaction) :
  (forall t, In t transactions ->
             (datedOnOrAfter (t_date t) transactions <= 20)%nat ->
             In (toPaymentHistoryItem t) (paymentTransactions transactions))
  /\ ((length transactions <= 20)%nat ->
      Permutation (paymentTransactions transactions)
                  (map toPaymentHistoryItem transactions)).
Proof.
  split.
  - intros t Hin Hn. unfold paymentTransactions.
    apply in_map. now apply In_firstn_sorted.
  - intros Hlen. unfold paymentTransactions.
    rewrite firstn_all2.
    + apply Permutation_map, Array_sort_perm.
    + now rewrite (Permutation_length (Array_sort_perm byDateDescending transactions)).
Qed.

Lemma paymentTransactions_keeps_witness :
  (In (mkTransaction 4 (-25500) "cleared" (Some EmptyString)) threeTransactions
   /\ (datedOnOrAfter 4 threeTransactions <= 20)%nat
   /\ In (toPaymentHistoryItem (mkTransaction 4 (-25500) "cleared" (Some EmptyString)))
         (paymentTransactions threeTransactions))
  /\ ((length threeTransactions <= 20)%nat
      /\ Permutation (paymentTransactions threeTransactions)
                     (map toPaymentHistoryItem threeTransactions)).
Proof.
  assert (H1 : In (mkTransaction 4 (-25500) "cleared" (Some EmptyString))
                  threeTransactions) by (right; right; left; reflexivity).
  assert (H2 : (datedOnOrAfter 4 threeTransactions <= 20)%nat) by (cbv; lia).
  assert (H3 : (length threeTransactions <= 20)%nat) by (cbv; lia).
  split.
  - split; [exact H1 |]. split; [exact H2 |].
    exact (proj1 (paymentTransactions_keeps threeTransactions) _ H1 H2).
  - split; [exact H3 |].
    exact (proj2 (paymentTransactions_keeps threeTransactions) H3).
Defined.

Lemma length_paymentTransactions (transactions : list Transaction) :
  (length (paymentTransactions transactions) <= 20)%nat.
Proof.
  unfold paymentTransactions. rewrite length_map, length_firstn. lia.
Qed.

(** X11.  Because the reconciled history holds 20 records at most, the
    deadline counter fed with it can count 20 scheduled dates as paid at
    most: its result is never below the number of scheduled dates less 20. *)
Theorem calculatePaymentDaysRemaining_reconciled (now : Dayjs.t) (endDate : Z)
    (paymentDays : list Z) (transactions : list Transaction) :
  totalScheduledDays (Dayjs.date now) endDate paymentDays - 20
  <= calculatePaymentDaysRemaining now endDate paymentDays
       (paymentTransactions transactions).
Proof.
  unfold calculatePaymentDaysRemaining, paidDays. cbv zeta.
  rewrite countPaymentDays_total.
  pose proof (filter_length_le
                (isPaidDay now (Dayjs.parse endDate) paymentDays)
                (paymentTransactions transactions)) as H1.
  pose proof (length_paymentTransactions transactions) as H2. lia.
Qed.

Lemma filter_date_map (k : Z) (l : list Transaction) :
  filter (fun r => date r =? k) (map toPaymentHistoryItem l)
  = map toPaymentHistoryItem (filter (fun t => t_date t =? k) l).
Proof.
  induction l as [| t l IH]; [reflexivity |].
  cbn [map filter]. cbn [toPaymentHistoryItem date].
  destruct (t_date t =? k); cbn [map]; now rewrite IH.
Qed.

(** X12.  Records of one date keep the order in which the ledger returned
    them: the records of a date in the reconciled history are the first ones
    of that date in the ledger's answer, in the same order. *)
Theorem paymentTransactions_stable (transactions : list Transaction) (k : Z) :
  exists dropped,
    filter (fun r => date r =? k) (map toPaymentHistoryItem transactions)
    = filter (fun r => date r =? k) (paymentTransactions transactions) ++ dropped.
Proof.
  exists (map toPaymentHistoryItem
            (filter (fun t => t_date t =? k)
                    (skipn 20 (Array_sort byDateDescending transactions)))).
  unfold paymentTransactions. rewrite !filter_date_map.
  rewrite <- (Array_sort_stable byDateDescending t_date byDateDescending_key k
                transactions).
  rewrite <- map_app, <- filter_app, firstn_skipn. reflexivity.
Qed.

Example paymentTransactions_same_date :
  map memo (paymentTransactions
              [ mkTransaction 4 (-1000) "cleared" (Some "a"%string);
                mkTransaction 5 (-2000) "cleared" (Some "b"%string);
                mkTransaction 4 (-3000) "cleared" (Some "c"%string) ])
  = [Some "b"; Some "a"; Some "c"]%string.
Proof. reflexivity. Qed.

(** X13.  The calendar highlights a date exactly when the status classifier
    would find a payment recorded on it: [hasPaymentOnDate] at a clock
    reading is [madePaymentToday] at that reading's date. *)
Theorem hasPaymentOnDate_madePaymentToday (history : list PaymentHistoryItem)
    (d : Dayjs.t) :
  hasPaymentOnDate history d = madePaymentToday (Dayjs.date d) history.
Proof.
  unfold hasPaymentOnDate, madePaymentToday, getPaymentDates, includes.
  cbv zeta. induction history as [| p h IH]; [reflexivity |].
  cbn [filter existsb]. unfold isPaymentToday at 1.
  destruct (Qle_bool 0 (amount p)); cbn [map existsb].
  - rewrite IH, andb_true_r. f_equal. apply Z.eqb_sym.
  - rewrite IH, andb_false_r. reflexivity.
Qed.

(** ** The account table *)

Lemma lookup_ACCOUNT_CONFIG (accountKey : string) :
  (knownAccountKey accountKey
   /\ exists c, lookup accountKey ACCOUNT_CONFIG = Some c
                /\ In (accountKey, c) ACCOUNT_CONFIG)
  \/ (~ knownAccountKey accountKey /\ lookup accountKey ACCOUNT_CONFIG = None).
Proof.
  unfold knownAccountKey, ACCOUNT_CONFIG. cbn [lookup].
  destruct (String.eqb_spec accountKey "taxi") as [-> | H1].
  { left. split; [tauto |]. eexists. split; [reflexivity | now left]. }
  destruct (String.eqb_spec accountKey "l200") as [-> | H2].
  { left. split; [tauto |]. eexists. split; [reflexivity | right; now left]. }
  destruct (String.eqb_spec accountKey "ian") as [-> | H3].
  { left. split; [tauto |]. eexists. split; [reflexivity | right; right; now left]. }
  destruct (String.eqb_spec accountKey "papa") as [-> | H4].
  { left. split; [tauto |]. eexists. split; [reflexivity |].
    right; right; right; now left. }
  right. split; [tauto | reflexivity].
Qed.

(** X14.  [getAccountConfig] answers with a configuration exactly for the
    keys 'taxi', 'l200', 'ian' and 'papa', and with that key's entry of the
    table.  For any other key it answers [null], unless the key names a
    member every object inherits, for which the [in] test succeeds and the
    inherited member is handed back in place of a configuration. *)
Theorem getAccountConfig_keys (inherited : string -> bool) (accountKey : string) :
  (knownAccountKey accountKey
   <-> exists c, getAccountConfig inherited accountKey = Own c)
  /\ (forall c, getAccountConfig inherited accountKey = Own c ->
                In (accountKey, c) ACCOUNT_CONFIG)
  /\ (getAccountConfig inherited accountKey = Null
      <-> ~ knownAccountKey accountKey /\ inherited accountKey = false)
  /\ (getAccountConfig inherited accountKey = Inherited accountKey
      <-> ~ knownAccountKey accountKey /\ inherited accountKey = true).
Proof.
  unfold getAccountConfig.
  destruct (lookup_ACCOUNT_CONFIG accountKey) as [[Hk [c [-> Hin]]] | [Hk ->]].
  - repeat split; try tauto; try discriminate.
    + intros _. now exists c.
    + intros c' [= <-]. exact Hin.
  - destruct (inherited accountKey); repeat split; try tauto; try discriminate;
      try (intros [c H]; discriminate H); intros [_ H]; discriminate H.
Qed.

Example getAccountConfig_examples :
  getAccountConfig inheritedName "taxi-soluto" = Null
  /\ getAccountConfig inheritedName "toString" = Inherited "toString"
  /\ getAccountConfig inheritedName "Taxi" = Null
  /\ (exists c, getAccountConfig inheritedName "ian" = Own c
                /\ Config.paymentDays (Config.constants c) = []
                /\ Config.deadlineConfig c = None).
Proof. repeat split. eexists. repeat split. Qed.

Lemma getAccountConfig_keys_witness :
  knownAccountKey "papa"
  /\ exists c, getAccountConfig inheritedName "papa" = Own c
               /\ In ("papa"%string, c) ACCOUNT_CONFIG.
Proof.
  assert (Hk : knownAccountKey "papa") by (right; right; right; reflexivity).
  split; [exact Hk |].
  destruct (proj1 (proj1 (getAccountConfig_keys inheritedName "papa")) Hk)
    as [c Hc].
  exists c. split; [exact Hc |].
  exact (proj1 (proj2 (getAccountConfig_keys inheritedName "papa")) c Hc).
Defined.

Example daysFromCivil_examples :
  daysFromCivil 1970 1 1 = 0
  /\ daysFromCivil 2000 2 29 = 11016
  /\ daysFromCivil 2030 9 30 = 22187
  /\ weekday (daysFromCivil 2030 9 30) = 1
  /\ daysFromCivil 2031 9 30 = 22552.
Proof. repeat split. Qed.

Lemma ACCOUNT_CONFIG_wellFormed (accountKey : string) (c : Config.AccountConfig) :
  In (accountKey, c) ACCOUNT_CONFIG -> wellFormedConfig c.
Proof.
  unfold ACCOUNT_CONFIG. intros H.
  repeat (destruct H as [H | H];
          [injection H as <- <-; unfold wellFormedConfig; cbv zeta;
           split; [reflexivity |]; split; [discriminate |];
           split; [discriminate |]; split; [repeat constructor; lia |];
           split; [reflexivity |];
           intros dc Hdc; cbn in Hdc;
           first [discriminate Hdc | injection Hdc as <-; split; reflexivity]
          |]).
  destruct H.
Qed.

(** ** Loading an account *)

Ltac page_simpl :=
  cbn [Page.core Page.maxDailyPayment Page.loading Page.error Page.budgetId
       Page.accountId Page.deadlineConfig Page.paymentDaysRemaining
       Page.totalDaysUntilDeadline Page.paymentAccounts Page.isPaymentModalOpen
       Page.isBlankPaymentModalOpen Page.blankPaymentReason
       Page.onCore Page.setMaxDailyPayment Page.setLoading Page.setError
       Page.setBudgetId Page.setAccountId Page.setDeadlineConfig
       Page.setPaymentDaysRemaining Page.setTotalDaysUntilDeadline
       Page.setPaymentAccounts Page.setPaymentModalOpen
       Page.setBlankPaymentModalOpen Page.setBlankPaymentReason loadFailed
       accountBalance presetPaymentAmount paymentDays paymentHistory
       setAccountBalance setPaymentHistory setPaymentDays setPresetPaymentAmount
       fst snd] in *.

(** The state a successful load leaves. *)
Lemma loadAccountData_loaded (inherited : string -> bool) (message : string)
    (api : Api) (now : Dayjs.t) (accountKey : string) (st0 : Page.State)
    (c : Config.AccountConfig) (b : Budget) (a : Account)
    (transactions : list Transaction) :
  loadSucceeds inherited api accountKey c b a transactions ->
  loadAccountData inherited message api now accountKey st0
  = let k := Config.constants c in
    let history := paymentTransactions transactions in
    {| Page.core :=
         {| accountBalance := milliunitsToCurrency (Z.abs (account_balance a));
            presetPaymentAmount := Config.paymentQuantity k;
            paymentDays := Config.paymentDays k;
            paymentHistory := history |};
       Page.maxDailyPayment := Config.maxDailyPayment k;
       Page.loading := false;
       Page.error := None;
       Page.budgetId := budget_id b;
       Page.accountId := Config.accountId c;
       Page.deadlineConfig :=
         match Config.deadlineConfig c with
         | Some dc => Some dc
         | None => Page.deadlineConfig st0
         end;
       Page.paymentDaysRemaining :=
         match Config.deadlineConfig c with
         | Some dc =>
             calculatePaymentDaysRemaining now (Config.endDate dc)
               (Config.paymentDays k) history
         | None => Page.paymentDaysRemaining st0
         end;
       Page.totalDaysUntilDeadline :=
         match Config.deadlineConfig c with
         | Some dc => getDaysUntilDeadline now (Config.endDate dc)
         | None => Page.totalDaysUntilDeadline st0
         end;
       Page.paymentAccounts :=
         match Config.paymentAccounts c with
         | Some accounts => accounts
         | None => Page.paymentAccounts st0
         end;
       Page.isPaymentModalOpen := Page.isPaymentModalOpen st0;
       Page.isBlankPaymentModalOpen := Page.isBlankPaymentModalOpen st0;
       Page.blankPaymentReason := Page.blankPaymentReason st0 |}.
Proof.
  intros [Hc [[others Hb] [Ha Ht]]].
  unfold loadAccountData. cbv zeta. rewrite Hc, Hb, Ha, Ht.
  destruct (Config.deadlineConfig c), (Config.paymentAccounts c); reflexivity.
Qed.

(** X15.  For a key that is neither in the table nor an inherited member,
    loading fails before any ledger call: whatever the ledger would answer,
    the state is the previous one with the message "Account configuration
    not found for: <key>" and [loading] off.  The page's default key
    'taxi-soluto', used when the address has no [account] parameter or an
    empty one, is such a key. *)
Theorem loadAccountData_unknown_key (inherited : string -> bool)
    (message : string) (api : Api) (now : Dayjs.t) (accountKey : string)
    (st0 : Page.State) :
  (~ knownAccountKey accountKey -> inherited accountKey = false ->
   loadAccountData inherited message api now accountKey st0
   = Page.setLoading false
       (Page.setError
          (Some ("Account configuration not found for: " ++ accountKey)%string)
          st0))
  /\ (inherited "taxi-soluto"%string = false ->
      forall param, param = None \/ param = Some EmptyString ->
      Page.error (loadAccountData inherited message api now
                    (accountKeyOf param) st0)
      = Some "Account configuration not found for: taxi-soluto"%string).
Proof.
  assert (Hnull : forall key, ~ knownAccountKey key -> inherited key = false ->
            loadAccountData inherited message api now key st0
            = Page.setLoading false
                (Page.setError
                   (Some ("Account configuration not found for: " ++ key)%string)
                   st0)).
  { intros key Hk Hi. unfold loadAccountData, getAccountConfig. cbv zeta.
    destruct (lookup_ACCOUNT_CONFIG key) as [[Hk' _] | [_ ->]]; [tauto |].
    rewrite Hi. reflexivity. }
  split; [apply Hnull |].
  intros Hi param Hp.
  assert (Hkey : accountKeyOf param = "taxi-soluto"%string)
    by (destruct Hp as [-> | ->]; reflexivity).
  rewrite Hkey, Hnull; [reflexivity | | exact Hi].
  unfold knownAccountKey. intros [H | [H | [H | H]]]; discriminate H.
Qed.

Lemma loadAccountData_unknown_key_witness :
  (~ knownAccountKey "taxi-soluto" /\ inheritedName "taxi-soluto" = false)
  /\ Page.error (loadAccountData inheritedName sampleTypeError (ledger [])
                   mondayNoon (accountKeyOf None) Page.initial)
     = Some "Account configuration not found for: taxi-soluto"%string.
Proof.
  assert (Hk : ~ knownAccountKey "taxi-soluto")
    by (intros [H | [H | [H | H]]]; discriminate H).
  assert (Hi : inheritedName "taxi-soluto" = false) by reflexivity.
  split; [split; assumption |].
  exact (proj2 (loadAccountData_unknown_key inheritedName sampleTypeError
                  (ledger []) mondayNoon "taxi-soluto" Page.initial)
           Hi None (or_introl eq_refl)).
Defined.

(** X16.  A load always ends with [loading] off, and it ends without an
    error message exactly when the key has a configuration, the ledger
    returned at least one budget, and the account and its transactions were
    fetched from the first budget. *)
Theorem loadAccountData_error_iff (inherited : string -> bool)
    (message : string) (api : Api) (now : Dayjs.t) (accountKey : string)
    (st0 : Page.State) :
  Page.loading (loadAccountData inherited message api now accountKey st0) = false
  /\ (Page.error (loadAccountData inherited message api now accountKey st0) = None
      <-> exists c b a transactions,
            loadSucceeds inherited api accountKey c b a transactions).
Proof.
  split; [reflexivity |]. split.
  - unfold loadAccountData, loadSucceeds. cbv zeta.
    destruct (getAccountConfig inherited accountKey) as [| c | key] eqn:Hc;
      [discriminate | | discriminate].
    destruct (getBudgets api) as [[| b others] | thrown] eqn:Hb;
      [discriminate | | discriminate].
    destruct (getAccount api (budget_id b) (Config.accountId c))
      as [a | thrown] eqn:Ha; [| discriminate].
    destruct (getTransactions api (budget_id b) (Config.accountId c))
      as [transactions | thrown] eqn:Ht; [| discriminate].
    intros _. exists c, b, a, transactions.
    repeat split; try assumption. now exists others.
  - intros [c [b [a [transactions H]]]].
    now rewrite (loadAccountData_loaded _ _ _ _ _ _ c b a transactions H).
Qed.

Lemma loadAccountData_error_iff_witness :
  (exists c b a transactions,
     loadSucceeds inheritedName (ledger threeTransactions) "taxi" c b a
       transactions)
  /\ Page.error (taxiLoaded threeTransactions) = None.
Proof.
  assert (H : exists c b a transactions,
             loadSucceeds inheritedName (ledger threeTransactions) "taxi" c b a
               transactions).
  { eexists. exists (mkBudget "budget-1"), (mkAccount (-300000)), threeTransactions.
    repeat split. now exists []. }
  split; [exact H |].
  exact (proj2 (proj2 (loadAccountData_error_iff inheritedName sampleTypeError
                         (ledger threeTransactions) mondayNoon "taxi"
                         Page.initial)) H).
Defined.



(** X18.  A load that fails after the configuration was found leaves a mixed
    state behind.  When the budgets cannot be fetched, or none exists, the
    payment amount and the schedule are already the new account's while the
    balance and the history are still the previous ones; when only the
    transactions cannot be fetched, the balance is the new account's as well
    and the history alone is the previous one.  The error message is the
    thrown error's message, or "Failed to load account data" when the thrown
    value is not an error object. *)
Theorem loadAccountData_partial (inherited : string -> bool)
    (message : string) (api : Api) (now : Dayjs.t) (accountKey : string)
    (st0 : Page.State) (c : Config.AccountConfig) :
  getAccountConfig inherited accountKey = Own c ->
  let st := loadAccountData inherited message api now accountKey st0 in
  (forall thrown,
     getBudgets api = Rejected thrown \/
     (getBudgets api = Resolved []
      /\ thrown = Some "No budgets found in YNAB account"%string) ->
     Page.error st
     = Some (match thrown with
             | Some m => m
             | None => "Failed to load account data"%string
             end)
     /\ presetPaymentAmount (Page.core st)
        = Config.paymentQuantity (Config.constants c)
     /\ paymentDays (Page.core st) = Config.paymentDays (Config.constants c)
     /\ accountBalance (Page.core st) = accountBalance (Page.core st0)
     /\ paymentHistory (Page.core st) = paymentHistory (Page.core st0)
     /\ Page.budgetId st = Page.budgetId st0
     /\ Page.accountId st = Page.accountId st0)
  /\ (forall b others a thrown,
        getBudgets api = Resolved (b :: others) ->
        getAccount api (budget_id b) (Config.accountId c) = Resolved a ->
        getTransactions api (budget_id b) (Config.accountId c) = Rejected thrown ->
        Page.error st
        = Some (match thrown with
                | Some m => m
                | None => "Failed to load account data"%string
                end)
        /\ accountBalance (Page.core st)
           = milliunitsToCurrency (Z.abs (account_balance a))
        /\ paymentHistory (Page.core st) = paymentHistory (Page.core st0)
        /\ Page.paymentDaysRemaining st = Page.paymentDaysRemaining st0
        /\ Page.accountId st = Config.accountId c).
Proof.
  intros Hc. cbv zeta. unfold loadAccountData. cbv zeta. rewrite Hc. split.
  - intros thrown [Hb | [Hb ->]]; rewrite Hb; page_simpl; repeat split.
  - intros b others a thrown Hb Ha Ht. rewrite Hb, Ha, Ht. page_simpl.
    repeat split.
Qed.

Lemma loadAccountData_partial_witness :
  getAccountConfig inheritedName "ian"
  = Own (Config.mkAccountConfig "e9833956-52e0-4659-a790-73038c056e75"
           "IAN Préstamo" (Config.mkPaymentConstants 25 50 10 []) None None)
  /\ getBudgets offline = Rejected None
  /\ Page.error (loadAccountData inheritedName sampleTypeError offline
                   mondayNoon "ian" Page.initial)
     = Some "Failed to load account data"%string
  /\ paymentDays (Page.core (loadAccountData inheritedName sampleTypeError offline
                               mondayNoon "ian" Page.initial)) = [].
Proof.
  assert (Hc : getAccountConfig inheritedName "ian"
               = Own (Config.mkAccountConfig "e9833956-52e0-4659-a790-73038c056e75"
                        "IAN Préstamo" (Config.mkPaymentConstants 25 50 10 [])
                        None None)) by reflexivity.
  assert (Hb : getBudgets offline = Rejected None) by reflexivity.
  split; [exact Hc |]. split; [exact Hb |].
  pose proof (proj1 (loadAccountData_partial inheritedName sampleTypeError offline
                       mondayNoon "ian" Page.initial _ Hc)
                None (or_introl Hb)) as [He [_ [Hd _]]].
  split; [exact He | exact Hd].
Defined.

(** X19.  A load never clears the deadline settings or the payment-method
    accounts: for a configuration without a deadline the deadline
    configuration, the days remaining and the days until the deadline stay
    those of the account shown before, and for one without payment-method
    accounts the previous accounts stay.  The 'ian' entry has neither. *)
Theorem loadAccountData_keeps_previous (inherited : string -> bool)
    (message : string) (api : Api) (now : Dayjs.t) (accountKey : string)
    (st0 : Page.State) (c : Config.AccountConfig) (b : Budget) (a : Account)
    (transactions : list Transaction) :
  loadSucceeds inherited api accountKey c b a transactions ->
  let st := loadAccountData inherited message api now accountKey st0 in
  (Config.deadlineConfig c = None ->
   Page.deadlineConfig st = Page.deadlineConfig st0
   /\ Page.paymentDaysRemaining st = Page.paymentDaysRemaining st0
   /\ Page.totalDaysUntilDeadline st = Page.totalDaysUntilDeadline st0)
  /\ (Config.paymentAccounts c = None ->
      Page.paymentAccounts st = Page.paymentAccounts st0)
  /\ (accountKey = "ian"%string ->
      Page.deadlineConfig st = Page.deadlineConfig st0
      /\ Page.paymentAccounts st = Page.paymentAccounts st0).
Proof.
  intros H. cbv zeta.
  rewrite (loadAccountData_loaded _ _ _ _ _ _ c b a transactions H).
  cbv zeta. page_simpl.
  split; [| split].
  - intros ->. repeat split.
  - intros ->. reflexivity.
  - intros ->. destruct H as [Hc _]. unfold getAccountConfig in Hc.
    cbn in Hc. injection Hc as <-. split; reflexivity.
Qed.

(** 'ian' loaded over the loaded 'taxi' page: taxi's deadline stays. *)
Lemma loadAccountData_keeps_previous_witness :
  loadSucceeds inheritedName (ledger []) "ian"
    (Config.mkAccountConfig "e9833956-52e0-4659-a790-73038c056e75"
       "IAN Préstamo" (Config.mkPaymentConstants 25 50 10 []) None None)
    (mkBudget "budget-1") (mkAccount (-300000)) []
  /\ Page.deadlineConfig
       (loadAccountData inheritedName sampleTypeError (ledger []) mondayNoon
          "ian" (taxiLoaded threeTransactions))
     = Page.deadlineConfig (taxiLoaded threeTransactions)
  /\ Page.deadlineConfig (taxiLoaded threeTransactions) <> None.
Proof.
  assert (H : loadSucceeds inheritedName (ledger []) "ian"
    (Config.mkAccountConfig "e9833956-52e0-4659-a790-73038c056e75"
       "IAN Préstamo" (Config.mkPaymentConstants 25 50 10 []) None None)
    (mkBudget "budget-1") (mkAccount (-300000)) []).
  { repeat split. now exists []. }
  split; [exact H |]. split; [| discriminate].
  exact (proj1 (proj2 (proj2 (loadAccountData_keeps_previous inheritedName
           sampleTypeError (ledger []) mondayNoon "ian"
           (taxiLoaded threeTransactions) _ _ _ _ H)) eq_refl)).
Defined.

(** ** Refreshing the transactions *)

(** X20.  [refreshTransactions] does nothing when the budget or the account
    identifier is empty, and nothing when the fetch fails.  When the fetch
    succeeds it replaces the history by the reconciled answer and recomputes
    the days remaining only under an enabled deadline configuration.  In no
    case does it touch the balance, the payment amount, the schedule, the
    days until the deadline or the error message. *)
Theorem refreshTransactions_spec (api : Api) (now : Dayjs.t) (st : Page.State) :
  let st' := refreshTransactions api now st in
  (truthy (Page.budgetId st) && truthy (Page.accountId st) = false -> st' = st)
  /\ (forall thrown,
        getTransactions api (Page.budgetId st) (Page.accountId st)
        = Rejected thrown -> st' = st)
  /\ (forall transactions,
        truthy (Page.budgetId st) && truthy (Page.accountId st) = true ->
        getTransactions api (Page.budgetId st) (Page.accountId st)
        = Resolved transactions ->
        paymentHistory (Page.core st') = paymentTransactions transactions
        /\ Page.paymentDaysRemaining st'
           = match Page.deadlineConfig st with
             | Some dc =>
                 if Config.enabled dc
                 then calculatePaymentDaysRemaining now (Config.endDate dc)
                        (paymentDays (Page.core st'))
                        (paymentHistory (Page.core st'))
                 else Page.paymentDaysRemaining st
             | None => Page.paymentDaysRemaining st
             end)
  /\ (accountBalance (Page.core st') = accountBalance (Page.core st)
      /\ presetPaymentAmount (Page.core st') = presetPaymentAmount (Page.core st)
      /\ paymentDays (Page.core st') = paymentDays (Page.core st)
      /\ Page.totalDaysUntilDeadline st' = Page.totalDaysUntilDeadline st
      /\ Page.deadlineConfig st' = Page.deadlineConfig st
      /\ Page.error st' = Page.error st).
Proof.
  cbv zeta. unfold refreshTransactions.
  destruct (truthy (Page.budgetId st) && truthy (Page.accountId st)) eqn:Hg.
  - destruct (getTransactions api (Page.budgetId st) (Page.accountId st))
      as [transactions | thrown] eqn:Ht; cbv zeta.
    + split; [discriminate |]. split; [discriminate |].
      destruct (Page.deadlineConfig st) as [dc |] eqn:Hd;
        [destruct (Config.enabled dc) eqn:He |];
        page_simpl; (split; [intros ? _ [= <-]; now rewrite ?Hd, ?He |]);
        now rewrite ?Hd.
    + split; [discriminate |]. split; [reflexivity |].
      split; [intros ? _ H; discriminate H | repeat split].
  - split; [reflexivity |]. split; [reflexivity |].
    split; [intros ? H; discriminate H | repeat split].
Qed.

Lemma refreshTransactions_spec_witness :
  truthy (Page.budgetId Page.initial) && truthy (Page.accountId Page.initial)
  = false
  /\ refreshTransactions (ledger threeTransactions) mondayNoon Page.initial
     = Page.initial.
Proof.
  assert (H : truthy (Page.budgetId Page.initial)
              && truthy (Page.accountId Page.initial) = false) by reflexivity.
  split; [exact H |].
  exact (proj1 (refreshTransactions_spec (ledger threeTransactions) mondayNoon
                  Page.initial) H).
Defined.

(** X21.  Refreshing right after a successful load, with the same clock
    reading and the same answer from the ledger, changes nothing, provided
    the configuration has a deadline or the page had none before. *)
Theorem refreshTransactions_after_load (inherited : string -> bool)
    (message : string) (api : Api) (now : Dayjs.t) (accountKey : string)
    (st0 : Page.State) (c : Config.AccountConfig) (b : Budget) (a : Account)
    (transactions : list Transaction) :
  loadSucceeds inherited api accountKey c b a transactions ->
  Config.deadlineConfig c <> None \/ Page.deadlineConfig st0 = None ->
  refreshTransactions api now
    (loadAccountData inherited message api now accountKey st0)
  = loadAccountData inherited message api now accountKey st0.
Proof.
  intros H Hd.
  rewrite (loadAccountData_loaded _ _ _ _ _ _ c b a transactions H).
  destruct H as [_ [_ [_ Ht]]].
  cbv zeta. unfold refreshTransactions. page_simpl.
  destruct (truthy (budget_id b) && truthy (Config.accountId c));
    [| reflexivity].
  rewrite Ht. cbv zeta. page_simpl.
  destruct (Config.deadlineConfig c) as [dc |] eqn:Hdc.
  - destruct (Config.enabled dc); reflexivity.
  - destruct Hd as [Hd | Hd]; [congruence |]. rewrite Hd. reflexivity.
Qed.

Lemma refreshTransactions_after_load_witness :
  refreshTransactions (ledger threeTransactions) mondayNoon
    (taxiLoaded threeTransactions)
  = taxiLoaded threeTransactions.
Proof.
  apply (refreshTransactions_after_load inheritedName sampleTypeError
           (ledger threeTransactions) mondayNoon "taxi" Page.initial
           (Config.mkAccountConfig "65dd34f4-7de3-45ac-8605-78a8f27de40f"
              "Taxi Soluto 2020"
              (Config.mkPaymentConstants 20 30 10 [1; 2; 3; 4; 5; 6])
              (Some (Config.mkDeadlineConfig true (daysFromCivil 2030 9 30) true
                       "Días de pago restantes"))
              (Some paymentAccounts))
           (mkBudget "budget-1") (mkAccount (-300000)) threeTransactions).
  - repeat split. now exists [].
  - left. discriminate.
Defined.

(** ** Registering a payment *)

Lemma currencyToMilliunits_nonpos (a : Q) :
  currencyToMilliunits (- Qabs a) <= 0.
Proof.
  unfold currencyToMilliunits, Double.mul.
  change 0 with (Math_round 0). apply Math_round_le, round_nonpos.
  pose proof (Qabs_nonneg a) as H. lra.
Qed.

Lemma refreshTransactions_keeps (api : Api) (now : Dayjs.t) (st : Page.State) :
  accountBalance (Page.core (refreshTransactions api now st))
  = accountBalance (Page.core st)
  /\ presetPaymentAmount (Page.core (refreshTransactions api now st))
     = presetPaymentAmount (Page.core st)
  /\ paymentDays (Page.core (refreshTransactions api now st))
     = paymentDays (Page.core st)
  /\ Page.isPaymentModalOpen (refreshTransactions api now st)
     = Page.isPaymentModalOpen st
  /\ Page.isBlankPaymentModalOpen (refreshTransactions api now st)
     = Page.isBlankPaymentModalOpen st
  /\ Page.blankPaymentReason (refreshTransactions api now st)
     = Page.blankPaymentReason st.
Proof.
  unfold refreshTransactions.
  destruct (truthy (Page.budgetId st) && truthy (Page.accountId st));
    [| repeat split].
  destruct (getTransactions api (Page.budgetId st) (Page.accountId st));
    [| repeat split].
  cbv zeta.
  destruct (Page.deadlineConfig st) as [dc |];
    [destruct (Config.enabled dc) |]; repeat split.
Qed.

(** The request [handleRegisterPayment] builds. *)
Lemma handleRegisterPayment_sent (api : Api) (nowWrite nowRefresh : Dayjs.t)
    (method : Method) (st : Page.State) :
  exists request,
    snd (handleRegisterPayment api nowWrite nowRefresh method st) = [request]
    /\ fst request = Page.budgetId st
    /\ new_amount (snd request)
       = currencyToMilliunits (- Qabs (presetPaymentAmount (Page.core st)))
    /\ new_date (snd request) = Dayjs.date nowWrite
    /\ new_cleared (snd request) = "uncleared"%string
    /\ (forall id,
          lookup (methodName method) (Page.paymentAccounts st) = Some id ->
          truthy id = true ->
          account_id (snd request) = id
          /\ transfer_account_id (snd request) = Some (Page.accountId st)
          /\ payee_name (snd request) = None)
    /\ ((forall id,
           lookup (methodName method) (Page.paymentAccounts st) = Some id ->
           truthy id = false) ->
        account_id (snd request) = Page.accountId st
        /\ transfer_account_id (snd request) = None
        /\ payee_name (snd request) = Some ("Pago " ++ methodName method)%string)
    /\ (forall thrown,
          transactions_createTransaction api (fst request) (snd request)
          = Rejected thrown ->
          fst (handleRegisterPayment api nowWrite nowRefresh method st) = st)
    /\ (forall u,
          transactions_createTransaction api (fst request) (snd request)
          = Resolved u ->
          fst (handleRegisterPayment api nowWrite nowRefresh method st)
          = refreshTransactions api nowRefresh
              (Page.setPaymentModalOpen false
                 (Page.onCore
                    (setAccountBalance
                       (Double.sub (accountBalance (Page.core st))
                                   (presetPaymentAmount (Page.core st)))) st))).
Proof.
  unfold handleRegisterPayment. cbv zeta.
  destruct (lookup (methodName method) (Page.paymentAccounts st)) as [id |] eqn:Hl;
    [destruct (truthy id) eqn:Hid |].
  all: unfold createTransferTransaction, createTransaction; cbv zeta;
    cbn [fst snd];
    match goal with
    | |- context [transactions_createTransaction ?a ?b ?d] =>
        exists (b, d);
        destruct (transactions_createTransaction a b d) as [u | thrown] eqn:Hr
    end;
    cbn [fst snd account_id payee_name transfer_account_id new_amount
         new_memo new_cleared new_date];
    (split; [reflexivity |]); (split; [reflexivity |]);
    (split; [reflexivity |]); (split; [reflexivity |]);
    (split; [reflexivity |]);
    (split;
     [intros id' Hid' Ht';
      first [ discriminate Hid'
            | injection Hid' as <-;
              first [repeat split; reflexivity | congruence] ] |]);
    (split;
     [intros Hfalsy;
      first [ repeat split; reflexivity
            | specialize (Hfalsy id eq_refl); congruence ] |]);
    (split; [intros thrown' Ht'; first [reflexivity | congruence] |]);
    intros u' Hu'; first [reflexivity | congruence].
Qed.

(** X22.  [handleRegisterPayment] sends exactly one write, to the page's
    budget, dated today, uncleared, of minus the payment amount in minor
    units, never positive: a transfer from the method's account to the debt
    account when the method has a configured account with a non-empty id, a
    plain transaction on the debt account with payee "Pago <method>" in
    every other case, the method missing from the configured accounts or
    configured with an empty id.  When the ledger refuses the write the
    state is untouched; when it accepts, the balance shown is the binary64
    difference of the previous one and the payment amount, and the payment
    dialog is closed.  The product by 1000 and the difference are taken
    within the range of finite numbers. *)
Theorem handleRegisterPayment_spec (api : Api) (nowWrite nowRefresh : Dayjs.t)
    (method : Method) (st : Page.State) :
  Double.finite (- Qabs (presetPaymentAmount (Page.core st)) * 1000) ->
  Double.finite (accountBalance (Page.core st)
                 - presetPaymentAmount (Page.core st)) ->
  let result := handleRegisterPayment api nowWrite nowRefresh method st in
  let configured := lookup (methodName method) (Page.paymentAccounts st) in
  exists request,
    snd result = [request]
    /\ fst request = Page.budgetId st
    /\ new_amount (snd request)
       = currencyToMilliunits (- Qabs (presetPaymentAmount (Page.core st)))
    /\ new_amount (snd request) <= 0
    /\ new_date (snd request) = Dayjs.date nowWrite
    /\ new_cleared (snd request) = "uncleared"%string
    /\ (forall id, configured = Some id -> truthy id = true ->
          account_id (snd request) = id
          /\ transfer_account_id (snd request) = Some (Page.accountId st)
          /\ payee_name (snd request) = None)
    /\ (configured = None \/ configured = Some EmptyString ->
        account_id (snd request) = Page.accountId st
        /\ transfer_account_id (snd request) = None
        /\ payee_name (snd request) = Some ("Pago " ++ methodName method)%string)
    /\ (forall thrown,
          transactions_createTransaction api (fst request) (snd request)
          = Rejected thrown -> fst result = st)
    /\ (forall u,
          transactions_createTransaction api (fst request) (snd request)
          = Resolved u ->
          accountBalance (Page.core (fst result))
          = Double.sub (accountBalance (Page.core st))
                       (presetPaymentAmount (Page.core st))
          /\ Page.isPaymentModalOpen (fst result) = false).
Proof.
  intros _ _. cbv zeta.
  destruct (handleRegisterPayment_sent api nowWrite nowRefresh method st)
    as [request [Hs [Hb [Ha [Hd [Hc [Ht [Hp [Hrej Hres]]]]]]]]].
  exists request.
  split; [exact Hs |]. split; [exact Hb |]. split; [exact Ha |].
  split; [rewrite Ha; apply currencyToMilliunits_nonpos |].
  split; [exact Hd |]. split; [exact Hc |]. split; [exact Ht |].
  split.
  { intros Hcfg. apply Hp. intros id Hid.
    destruct Hcfg as [Hnone | Hempty]; rewrite Hid in *;
      [discriminate Hnone | injection Hempty as ->; reflexivity]. }
  split; [exact Hrej |].
  intros u Hu. rewrite (Hres u Hu).
  match goal with
  | |- context [refreshTransactions api nowRefresh ?s] =>
      destruct (refreshTransactions_keeps api nowRefresh s)
        as [H1 [_ [_ [H4 _]]]]
  end.
  rewrite H1, H4. split; reflexivity.
Qed.

(** Yappy on the loaded 'taxi' page: a transfer out of the Yappy account,
    of 20.00. *)
Lemma handleRegisterPayment_spec_witness :
  (Double.finite
     (- Qabs (presetPaymentAmount (Page.core (taxiLoaded threeTransactions)))
      * 1000)
   /\ Double.finite
        (accountBalance (Page.core (taxiLoaded threeTransactions))
         - presetPaymentAmount (Page.core (taxiLoaded threeTransactions))))
  /\ exists request,
       snd (handleRegisterPayment (ledger threeTransactions) mondayNoon
              mondayNoon Yappy (taxiLoaded threeTransactions)) = [request]
       /\ new_amount (snd request) = -20000
       /\ account_id (snd request)
          = "ef27071e-07b5-409d-86d2-5cbc39910713"%string
       /\ transfer_account_id (snd request)
          = Some "65dd34f4-7de3-45ac-8605-78a8f27de40f"%string
       /\ accountBalance
            (Page.core (fst (handleRegisterPayment (ledger threeTransactions)
                               mondayNoon mondayNoon Yappy
                               (taxiLoaded threeTransactions))))
          = 280%Q.
Proof.
  assert (H1 : Double.finite
                 (- Qabs (presetPaymentAmount
                            (Page.core (taxiLoaded threeTransactions))) * 1000)).
  { change (Double.finite (- Qabs 20 * 1000)). vm_compute. reflexivity. }
  assert (H2 : Double.finite
                 (accountBalance (Page.core (taxiLoaded threeTransactions))
                  - presetPaymentAmount
                      (Page.core (taxiLoaded threeTransactions)))).
  { change (Double.finite (300 - 20)). vm_compute. reflexivity. }
  split; [split; assumption |].
  destruct (handleRegisterPayment_spec (ledger threeTransactions) mondayNoon
              mondayNoon Yappy (taxiLoaded threeTransactions) H1 H2)
    as [request [Hs [_ [Hm [_ [_ [_ [Ht [_ [_ Hres]]]]]]]]]].
  exists request. split; [exact Hs |].
  split.
  { rewrite Hm. change (currencyToMilliunits (- Qabs 20) = -20000).
    vm_compute. reflexivity. }
  destruct (Ht "ef27071e-07b5-409d-86d2-5cbc39910713"%string eq_refl eq_refl)
    as [Ha [Hx _]].
  split; [exact Ha |]. split; [exact Hx |].
  rewrite (proj1 (Hres tt eq_refl)).
  change (Double.sub 300 20 = 280%Q). vm_compute. reflexivity.
Defined.

(** A method configured with an empty account id: a plain transaction. *)
Example handleRegisterPayment_empty_id :
  map (fun request => (account_id (snd request),
                       transfer_account_id (snd request),
                       payee_name (snd request)))
      (snd (handleRegisterPayment (ledger []) mondayNoon mondayNoon Yappy
              (Page.setPaymentAccounts [("Yappy"%string, EmptyString)]
                 (taxiLoaded []))))
  = [("65dd34f4-7de3-45ac-8605-78a8f27de40f"%string, None,
      Some "Pago Yappy"%string)].
Proof. reflexivity. Qed.

Lemma paymentsLeft_le (st st' : AppState) :
  (0 < presetPaymentAmount st)%Q ->
  presetPaymentAmount st' = presetPaymentAmount st ->
  (accountBalance st' <= accountBalance st)%Q ->
  paymentsLeft st' <= paymentsLeft st.
Proof.
  intros Hp Hq Hb. unfold paymentsLeft, Double.div. rewrite Hq.
  apply Qceiling_resp_le, round_le.
  apply Qmult_le_compat_r; [exact Hb |].
  apply Qlt_le_weak, Qinv_lt_0_compat, Hp.
Qed.

(** A balance of [k] payment amounts, both whole numbers: [k] payments. *)
Lemma paymentsLeft_whole (k q : Z) (st : AppState) :
  0 < q -> Z.abs (k * q) < 2 ^ 53 ->
  (accountBalance st == inject_Z (k * q))%Q ->
  (presetPaymentAmount st == inject_Z q)%Q ->
  paymentsLeft st = k.
Proof.
  intros Hq Hk Hb Hp. unfold paymentsLeft, Double.div.
  assert (Hq' : ~ (inject_Z q == 0)%Q).
  { intros E. unfold Qeq in E. cbn in E. lia. }
  rewrite (round_comp _ (inject_Z k))
    by (rewrite Hb, Hp, inject_Z_mult; field; exact Hq').
  rewrite (round_Z k) by nia. apply Qceiling_Z.
Qed.

(** From 50.10 a payment of 5.01 leaves 10 payments as before; from 75.15 it
    leaves two payments less. *)
Example paymentsLeft_after_payment :
  paymentsLeft (owing (decimal 501 10) (decimal 501 100)) = 10
  /\ paymentsLeft (owing (Double.sub (decimal 501 10) (decimal 501 100))
                         (decimal 501 100)) = 10
  /\ paymentsLeft (owing (decimal 7515 100) (decimal 501 100)) = 16
  /\ paymentsLeft (owing (Double.sub (decimal 7515 100) (decimal 501 100))
                         (decimal 501 100)) = 14.
Proof. vm_compute. repeat split. Qed.

(** X23.  A payment the ledger accepts never raises the number of payments
    left, nor moves the projected finish date further away, whatever the
    refresh returns: with a payment amount above 0 and a balance that is a
    binary64 value, the balance after [handleRegisterPayment] is at most the
    one before, and so are [paymentsLeft] and a finish date projected from
    the same two clock reads.  When the balance is a whole number
    of payment amounts, both whole numbers, the count goes from [k] to
    [k - 1]; in general it may stay, or drop by more than one.  The
    difference and the two quotients are taken within the range of finite
    numbers. *)
Theorem handleRegisterPayment_finish_date (api : Api)
    (nowWrite nowRefresh : Dayjs.t) (method : Method) (st : Page.State) :
  let balance := accountBalance (Page.core st) in
  let payment := presetPaymentAmount (Page.core st) in
  (0 < payment)%Q ->
  (Double.round balance == balance)%Q ->
  Double.finite (balance - payment) ->
  Double.finite (balance / payment) ->
  Double.finite (Double.sub balance payment / payment) ->
  (forall budget data, exists u,
     transactions_createTransaction api budget data = Resolved u) ->
  let st' := fst (handleRegisterPayment api nowWrite nowRefresh method st) in
  accountBalance (Page.core st') = Double.sub balance payment
  /\ (accountBalance (Page.core st') <= balance)%Q
  /\ paymentsLeft (Page.core st') <= paymentsLeft (Page.core st)
  /\ (forall k q,
        0 < q -> Z.abs (k * q) < 2 ^ 53 -> Z.abs ((k - 1) * q) < 2 ^ 53 ->
        (balance == inject_Z (k * q))%Q -> (payment == inject_Z q)%Q ->
        paymentsLeft (Page.core st) = k
        /\ paymentsLeft (Page.core st') = k - 1)
  /\ (forall LocalTZA monthStart now now' d d',
        sameMonthReads LocalTZA monthStart now now' ->
        estimatedFinishDate LocalTZA monthStart now now' (Page.core st)
        = LocaleDate d ->
        estimatedFinishDate LocalTZA monthStart now now' (Page.core st')
        = LocaleDate d' ->
        d' <= d).
Proof.
  cbv zeta. intros Hp Hdouble _ _ _ Hok.
  destruct (handleRegisterPayment_sent api nowWrite nowRefresh method st)
    as [request [_ [_ [_ [_ [_ [_ [_ [_ Hres]]]]]]]]].
  destruct (Hok (fst request) (snd request)) as [u Hu].
  rewrite (Hres u Hu).
  match goal with
  | |- context [refreshTransactions api nowRefresh ?s] =>
      destruct (refreshTransactions_keeps api nowRefresh s) as [Hb [Hq _]];
      set (st' := refreshTransactions api nowRefresh s) in *
  end.
  page_simpl.
  assert (Hle : (accountBalance (Page.core st')
                 <= accountBalance (Page.core st))%Q).
  { rewrite Hb.
    assert (H : (Double.sub (accountBalance (Page.core st))
                            (presetPaymentAmount (Page.core st))
                 <= Double.round (accountBalance (Page.core st)))%Q)
      by (unfold Double.sub; apply round_le; lra).
    lra. }
  assert (Hn : paymentsLeft (Page.core st') <= paymentsLeft (Page.core st))
    by (apply paymentsLeft_le; assumption).
  split; [exact Hb |]. split; [exact Hle |]. split; [exact Hn |]. split.
  - intros k q Hq0 Hk Hk' Hbal Hpay.
    split; [now apply (paymentsLeft_whole k q) |].
    apply (paymentsLeft_whole (k - 1) q); [exact Hq0 | exact Hk' | | ].
    + rewrite Hb. unfold Double.sub.
      rewrite (round_comp _ (inject_Z ((k - 1) * q))).
      * apply round_Z. exact Hk'.
      * replace ((k - 1) * q) with (k * q + - q) by lia.
        rewrite Hbal, Hpay, inject_Z_plus, inject_Z_opp. ring.
    + rewrite Hq. exact Hpay.
  - intros LocalTZA monthStart now now' d d' Hreads He He'.
    rewrite estimatedFinishDate_projection in He; [| exact Hp | exact Hreads].
    rewrite estimatedFinishDate_projection in He';
      [| rewrite Hq; exact Hp | exact Hreads].
    destruct (TimeClip _) in He; [| discriminate He].
    destruct (TimeClip _) in He'; [| discriminate He'].
    injection He as <-. injection He' as <-. lia.
Qed.

(** Efectivo on the loaded 'taxi' page: 300.00 at 20.00 a payment, from 15
    payments left to 14. *)
Lemma handleRegisterPayment_finish_date_witness :
  ((0 < presetPaymentAmount (Page.core (taxiLoaded threeTransactions)))%Q
   /\ (Double.round (accountBalance (Page.core (taxiLoaded threeTransactions)))
       == accountBalance (Page.core (taxiLoaded threeTransactions)))%Q
   /\ 0 < 20 /\ Z.abs (15 * 20) < 2 ^ 53 /\ Z.abs ((15 - 1) * 20) < 2 ^ 53
   /\ (accountBalance (Page.core (taxiLoaded threeTransactions))
       == inject_Z (15 * 20))%Q
   /\ (presetPaymentAmount (Page.core (taxiLoaded threeTransactions))
       == inject_Z 20)%Q)
  /\ paymentsLeft (Page.core (taxiLoaded threeTransactions)) = 15
  /\ paymentsLeft
       (Page.core (fst (handleRegisterPayment (ledger threeTransactions)
                          mondayNoon mondayNoon Efectivo
                          (taxiLoaded threeTransactions)))) = 15 - 1.
Proof.
  set (st := taxiLoaded threeTransactions).
  assert (Hbal : accountBalance (Page.core st) = 300%Q) by reflexivity.
  assert (Hpay : presetPaymentAmount (Page.core st) = 20%Q) by reflexivity.
  assert (Hp : (0 < presetPaymentAmount (Page.core st))%Q)
    by (rewrite Hpay; reflexivity).
  assert (Hd : (Double.round (accountBalance (Page.core st))
                == accountBalance (Page.core st))%Q)
    by (rewrite Hbal; vm_compute; reflexivity).
  assert (Hb : (accountBalance (Page.core st) == inject_Z (15 * 20))%Q)
    by (rewrite Hbal; reflexivity).
  assert (Hq : (presetPaymentAmount (Page.core st) == inject_Z 20)%Q)
    by (rewrite Hpay; reflexivity).
  assert (H20 : 0 < 20) by lia.
  assert (Hk : Z.abs (15 * 20) < 2 ^ 53) by (cbn; lia).
  assert (Hk' : Z.abs ((15 - 1) * 20) < 2 ^ 53) by (cbn; lia).
  assert (F1 : Double.finite (accountBalance (Page.core st)
                              - presetPaymentAmount (Page.core st)))
    by (rewrite Hbal, Hpay; vm_compute; reflexivity).
  assert (F2 : Double.finite (accountBalance (Page.core st)
                              / presetPaymentAmount (Page.core st)))
    by (rewrite Hbal, Hpay; vm_compute; reflexivity).
  assert (F3 : Double.finite
                 (Double.sub (accountBalance (Page.core st))
                             (presetPaymentAmount (Page.core st))
                  / presetPaymentAmount (Page.core st)))
    by (rewrite Hbal, Hpay; vm_compute; reflexivity).
  split; [repeat split; try assumption; discriminate |].
  exact (proj1 (proj2 (proj2 (proj2
           (handleRegisterPayment_finish_date (ledger threeTransactions)
              mondayNoon mondayNoon Efectivo st Hp Hd F1 F2 F3
              (fun _ _ => ex_intro _ tt eq_refl)))))
           15 20 H20 Hk Hk' Hb Hq).
Defined.

(** ** Registering a blank payment *)

Ltac bytes_to_prop :=
  repeat first
    [ rewrite andb_true_iff in * | rewrite orb_true_iff in *
    | rewrite N.leb_le in * | rewrite N.eqb_eq in * ].

Lemma isBlankBytes_no_visible (n : nat) :
  forall l, (length l <= n)%nat -> isBlankBytes l = true ->
  forall b, In b l -> (b < 33 \/ 126 < b)%N.
Proof.
  induction n as [| n IH]; intros l Hlen Hb b Hin.
  - destruct l; [destruct Hin | cbn in Hlen; lia].
  - destruct l as [| b1 r1]; [destruct Hin |].
    cbn [isBlankBytes] in Hb. cbn [length] in Hlen.
    destruct (isSpaceByte b1) eqn:E1.
    { destruct Hin as [<- | Hin].
      - unfold isSpaceByte in E1. bytes_to_prop. lia.
      - apply (IH r1); [lia | exact Hb | exact Hin]. }
    destruct r1 as [| b2 r2]; [discriminate Hb |].
    cbn [length] in Hlen.
    destruct (isSpace2 b1 b2) eqn:E2.
    { destruct Hin as [<- | [<- | Hin]].
      - unfold isSpace2 in E2. bytes_to_prop. lia.
      - unfold isSpace2 in E2. bytes_to_prop. lia.
      - apply (IH r2); [lia | exact Hb | exact Hin]. }
    destruct r2 as [| b3 r3]; [discriminate Hb |].
    cbn [length] in Hlen.
    destruct (isSpace3 b1 b2 b3) eqn:E3; [| discriminate Hb].
    destruct Hin as [<- | [<- | [<- | Hin]]].
    + unfold isSpace3 in E3. bytes_to_prop. lia.
    + unfold isSpace3 in E3. bytes_to_prop. lia.
    + unfold isSpace3 in E3. bytes_to_prop. lia.
    + apply (IH r3); [lia | exact Hb | exact Hin].
Qed.

Lemma isBlankBytes_spaces (l : list N) :
  Forall (fun b => isSpaceByte b = true) l -> isBlankBytes l = true.
Proof.
  induction 1 as [| b l Hb _ IH]; [reflexivity |].
  cbn [isBlankBytes]. now rewrite Hb.
Qed.

(** X24.  The blank test behind [handleRegisterBlankPayment]: a reason made
    of spaces, tabs and line breaks only (the empty reason included) is
    blank, and a reason holding any visible ASCII character is not. *)
Theorem isBlank_spec (reason : string) :
  (Forall (fun b => b = 32 \/ 9 <= b <= 13)%N (bytesOf reason) ->
   isBlank reason = true)
  /\ ((exists b, In b (bytesOf reason) /\ 33 <= b <= 126)%N ->
      isBlank reason = false).
Proof.
  unfold isBlank. split.
  - intros H. apply isBlankBytes_spaces.
    eapply Forall_impl; [| exact H].
    intros b Hb. unfold isSpaceByte. cbv beta in Hb.
    apply orb_true_iff. rewrite andb_true_iff, !N.leb_le, N.eqb_eq. lia.
  - intros [b [Hin Hb]].
    destruct (isBlankBytes (bytesOf reason)) eqn:E; [| reflexivity].
    pose proof (isBlankBytes_no_visible _ _ (le_n _) E b Hin). lia.
Qed.

Example isBlank_examples :
  isBlank EmptyString = true
  /\ isBlank "   " = true
  /\ isBlank (String (ascii_of_N 194) (String (ascii_of_N 160) " ")) = true
  /\ isBlank (String (ascii_of_N 194) " ") = false
  /\ isBlank " sin efectivo " = false
  /\ isBlank "¡" = false.
Proof. repeat split. Qed.

Lemma isBlank_spec_witness :
  (exists b, In b (bytesOf " x ") /\ 33 <= b <= 126)%N
  /\ isBlank " x " = false.
Proof.
  assert (H : (exists b, In b (bytesOf " x ") /\ 33 <= b <= 126)%N).
  { exists 120%N. split; [right; left; reflexivity | split; discriminate]. }
  split; [exact H |].
  exact (proj2 (isBlank_spec " x ") H).
Defined.

(** X25.  [handleRegisterBlankPayment] with a blank reason sends nothing and
    leaves the state as it is.  With any other reason it sends exactly one
    write: a plain transaction (never a transfer) of amount 0 on the debt
    account, dated today, with payee "No hare un pago hoy" and the reason as
    memo.  A refused write leaves the state as it is; an accepted one closes
    the dialog and empties the reason.  The balance shown never changes. *)
Theorem handleRegisterBlankPayment_spec (api : Api)
    (nowWrite nowRefresh : Dayjs.t) (st : Page.State) :
  let result := handleRegisterBlankPayment api nowWrite nowRefresh st in
  (isBlank (Page.blankPaymentReason st) = true -> result = (st, []))
  /\ (isBlank (Page.blankPaymentReason st) = false ->
      exists data,
        snd result = [(Page.budgetId st, data)]
        /\ account_id data = Page.accountId st
        /\ transfer_account_id data = None
        /\ payee_name data = Some "No hare un pago hoy"%string
        /\ new_amount data = 0
        /\ new_memo data = Page.blankPaymentReason st
        /\ new_date data = Dayjs.date nowWrite
        /\ (forall thrown,
              transactions_createTransaction api (Page.budgetId st) data
              = Rejected thrown -> fst result = st)
        /\ (forall u,
              transactions_createTransaction api (Page.budgetId st) data
              = Resolved u ->
              Page.isBlankPaymentModalOpen (fst result) = false
              /\ Page.blankPaymentReason (fst result) = EmptyString))
  /\ accountBalance (Page.core (fst result)) = accountBalance (Page.core st).
Proof.
  cbv zeta. unfold handleRegisterBlankPayment.
  destruct (isBlank (Page.blankPaymentReason st)) eqn:Hb.
  { split; [reflexivity |]. split; [discriminate | reflexivity]. }
  split; [discriminate |].
  unfold createTransaction. cbv zeta. cbn [fst snd].
  match goal with
  | |- context [transactions_createTransaction ?a ?b ?d] =>
      destruct (transactions_createTransaction a b d) as [u | thrown] eqn:Hr
  end; cbn [fst snd].
  - match goal with
    | |- context [refreshTransactions api nowRefresh ?s] =>
        destruct (refreshTransactions_keeps api nowRefresh s)
          as [H1 [_ [_ [_ [H5 H6]]]]]
    end.
    split; [| rewrite H1; reflexivity].
    intros _. eexists. split; [reflexivity |].
    repeat split; try reflexivity.
    + intros thrown Ht. rewrite Hr in Ht. discriminate Ht.
    + rewrite H5. reflexivity.
    + rewrite H6. reflexivity.
  - split; [| reflexivity].
    intros _. eexists. split; [reflexivity |].
    repeat split; try reflexivity.
    all: match goal with
         | H : transactions_createTransaction _ _ _ = Resolved _ |- _ =>
             rewrite Hr in H; discriminate H
         end.
Qed.

Lemma handleRegisterBlankPayment_spec_witness :
  isBlank (Page.blankPaymentReason (taxiLoaded [])) = true
  /\ handleRegisterBlankPayment (ledger []) mondayNoon mondayNoon (taxiLoaded [])
     = (taxiLoaded [], [])
  /\ isBlank (Page.blankPaymentReason
                (Page.setBlankPaymentReason "sin efectivo" (taxiLoaded [])))
     = false
  /\ exists data,
       snd (handleRegisterBlankPayment (ledger []) mondayNoon mondayNoon
              (Page.setBlankPaymentReason "sin efectivo" (taxiLoaded [])))
       = [("budget-1"%string, data)]
       /\ new_amount data = 0.
Proof.
  assert (H1 : isBlank (Page.blankPaymentReason (taxiLoaded [])) = true)
    by reflexivity.
  assert (H2 : isBlank (Page.blankPaymentReason
                          (Page.setBlankPaymentReason "sin efectivo"
                             (taxiLoaded []))) = false) by reflexivity.
  split; [exact H1 |]. split.
  { exact (proj1 (handleRegisterBlankPayment_spec (ledger []) mondayNoon
                    mondayNoon (taxiLoaded [])) H1). }
  split; [exact H2 |].
  destruct (proj1 (proj2 (handleRegisterBlankPayment_spec (ledger []) mondayNoon
                            mondayNoon
                            (Page.setBlankPaymentReason "sin efectivo"
                               (taxiLoaded [])))) H2)
    as [data [Hs [_ [_ [_ [Ha _]]]]]].
  exists data. split; [exact Hs | exact Ha].
Defined.

(** ** From a registered payment to the status *)

Lemma refreshTransactions_paid_today (api : Api) (now : Dayjs.t)
    (st : Page.State) (transactions : list Transaction) (t : Transaction) :
  truthy (Page.budgetId st) && truthy (Page.accountId st) = true ->
  getTransactions api (Page.budgetId st) (Page.accountId st)
  = Resolved transactions ->
  In t transactions -> t_date t = Dayjs.date now ->
  (datedOnOrAfter (Dayjs.date now) transactions <= 20)%nat ->
  includes (paymentDays (Page.core st)) (Dayjs.day now) = true ->
  debtStatus now (Page.core (refreshTransactions api now st)) = PagoRealizadoHoy.
Proof.
  intros Hg Ht Hin Hd Hn Hs.
  apply debtStatus_PagoRealizadoHoy.
  assert (Hh : paymentHistory (Page.core (refreshTransactions api now st))
               = paymentTransactions transactions).
  { unfold refreshTransactions. rewrite Hg, Ht. cbv zeta.
    destruct (Page.deadlineConfig st) as [dc |];
      [destruct (Config.enabled dc) |]; reflexivity. }
  destruct (refreshTransactions_keeps api now st) as [_ [_ [Hp _]]].
  rewrite Hp, Hh. split; [exact Hs |].
  apply madePaymentToday_iff. exists (toPaymentHistoryItem t).
  split; [| split].
  - unfold paymentTransactions. apply in_map.
    apply In_firstn_sorted; [exact Hin | now rewrite Hd].
  - exact Hd.
  - apply milliunitsToCurrency_abs_nonneg.
Qed.

(** X26.  Registering reaches the status: on a scheduled weekday, once the
    ledger has accepted the write of [handleRegisterPayment] or of
    [handleRegisterBlankPayment] and the refresh returns a transaction dated
    today among at most 20 dated today or later, the status reads "payment
    completed today", whatever the amount of that transaction (a blank
    payment of 0 included). *)
Theorem registered_payment_shows (api : Api) (nowWrite nowRefresh : Dayjs.t)
    (st : Page.State) (transactions : list Transaction) (t : Transaction) :
  (forall budget data, exists u,
     transactions_createTransaction api budget data = Resolved u) ->
  truthy (Page.budgetId st) && truthy (Page.accountId st) = true ->
  getTransactions api (Page.budgetId st) (Page.accountId st)
  = Resolved transactions ->
  In t transactions -> t_date t = Dayjs.date nowRefresh ->
  (datedOnOrAfter (Dayjs.date nowRefresh) transactions <= 20)%nat ->
  includes (paymentDays (Page.core st)) (Dayjs.day nowRefresh) = true ->
  (forall method,
     debtStatus nowRefresh
       (Page.core (fst (handleRegisterPayment api nowWrite nowRefresh method st)))
     = PagoRealizadoHoy)
  /\ (isBlank (Page.blankPaymentReason st) = false ->
      debtStatus nowRefresh
        (Page.core (fst (handleRegisterBlankPayment api nowWrite nowRefresh st)))
      = PagoRealizadoHoy).
Proof.
  intros Hok Hg Ht Hin Hd Hn Hs. split.
  - intros method.
    destruct (handleRegisterPayment_sent api nowWrite nowRefresh method st)
      as [request [_ [_ [_ [_ [_ [_ [_ [_ Hres]]]]]]]]].
    destruct (Hok (fst request) (snd request)) as [u Hu].
    rewrite (Hres u Hu).
    apply (refreshTransactions_paid_today _ _ _ transactions t); assumption.
  - intros Hb. unfold handleRegisterBlankPayment. rewrite Hb.
    unfold createTransaction. cbv zeta. cbn [fst snd].
    match goal with
    | |- context [transactions_createTransaction ?a ?b ?d] =>
        destruct (Hok b d) as [u Hu]; rewrite Hu
    end.
    cbn [fst snd].
    apply (refreshTransactions_paid_today _ _ _ transactions t); assumption.
Qed.

(** A blank payment on Monday 5 January 1970, the ledger returning it. *)
Lemma registered_payment_shows_witness :
  debtStatus mondayNoon
    (Page.core (fst (handleRegisterBlankPayment
                       (ledger [mkTransaction 4 0 "uncleared" (Some "sin efectivo"%string)])
                       mondayNoon mondayNoon
                       (Page.setBlankPaymentReason "sin efectivo" (taxiLoaded [])))))
  = PagoRealizadoHoy.
Proof.
  apply (proj2 (registered_payment_shows
           (ledger [mkTransaction 4 0 "uncleared" (Some "sin efectivo"%string)])
           mondayNoon mondayNoon
           (Page.setBlankPaymentReason "sin efectivo" (taxiLoaded []))
           [mkTransaction 4 0 "uncleared" (Some "sin efectivo"%string)]
           (mkTransaction 4 0 "uncleared" (Some "sin efectivo"%string))
           (fun _ _ => ex_intro _ tt eq_refl)
           eq_refl eq_refl (or_introl eq_refl) eq_refl
           (le_S _ _ (le_S _ _ (le_S _ _ (le_S _ _ (le_S _ _ (le_S _ _
              (le_S _ _ (le_S _ _ (le_S _ _ (le_S _ _ (le_S _ _ (le_S _ _
              (le_S _ _ (le_S _ _ (le_S _ _ (le_S _ _ (le_S _ _ (le_S _ _
              (le_S _ _ (le_n 1))))))))))))))))))))
           eq_refl)).
  reflexivity.
Defined.

(** ** The accounts of the table, once loaded *)

Lemma getAccountConfig_Own_In (inherited : string -> bool) (accountKey : string)
    (c : Config.AccountConfig) :
  getAccountConfig inherited accountKey = Own c ->
  In (accountKey, c) ACCOUNT_CONFIG.
Proof.
  unfold getAccountConfig.
  destruct (lookup_ACCOUNT_CONFIG accountKey) as [[_ [c' [-> Hin]]] | [_ ->]].
  - now intros [= <-].
  - destruct (inherited accountKey); discriminate.
Qed.

Lemma includes_out_of_range (ws : list Z) (x : Z) :
  Forall (fun d => 1 <= d <= 6) ws -> x = 0 -> includes ws x = false.
Proof.
  intros Hws ->. destruct (includes ws 0) eqn:E; [| reflexivity].
  apply includes_In in E. rewrite Forall_forall in Hws.
  specialize (Hws 0 E). lia.
Qed.

(** X27.  Every account of the table, once loaded, has a finish-date
    projection: the payment amount is above 0 and the balance not negative,
    so the projection is never "N/A", the number of payments left is never
    negative and, the two clock reads falling in the same month, the
    projection is today's date plus [paymentsLeft * 15] days, never a date
    before today, or "Invalid Date" when that day is out of the range of a
    [Date].  No account schedules Sundays, so on a Sunday the status is "not
    a payment day" for each of them. *)
Theorem loaded_account_projection (inherited : string -> bool)
    (message : string) (LocalTZA : Z) (monthStart : Z -> Z) (api : Api)
    (now later later' : Dayjs.t) (accountKey : string) (st0 : Page.State)
    (c : Config.AccountConfig) (b : Budget) (a : Account)
    (transactions : list Transaction) :
  loadSucceeds inherited api accountKey c b a transactions ->
  let st := loadAccountData inherited message api now accountKey st0 in
  let n := paymentsLeft (Page.core st) in
  let finish := Dayjs.parse (Dayjs.date later + n * 15)
                + later' mod Dayjs.MILLISECONDS_A_DAY in
  estimatedFinishDate LocalTZA monthStart later later' (Page.core st) <> NA
  /\ 0 <= n
  /\ (sameMonthReads LocalTZA monthStart later later' ->
      estimatedFinishDate LocalTZA monthStart later later' (Page.core st)
      = match TimeClip (finish - LocalTZA) with
        | Some _ => LocaleDate (Dayjs.date later + n * 15)
        | None => InvalidDate
        end)
  /\ (Dayjs.day later = 0 ->
      debtStatus later (Page.core st) = NoEsDiaDePago).
Proof.
  intros H. cbv zeta.
  rewrite (loadAccountData_loaded _ _ _ _ _ _ c b a transactions H).
  cbv zeta. page_simpl.
  destruct H as [Hc _]. apply getAccountConfig_Own_In in Hc.
  apply ACCOUNT_CONFIG_wellFormed in Hc.
  destruct Hc as [Hp [_ [_ [Hd _]]]]. cbv zeta in Hp, Hd.
  split; [apply estimatedFinishDate_not_NA; exact Hp |].
  split.
  { unfold paymentsLeft, Double.div. cbn [accountBalance presetPaymentAmount].
    change 0 with (Qceiling 0). apply Qceiling_resp_le, round_nonneg.
    apply Qle_shift_div_l; [exact Hp |]. rewrite Qmult_0_l.
    apply milliunitsToCurrency_abs_nonneg. }
  split.
  - intros Hreads. now apply estimatedFinishDate_projection.
  - intros Hsun. rewrite debtStatus_cases. cbn [paymentDays].
    now rewrite (includes_out_of_range _ _ Hd Hsun).
Qed.

(** The loaded 'taxi' page, read on Sunday 4 January 1970 in Panama: 15
    payments left, the projection 225 days on. *)
Lemma loaded_account_projection_witness :
  (Dayjs.day (Dayjs.parse 3) = 0
   /\ sameMonthReads panama january1970 (Dayjs.parse 3) (Dayjs.parse 3))
  /\ debtStatus (Dayjs.parse 3) (Page.core (taxiLoaded threeTransactions))
     = NoEsDiaDePago
  /\ estimatedFinishDate panama january1970 (Dayjs.parse 3) (Dayjs.parse 3)
       (Page.core (taxiLoaded threeTransactions))
     = LocaleDate (3 + 15 * 15).
Proof.
  assert (H : loadSucceeds inheritedName (ledger threeTransactions) "taxi"
    (Config.mkAccountConfig "65dd34f4-7de3-45ac-8605-78a8f27de40f" "Taxi Soluto 2020"
       (Config.mkPaymentConstants 20 30 10 [1; 2; 3; 4; 5; 6])
       (Some (Config.mkDeadlineConfig true (daysFromCivil 2030 9 30) true
                "Días de pago restantes"))
       (Some paymentAccounts))
    (mkBudget "budget-1") (mkAccount (-300000)) threeTransactions).
  { repeat split. now exists []. }
  assert (Hs : Dayjs.day (Dayjs.parse 3) = 0) by reflexivity.
  assert (Hreads : sameMonthReads panama january1970 (Dayjs.parse 3)
                     (Dayjs.parse 3))
    by (vm_compute; repeat split; discriminate).
  split; [split; assumption |].
  destruct (loaded_account_projection inheritedName sampleTypeError panama
              january1970 (ledger threeTransactions) mondayNoon
              (Dayjs.parse 3) (Dayjs.parse 3) "taxi" Page.initial _ _ _ _ H)
    as [_ [_ [Hdate Hsun]]].
  split; [exact (Hsun Hs) |].
  fold (taxiLoaded threeTransactions) in Hdate.
  rewrite (Hdate Hreads).
  reflexivity.
Defined.

(** ** A written amount read back *)

Lemma Qabs_round (x : Q) : (Qabs (Double.round x) == Double.round (Qabs x))%Q.
Proof.
  destruct (Qlt_le_dec x 0) as [H | H].
  - rewrite (round_comp (Qabs x) (- x)) by (apply Qabs_neg; lra).
    rewrite round_opp. apply Qabs_neg, round_nonpos. lra.
  - rewrite (round_comp (Qabs x) x) by (apply Qabs_pos; exact H).
    apply Qabs_pos, round_nonneg, H.
Qed.

(** An amount as large as 8 810 434 344 119.55 is written one minor unit
    off. *)
Example written_amount_large :
  new_amount (snd (fst (createTransaction (ledger []) mondayNoon "budget-1"
                          "account" (decimal 881043434411955 100) "Pago Yappy"
                          None)))
  = -8810434344119551.
Proof. vm_compute. reflexivity. Qed.

(** X28.  The amount of a payment survives the way through the ledger: for
    an amount in whole cents of at most 10^9 in magnitude, of either sign,
    held as the binary64 value nearest to it, [createTransaction] and
    [createTransferTransaction] both send minus ten times the number of
    cents in minor units, and the reconciler turns a transaction of that
    amount back into the magnitude of the original amount. *)
Theorem written_amount_read_back (api : Api) (now : Dayjs.t)
    (budgetId accountId otherId payee : string) (note : option string)
    (cents : Z) (t : Transaction) :
  Z.abs cents <= 100000000000 ->
  let value := Double.round (inject_Z cents / 100) in
  let plain :=
    snd (fst (createTransaction api now budgetId accountId value payee note)) in
  let transfer :=
    snd (fst (createTransferTransaction api now budgetId otherId accountId
                value note)) in
  new_amount plain = - (10 * Z.abs cents)
  /\ new_amount transfer = new_amount plain
  /\ new_date transfer = new_date plain
  /\ (t_amount t = new_amount plain ->
      (amount (toPaymentHistoryItem t) == Qabs value)%Q).
Proof.
  intros Hc. cbv zeta. unfold createTransaction, createTransferTransaction.
  cbv zeta. cbn [fst snd new_amount new_date].
  assert (Hq : (Qabs (inject_Z cents / 100) == inject_Z (Z.abs cents) / 100)%Q).
  { unfold Qdiv. rewrite Qabs_Qmult. apply Qmult_comp; reflexivity. }
  assert (Habs : (Qabs (Double.round (inject_Z cents / 100))
                  == Double.round (inject_Z (Z.abs cents) / 100))%Q).
  { rewrite Qabs_round. now rewrite (round_comp _ _ Hq). }
  assert (Hm : currencyToMilliunits (- Qabs (Double.round (inject_Z cents / 100)))
               = - (10 * Z.abs cents)).
  { rewrite (currencyToMilliunits_comp _
               (Double.round (inject_Z (- Z.abs cents) / 100))).
    - apply currencyToMilliunits_round; [lia |].
      rewrite !inject_Z_opp, inject_Z_mult. field.
    - rewrite Habs, <- round_opp.
      rewrite (round_comp (- (inject_Z (Z.abs cents) / 100))
                 (inject_Z (- Z.abs cents) / 100))
        by (rewrite inject_Z_opp; field).
      reflexivity. }
  split; [exact Hm |]. split; [reflexivity |]. split; [reflexivity |].
  intros Ht. cbn [toPaymentHistoryItem amount]. rewrite Ht, Hm, Habs.
  unfold milliunitsToCurrency, Double.div.
  replace (Z.abs (- (10 * Z.abs cents))) with (10 * Z.abs cents) by lia.
  rewrite (round_comp (inject_Z (10 * Z.abs cents) / 1000)
             (inject_Z (Z.abs cents) / 100))
    by (rewrite inject_Z_mult; field).
  reflexivity.
Qed.

(** 19.99 by Yappy: -19990 minor units out, 19.99 back. *)
Lemma written_amount_read_back_witness :
  Z.abs 1999 <= 100000000000
  /\ new_amount (snd (fst (createTransaction (ledger []) mondayNoon "budget-1"
                             "account" (decimal 1999 100) "Pago Yappy" None)))
     = - (10 * Z.abs 1999)
  /\ (amount (toPaymentHistoryItem (mkTransaction 4 (-19990) "uncleared" None))
      == Qabs (decimal 1999 100))%Q.
Proof.
  assert (H : Z.abs 1999 <= 100000000000) by (cbn; lia).
  split; [exact H |].
  pose proof (written_amount_read_back (ledger []) mondayNoon "budget-1"
                "account" "other" "Pago Yappy" None 1999
                (mkTransaction 4 (-19990) "uncleared" None) H)
    as [Ha [_ [_ Hr]]].
  split; [exact Ha |]. apply Hr. rewrite Ha. reflexivity.
Defined.
